(** * helm-preview: the CRD analysis pipeline and the exit-code contract

    A shallow embedding of the CRD subsystem of helm-preview
    ([helm_preview/crd/*.py]), of the two renderers
    ([helm_preview/output/*.py]) and of the [diff] command
    ([helm_preview/cli.py]), with the properties the specification states
    about them.

    Layout:
    - the host layer: Python values, exceptions, the operations of [dict],
      [list] and [str] the code relies on, a regular-expression matcher;
    - the data classes of [crd/report.py];
    - one part per source module, in dependency order;
    - the theorems, in the order of the specification. *)

From Stdlib Require Import String Ascii List ZArith Bool Arith Lia.
From Stdlib Require Import Floats.SpecFloat.
Import ListNotations.

Local Open Scope string_scope.
Local Open Scope list_scope.

Set Implicit Arguments.

(* ================================================================== *)
(** * Host layer *)
(* ================================================================== *)

(** ** Exceptions

    The exceptions the modelled code can meet.  [RunError] belongs to the
    subprocess runner and is kept apart (see [ext] below): only external
    calls raise it. *)

Inductive pyexn : Type :=
| AttributeError   (* [.get] or [.items] on something that is no dict *)
| TypeError        (* unhashable key, iteration over a scalar, [<] on a str *)
| OSError          (* file cannot be read *)
| YAMLError        (* text is no YAML *)
| ValueError       (* undecodable bytes, an unknown enum value *)
| AssertionError
| RecursionError   (* the interpreter's recursion limit *)
| KeyError         (* [d[k]] for a key that [d] lacks *)
| MarkupError.     (* of [rich]: a string whose tags do not pair up *)

Inductive result (A : Type) : Type :=
| Ok (a : A)
| Raise (e : pyexn).

Arguments Ok {A} a.
Arguments Raise {A} e.

Definition bind {A B} (m : result A) (k : A -> result B) : result B :=
  match m with
  | Ok a => k a
  | Raise e => Raise e
  end.

Declare Scope py_scope.
Delimit Scope py_scope with py.
Notation "x <- m ;; k" := (bind m (fun x => k))
  (at level 61, m at next level, right associativity) : py_scope.
Local Open Scope py_scope.

(** [for x in xs: acc = body(acc, x)] with a body that may raise. *)
Fixpoint for_each {A S} (xs : list A) (acc : S) (body : S -> A -> result S)
  : result S :=
  match xs with
  | [] => Ok acc
  | x :: rest => acc' <- body acc x ;; for_each rest acc' body
  end.

(** An external call: the subprocess runner yields text or a [RunError]
    bearing a message, nothing else. *)
Inductive ext (A : Type) : Type :=
| Done (a : A)
| RunError (msg : string).

Arguments Done {A} a.
Arguments RunError {A} msg.

(** ** Values

    A YAML document as PyYAML's [safe_load] hands it over: the tree of
    section 9 of the specification.  A mapping keeps its insertion order
    (Python dicts do) and has string keys; its keys are distinct.  Floats
    are IEEE values in their exact form. *)

Unset Elimination Schemes.
Inductive Node : Type :=
| Null
| Bool (b : bool)
| Int (z : Z)
| Float (f : spec_float)
| Str (s : string)
| Seq (items : list Node)
| Map (entries : list (string * Node)).
Set Elimination Schemes.

(** Nesting depth, the measure the recursive walkers descend on. *)
Fixpoint depth (n : Node) : nat :=
  match n with
  | Seq xs => S (fold_right (fun x d => Nat.max (depth x) d) 0%nat xs)
  | Map m => S (fold_right (fun kv d => Nat.max (depth (snd kv)) d) 0%nat m)
  | _ => 0%nat
  end.

(** ** dict *)

Fixpoint lookup (k : string) (m : list (string * Node)) : option Node :=
  match m with
  | [] => None
  | (k', v) :: rest => if String.eqb k k' then Some v else lookup k rest
  end.

Definition has_key (k : string) (m : list (string * Node)) : bool :=
  match lookup k m with Some _ => true | None => false end.

(** [d.get(k, default)]; anything but a dict has no [get]. *)
Definition py_get (d : Node) (k : string) (default : Node) : result Node :=
  match d with
  | Map m => Ok (match lookup k m with Some v => v | None => default end)
  | _ => Raise AttributeError
  end.

(** ** Truth value, [bool(v)] *)

Definition py_truthy (v : Node) : bool :=
  match v with
  | Null => false
  | Bool b => b
  | Int z => negb (Z.eqb z 0)
  | Float (S754_zero _) => false
  | Float _ => true
  | Str s => negb (String.eqb s "")
  | Seq xs => match xs with [] => false | _ => true end
  | Map m => match m with [] => false | _ => true end
  end.

(** ** Numbers

    [bool] is a subclass of [int]; ints and floats compare by exact value,
    a NaN compares unequal and unordered to everything. *)

Inductive number : Type :=
| NaN
| NegInf
| PosInf
| Fin (m e : Z).     (* m * 2^e *)

Definition as_number (v : Node) : option number :=
  match v with
  | Bool b => Some (Fin (if b then 1 else 0) 0)
  | Int z => Some (Fin z 0)
  | Float S754_nan => Some NaN
  | Float (S754_infinity s) => Some (if s then NegInf else PosInf)
  | Float (S754_zero _) => Some (Fin 0 0)
  | Float (S754_finite s m e) => Some (Fin (if s then Z.neg m else Z.pos m) e)
  | _ => None
  end.

(** [None]: unordered (a NaN is involved). *)
Definition num_compare (a b : number) : option comparison :=
  match a, b with
  | NaN, _ | _, NaN => None
  | NegInf, NegInf => Some Eq
  | NegInf, _ => Some Lt
  | _, NegInf => Some Gt
  | PosInf, PosInf => Some Eq
  | PosInf, _ => Some Gt
  | _, PosInf => Some Lt
  | Fin m1 e1, Fin m2 e2 =>
      let e := Z.min e1 e2 in
      Some (Z.compare (m1 * 2 ^ (e1 - e)) (m2 * 2 ^ (e2 - e)))
  end.

(** [a < b] for a number [a]; a [TypeError] when [b] is not a number. *)
Definition py_lt (a b : Node) : result bool :=
  match as_number a, as_number b with
  | Some x, Some y =>
      Ok (match num_compare x y with Some Lt => true | _ => false end)
  | _, _ => Raise TypeError
  end.

(** [a > b], likewise. *)
Definition py_gt (a b : Node) : result bool := py_lt b a.

(** ** Equality, [a == b]

    Structural, with the numeric tower merged, list items in order and
    dict entries in any order.  The operands come from different documents,
    so no two of them are the same object. *)

Fixpoint py_eq (a b : Node) {struct a} : bool :=
  match a with
  | Null => match b with Null => true | _ => false end
  | Bool _ | Int _ | Float _ =>
      match as_number a, as_number b with
      | Some x, Some y =>
          match num_compare x y with Some Eq => true | _ => false end
      | _, _ => false
      end
  | Str s => match b with Str t => String.eqb s t | _ => false end
  | Seq xs =>
      match b with
      | Seq ys =>
          (fix go (l : list Node) (r : list Node) {struct l} : bool :=
             match l, r with
             | [], [] => true
             | x :: l', y :: r' => py_eq x y && go l' r'
             | _, _ => false
             end) xs ys
      | _ => false
      end
  | Map m =>
      match b with
      | Map m' =>
          Nat.eqb (length m) (length m') &&
          (fix go (l : list (string * Node)) {struct l} : bool :=
             match l with
             | [] => true
             | (k, v) :: l' =>
                 match lookup k m' with
                 | Some v' => py_eq v v'
                 | None => false
                 end && go l'
             end) m
      | _ => false
      end
  end.

(** Lists and dicts are unhashable. *)
Definition hashable (v : Node) : bool :=
  match v with
  | Seq _ | Map _ => false
  | _ => true
  end.

(** [x in xs] for a list [xs]. *)
Definition list_contains (x : Node) (xs : list Node) : bool :=
  existsb (fun y => py_eq x y) xs.

(** [x in s] for a set [s] (given by its elements): [x] is hashed first. *)
Definition set_contains (x : Node) (s : list Node) : result bool :=
  if hashable x then Ok (list_contains x s) else Raise TypeError.

(** [k in d] for a dict [d]. *)
Definition dict_contains (k : Node) (m : list (string * Node)) : result bool :=
  match k with
  | Str s => Ok (has_key s m)
  | Seq _ | Map _ => Raise TypeError
  | _ => Ok false
  end.

(** ** Strings *)

Fixpoint chars (s : string) : list ascii :=
  match s with
  | EmptyString => []
  | String c rest => c :: chars rest
  end.

(** Is [sub] a substring of [s]? *)
Fixpoint is_prefix (p s : string) : bool :=
  match p, s with
  | EmptyString, _ => true
  | String a p', String b s' => Ascii.eqb a b && is_prefix p' s'
  | _, _ => false
  end.

Fixpoint is_substring (sub s : string) : bool :=
  is_prefix sub s ||
  match s with
  | EmptyString => false
  | String _ s' => is_substring sub s'
  end.

Definition is_suffix (suf s : string) : bool :=
  let n := String.length s in
  let k := String.length suf in
  Nat.leb k n && String.eqb (substring (n - k) k s) suf.

(** An f-string: its pieces, in order. *)
Definition fstr (pieces : list string) : string := String.concat "" pieces.

(** [sep.join(parts)] *)
Fixpoint join (sep : string) (parts : list string) : string :=
  match parts with
  | [] => ""
  | [p] => p
  | p :: rest => (p ++ sep ++ join sep rest)%string
  end.

(** Decimal numerals, for [len(...)] and list indices inside f-strings. *)
Definition digit_char (n : nat) : ascii :=
  ascii_of_nat (48 + n).

Fixpoint nat_digits (fuel n : nat) (acc : string) : string :=
  match fuel with
  | O => acc
  | S fuel' =>
      let acc' := String (digit_char (n mod 10)) acc in
      match n / 10 with
      | O => acc'
      | q => nat_digits fuel' q acc'
      end
  end.

Definition str_of_nat (n : nat) : string := nat_digits (S n) n "".

(** [type(v).__name__] *)
Definition type_name (v : Node) : string :=
  match v with
  | Null => "NoneType"
  | Bool _ => "bool"
  | Int _ => "int"
  | Float _ => "float"
  | Str _ => "str"
  | Seq _ => "list"
  | Map _ => "dict"
  end.

(** Iteration, [for x in v]. *)
Definition py_iter (v : Node) : result (list Node) :=
  match v with
  | Seq xs => Ok xs
  | Map m => Ok (map (fun kv => Str (fst kv)) m)
  | Str s => Ok (map (fun c => Str (String c "")) (chars s))
  | _ => Raise TypeError
  end.

(* ================================================================== *)
(** * Regular expressions, the fragment of [re] the classifier uses *)
(* ================================================================== *)

(** Matching by derivatives.  A class is a predicate on characters, so
    [\d], [\w] and [.] need no enumeration.  Strings are taken over the
    ASCII range, where [\d] is [0-9] and [\w] is [A-Za-z0-9_]. *)

Inductive regex : Type :=
| Void
| Eps
| Cls (p : ascii -> bool)
| Cat (r s : regex)
| Alt (r s : regex)
| Star (r : regex).

Fixpoint nullable (r : regex) : bool :=
  match r with
  | Void => false
  | Eps => true
  | Cls _ => false
  | Cat r s => nullable r && nullable s
  | Alt r s => nullable r || nullable s
  | Star _ => true
  end.

Fixpoint deriv (c : ascii) (r : regex) : regex :=
  match r with
  | Void => Void
  | Eps => Void
  | Cls p => if p c then Eps else Void
  | Cat r s =>
      if nullable r then Alt (Cat (deriv c r) s) (deriv c s)
      else Cat (deriv c r) s
  | Alt r s => Alt (deriv c r) (deriv c s)
  | Star r => Cat (deriv c r) (Star r)
  end.

Fixpoint accepts (r : regex) (w : list ascii) : bool :=
  match w with
  | [] => nullable r
  | c :: w' => accepts (deriv c r) w'
  end.

(** The words of a regular expression. *)
Inductive lang : regex -> list ascii -> Prop :=
| lang_eps : lang Eps []
| lang_cls p c : p c = true -> lang (Cls p) [c]
| lang_cat r s u v : lang r u -> lang s v -> lang (Cat r s) (u ++ v)
| lang_alt_l r s w : lang r w -> lang (Alt r s) w
| lang_alt_r r s w : lang s w -> lang (Alt r s) w
| lang_star_nil r : lang (Star r) []
| lang_star_app r u v : lang r u -> lang (Star r) v -> lang (Star r) (u ++ v).

(** Character classes and literals. *)
Definition is_digit (c : ascii) : bool :=
  let n := nat_of_ascii c in Nat.leb 48 n && Nat.leb n 57.

Definition is_word (c : ascii) : bool :=
  let n := nat_of_ascii c in
  (Nat.leb 48 n && Nat.leb n 57) || (Nat.leb 65 n && Nat.leb n 90)
  || (Nat.leb 97 n && Nat.leb n 122) || Nat.eqb n 95.

Definition newline : ascii := ascii_of_nat 10.

Definition is_newline (c : ascii) : bool := Ascii.eqb c newline.

Definition any_char : regex := Cls (fun _ => true).       (* with DOTALL *)
Definition dot : regex := Cls (fun c => negb (is_newline c)).   (* [.] *)
Definition digit : regex := Cls is_digit.                  (* [\d] *)
Definition word : regex := Cls is_word.                    (* [\w] *)
Definition plus (r : regex) : regex := Cat r (Star r).     (* [r+] *)
Definition anything : regex := Star any_char.

Fixpoint lit (s : string) : regex :=
  match s with
  | EmptyString => Eps
  | String c rest => Cat (Cls (Ascii.eqb c)) (lit rest)
  end.

Fixpoint seq (rs : list regex) : regex :=
  match rs with
  | [] => Eps
  | [r] => r
  | r :: rest => Cat r (seq rest)
  end.

(** A pattern as written in the source: a body, with [^] in front and [$]
    at the end or not.  Without [re.MULTILINE], [$] matches at the end of
    the string and just before a newline that ends the string. *)
Record pattern : Type := mkPattern {
  bol : bool;
  body : regex;
  eol : bool
}.

Definition end_of (p : pattern) : regex :=
  if eol p then Alt Eps (Cls is_newline) else anything.

(** [re.match(p, s) is not None]: a match that starts at position 0. *)
Definition re_match (p : pattern) (s : string) : bool :=
  accepts (Cat (body p) (end_of p)) (chars s).

(** [re.search(p, s) is not None]: a match that starts anywhere, or at
    position 0 when the pattern opens with [^]. *)
Definition re_search (p : pattern) (s : string) : bool :=
  if bol p then re_match p s
  else accepts (Cat anything (Cat (body p) (end_of p))) (chars s).

(* ================================================================== *)
(** * Data classes *)
(* ================================================================== *)

(** Modelled from the spec: [RiskLevel] and [RiskAnnotation] of
    [helm_preview/analysis/risk.py] (section 3, RiskAnnotation). *)
Inductive RiskLevel : Type := SAFE | WARNING | DANGER.

Definition RiskLevel_eqb (a b : RiskLevel) : bool :=
  match a, b with
  | SAFE, SAFE | WARNING, WARNING | DANGER, DANGER => true
  | _, _ => false
  end.

(** Modelled from the spec: the values of [RiskLevel], the keys of
    [risk_summary] (section 6, JSON output schema); the renderers read
    them as [level.value]. *)
Definition level_value (l : RiskLevel) : string :=
  match l with SAFE => "safe" | WARNING => "warning" | DANGER => "danger" end.

Record RiskAnnotation : Type := mkRiskAnnotation {
  level : RiskLevel;
  rule : string;
  ra_message : string;
  ra_path : string
}.

(** Modelled from the spec: [FieldChange] of [helm_preview/diff/engine.py]
    (section 3, FieldChange); [change_type] is a plain string there. *)
Record FieldChange : Type := mkFieldChange {
  path : string;
  old_value : Node;
  new_value : Node;
  change_type : string
}.

(** Modelled from the spec: [Resource] and [ResourcePair] of
    [helm_preview/parser/manifest.py] (section 3). *)
Record Resource : Type := mkResource {
  api_version : string;
  kind : string;
  namespace : string;
  name : string;
  res_body : Node;
  raw : string
}.

Record ResourcePair : Type := mkResourcePair {
  old : option Resource;
  new : option Resource;
  pair_status : string
}.

(** Modelled from the spec: [OwnershipInfo] of
    [helm_preview/analysis/ownership.py] (section 3); an absent [release]
    or [app] is [None]. *)
Record OwnershipInfo : Type := mkOwnershipInfo {
  manager : string;
  release : option string;
  app : option string
}.

(** Modelled from the spec: [ChangeRecord] of [helm_preview/diff/engine.py]
    (section 3, ChangeRecord). *)
Record ChangeRecord : Type := mkChangeRecord {
  resource_key : string;
  cr_kind : string;
  cr_name : string;
  cr_namespace : string;
  cr_status : string;
  cr_changes : list FieldChange
}.

(** Modelled from the spec: the identity key of a [Resource],
    ["<apiVersion>/<kind>/<namespace>/<name>"] (section 3, Resource). *)
Definition key (r : Resource) : string :=
  String.concat "/" [api_version r; kind r; namespace r; name r].

(** The [**kube_opts] of the command line. *)
Record KubeOpts : Type := mkKubeOpts {
  kubeconfig : option string;
  kube_context : option string
}.

(** The arguments of [diff], as click hands them over. *)
Record DiffArgs : Type := mkDiffArgs {
  a_release : string;
  a_chart : string;
  a_namespace : option string;
  a_values : list string;
  a_set_values : list string;
  a_version : option string;
  a_server_side : bool;
  a_show_all : bool;
  a_output_format : string;
  a_context : Z;
  a_ignore_path : list string;
  a_kubeconfig : option string;
  a_kube_context : option string;
  a_no_color : bool;
  a_risk_only : bool;
  a_check_crds : bool;
  a_crd_policy : string
}.

(** [crd/report.py] *)

Record CrdChangeDetail : Type := mkCrdChangeDetail {
  cd_name : string;
  cd_status : string;
  changes : list FieldChange;
  risk_annotations : list RiskAnnotation;
  stored_version_warnings : list string;
  schema_validation_errors : list string;
  ownership_conflict : option string
}.

Definition order (l : RiskLevel) : nat :=
  match l with SAFE => 0 | WARNING => 1 | DANGER => 2 end.

(** [max(xs, key=key)] on a non-empty list: the first of the greatest. *)
Fixpoint max_by {A} (key : A -> nat) (best : A) (xs : list A) : A :=
  match xs with
  | [] => best
  | x :: rest => max_by key (if Nat.ltb (key best) (key x) then x else best) rest
  end.

Definition max_risk (c : CrdChangeDetail) : RiskLevel :=
  match risk_annotations c with
  | [] => SAFE
  | a :: rest => level (max_by (fun a => order (level a)) a rest)
  end.

Record NewCrdInfo : Type := mkNewCrdInfo {
  nc_name : string;
  nc_group : Node;
  nc_kind : Node;
  nc_versions : list Node
}.

Record PolicyResult : Type := mkPolicyResult {
  pr_mode : string;
  blocked : bool;
  pr_message : string;
  exit_code : Z
}.

Record CrdReport : Type := mkCrdReport {
  crds : list CrdChangeDetail;
  new_crds : list NewCrdInfo;
  policy_result : option PolicyResult;
  warnings : list string
}.

(** [CrdReport()] *)
Definition empty_report : CrdReport := mkCrdReport [] [] None [].

Definition has_issues (r : CrdReport) : bool :=
  existsb (fun c => match max_risk c with SAFE => false | _ => true end) (crds r).

Definition has_dangers (r : CrdReport) : bool :=
  existsb (fun c => RiskLevel_eqb (max_risk c) DANGER) (crds r).

(* ================================================================== *)
(** * [crd/policy.py] *)
(* ================================================================== *)

Inductive CrdPolicyMode : Type := IGNORE | WARN | FAIL.

Definition mode_value (m : CrdPolicyMode) : string :=
  match m with IGNORE => "ignore" | WARN => "warn" | FAIL => "fail" end.

(** [CrdPolicyMode(s)], [None] for a [ValueError]. *)
Definition mode_of_value (s : string) : option CrdPolicyMode :=
  if String.eqb s "ignore" then Some IGNORE
  else if String.eqb s "warn" then Some WARN
  else if String.eqb s "fail" then Some FAIL
  else None.

Definition names_of (cs : list CrdChangeDetail) : string :=
  join ", " (map cd_name cs).

Definition count_of (cs : list CrdChangeDetail) : string :=
  str_of_nat (length cs).

Definition evaluate_policy (report : CrdReport) (mode : CrdPolicyMode)
  : PolicyResult :=
  match mode with
  | IGNORE =>
      mkPolicyResult (mode_value mode) false
        "CRD policy: ignore (all CRD issues suppressed)" 0
  | _ =>
      let danger_crds :=
        filter (fun c => RiskLevel_eqb (max_risk c) DANGER) (crds report) in
      let warning_crds :=
        filter (fun c => RiskLevel_eqb (max_risk c) WARNING) (crds report) in
      match mode with
      | WARN =>
          let parts := [] in
          let parts :=
            match danger_crds with
            | [] => parts
            | _ => parts ++ [fstr [count_of danger_crds;
                                   " CRD(s) with DANGER-level changes: ";
                                   names_of danger_crds]]
            end in
          let parts :=
            match warning_crds with
            | [] => parts
            | _ => parts ++ [fstr [count_of warning_crds;
                                   " CRD(s) with WARNING-level changes: ";
                                   names_of warning_crds]]
            end in
          let msg :=
            match parts with
            | [] => "CRD policy: warn (no issues found)"
            | _ => fstr ["CRD policy: warn - "; join "; " parts]
            end in
          mkPolicyResult (mode_value mode) false msg 0
      | _ =>
          match danger_crds with
          | _ :: _ =>
              mkPolicyResult (mode_value mode) true
                (fstr ["CRD policy: fail - "; count_of danger_crds;
                       " CRD(s) with DANGER-level changes: ";
                       names_of danger_crds]) 1
          | [] =>
              match warning_crds with
              | _ :: _ =>
                  mkPolicyResult (mode_value mode) false
                    (fstr ["CRD policy: fail (passed) - ";
                           count_of warning_crds;
                           " CRD(s) with WARNING-level changes: ";
                           names_of warning_crds]) 0
              | [] =>
                  mkPolicyResult (mode_value mode) false
                    "CRD policy: fail (passed) - no issues found" 0
              end
          end
      end
  end.

(* ================================================================== *)
(** * [rich], the console library *)
(* ================================================================== *)

(** What the terminal renderer hands to the console, by the calls that
    build it.  A [Text] is the pieces appended to it, in order: a string
    with its style, or another [Text] that holds such strings (the badges
    of a title).  A [Panel] has a body, and a title with its alignment
    when one is given; a [Table] has its columns, each with a style when
    one is given, and its rows. *)
Inductive Piece : Type :=
| Styled (s : string) (style : string)
| Inner (pieces : list (string * string)).

Definition Text : Type := list Piece.

Inductive Renderable : Type :=
| Blank                                   (* [console.print()] *)
| Markup (s : string)                     (* [console.print(s)] *)
| RuleOf (title : string)                 (* [console.rule(title)] *)
| PanelOf (body : Text) (title : option Text) (title_align : option string)
    (border_style : string)
| TableOf (title : string) (show_header : bool) (boxed : bool)
    (columns : list (string * option string)) (rows : list (list string)).

(* ================================================================== *)
(** * Fixtures *)
(* ================================================================== *)

(** The widget CRD of the scenarios of section 8 of the specification,
    and a canned world around it: what the subprocesses print, what the
    parsers make of it, what the chart folder holds. *)
Module Fixture.

(** The proposed schema: [spec] requires [color]. *)
Definition widget_schema : Node :=
  Map [("type", Str "object");
       ("properties",
        Map [("spec",
              Map [("type", Str "object");
                   ("required", Seq [Str "color"]);
                   ("properties",
                    Map [("color", Map [("type", Str "string")]);
                         ("size", Map [("type", Str "integer");
                                       ("minimum", Int 1)])])])])].

(** A live widget without [spec.color]. *)
Definition my_widget : Node :=
  Map [("apiVersion", Str "example.com/v2");
       ("kind", Str "Widget");
       ("metadata", Map [("name", Str "my-widget");
                         ("namespace", Str "default")]);
       ("spec", Map [("size", Int 3)])].

(** The same object in a cluster-scoped flavour: no namespace. *)
Definition cluster_widget : Node :=
  Map [("apiVersion", Str "example.com/v2");
       ("kind", Str "Widget");
       ("metadata", Map [("name", Str "my-widget")]);
       ("spec", Map [("size", Int 3)])].

Definition version_entry (name : string) (storage : bool) : Node :=
  Map [("name", Str name); ("served", Bool true); ("storage", Bool storage);
       ("schema", Map [("openAPIV3Schema", widget_schema)])].

Definition crd_body (versions : list Node) (extra : list (string * Node)) : Node :=
  Map ([("apiVersion", Str "apiextensions.k8s.io/v1");
        ("kind", Str "CustomResourceDefinition");
        ("metadata",
         Map [("name", Str "widgets.example.com");
              ("labels", Map [("app.kubernetes.io/managed-by", Str "Helm")])]);
        ("spec",
         Map [("group", Str "example.com");
              ("names", Map [("plural", Str "widgets"); ("kind", Str "Widget")]);
              ("scope", Str "Namespaced");
              ("versions", Seq versions)])] ++ extra).

(** Installed: versions v1 and v2, objects stored under both. *)
Definition installed_body : Node :=
  crd_body [version_entry "v1" false; version_entry "v2" true]
    [("status", Map [("storedVersions", Seq [Str "v1"; Str "v2"])])].

(** Proposed: v2 alone. *)
Definition proposed_body : Node :=
  crd_body [version_entry "v2" true] [].

Definition crd_resource (body : Node) : Resource :=
  mkResource "apiextensions.k8s.io/v1" "CustomResourceDefinition" ""
    "widgets.example.com" body "".

Definition installed_widgets : Resource := crd_resource installed_body.
Definition proposed_widgets : Resource := crd_resource proposed_body.

(** Stand-ins for the host's [repr] and [re.match]: enough for scalars
    and for literal patterns. *)
Definition repr (v : Node) : string :=
  match v with
  | Null => "None"
  | Bool true => "True"
  | Bool false => "False"
  | Str s => fstr ["'"; s; "'"]
  | _ => "..."
  end.

Definition literal_match (pattern s : string) : option bool :=
  Some (is_prefix pattern s).

(** [metadata.labels] or [metadata.annotations] of a resource. *)
Definition metadata_map (r : Resource) (field : string) : list (string * Node) :=
  match res_body r with
  | Map m =>
      match lookup "metadata" m with
      | Some (Map md) =>
          match lookup field md with Some (Map l) => l | _ => [] end
      | _ => []
      end
  | _ => []
  end.

Definition str_entry (k : string) (m : list (string * Node)) : option string :=
  match lookup k m with Some (Str s) => Some s | _ => None end.

(** Modelled from the spec: [detect_ownership] of
    [helm_preview/analysis/ownership.py] (section 4.4.2): the Helm label
    or annotation first, then ArgoCD, then Flux, else [unknown]. *)
Definition detect_ownership (r : Resource) : OwnershipInfo :=
  let labels := metadata_map r "labels" in
  let annotations := metadata_map r "annotations" in
  if match str_entry "app.kubernetes.io/managed-by" labels with
     | Some v => String.eqb v "Helm"
     | None => false
     end
     || has_key "meta.helm.sh/release-name" annotations then
    mkOwnershipInfo "helm"
      (str_entry "meta.helm.sh/release-name" annotations)
      (str_entry "app.kubernetes.io/name" labels)
  else if has_key "app.kubernetes.io/instance" labels
          && existsb (fun kv => is_prefix "argocd.argoproj.io/" (fst kv))
               annotations then
    mkOwnershipInfo "argocd" None None
  else if has_key "kustomize.toolkit.fluxcd.io/name" labels
          || has_key "helm.toolkit.fluxcd.io/name" labels then
    mkOwnershipInfo "flux" None None
  else mkOwnershipInfo "unknown" None None.

(** Canned parsers: the texts the canned subprocesses print. *)
Definition parse_multi_doc (text default_namespace : string)
  : result (list Resource) :=
  if String.eqb text "upgrade manifest" then Ok [proposed_widgets]
  else if String.eqb text "widgets crd" then Ok [proposed_widgets]
  else if String.eqb text "{not: yaml" then Raise YAMLError
  else Ok [].

Definition yaml_safe_load (text : string) : result Node :=
  if String.eqb text "crd list" then
    Ok (Map [("kind", Str "CustomResourceDefinitionList");
             ("items", Seq [installed_body])])
  else if String.eqb text "widget list" then
    Ok (Map [("kind", Str "WidgetList"); ("items", Seq [my_widget])])
  else Raise YAMLError.

Definition yaml_dump (v : Node) : string := "".

(** A small noise filter (top-level keys only), no normalization, and a
    differ that knows the one change of the scenario. *)
Definition strip_noise (body : Node) (paths : list string) : Node :=
  match body with
  | Map m => Map (filter (fun kv => negb (existsb (String.eqb (fst kv)) paths)) m)
  | _ => body
  end.

Definition normalize_body (body : Node) : Node := body.

Definition is_semantically_equal (old_body new_body : Node) : bool :=
  py_eq old_body new_body.

Definition extract_changes (old_body new_body : Node) : list FieldChange :=
  if py_eq old_body new_body then []
  else [mkFieldChange "spec.versions[0]" (version_entry "v1" false) Null
          "item_removed"].

Definition _kube_flags (opts : KubeOpts) : list string := [].

Definition run (cmd : list string) : ext string :=
  if list_eq_dec string_dec cmd ["kubectl"; "get"; "crds"; "-o"; "yaml"]
  then Done "crd list"
  else if list_eq_dec string_dec cmd
            ["kubectl"; "get"; "widgets.example.com"; "-A"; "-o"; "yaml"]
  then Done "widget list"
  else RunError "the server doesn't have a resource type".

(** The chart folder: one good file, one that cannot be read, one that is
    no YAML. *)
Definition crds_dir (chart_path : string)
  : option (list (string * result string)) :=
  if String.eqb chart_path "charts/widgets" then
    Some [("widgets.yaml", Ok "widgets crd");
          ("broken.yaml", Raise OSError);
          ("notes.yml", Ok "{not: yaml")]
  else None.

Definition get_manifest (release ns : string) (opts : KubeOpts) : ext string :=
  Done "live manifest".

Definition dry_run_upgrade (release chart ns : string)
    (values set_values : list string) (version : option string)
    (opts : KubeOpts) : ext string :=
  Done "upgrade manifest".

Definition server_side_dry_run (text ns : string) (opts : KubeOpts)
  : ext string :=
  RunError "forbidden".

Definition pair_resources (old_resources new_resources : list Resource)
  : list ResourcePair := [].

Definition diff_all (pairs : list ResourcePair) (show_all : bool)
    (extra_ignores : option (list string)) : list ChangeRecord := [].

Definition assess_risk (records : list ChangeRecord)
  : list (ChangeRecord * list RiskAnnotation) := [].

(** A [json.dumps] that writes braces, and a console that writes a
    string as it is and ends the line, and leaves rules, panels and
    tables out. *)
Definition json_dumps (v : Node) : string := "{}".

Definition console (no_color : bool) (r : Renderable) : result string :=
  match r with
  | Blank => Ok (String newline "")
  | Markup s => Ok (s ++ String newline "")%string
  | _ => Ok ""
  end.

(** A chart folder with a file that is not UTF-8: reading it raises
    [UnicodeDecodeError], a [ValueError]. *)
Definition undecodable_dir (chart_path : string)
  : option (list (string * result string)) :=
  Some [("bad.yaml", Raise ValueError)].

Definition no_opts : KubeOpts := mkKubeOpts None None.

(** The change of scenario 3 as the differ reports it. *)
Definition version_removed : FieldChange :=
  mkFieldChange "spec.versions[0]" (version_entry "v1" false) Null
    "item_removed".

Definition required_color_missing : string :=
  "my-widget: At 'spec': missing required field 'color'".

(** [helm-preview diff web charts/widgets --server-side --check-crds
    --crd-policy POLICY] *)
Definition args (policy : string) : DiffArgs :=
  mkDiffArgs "web" "charts/widgets" None [] [] None true false "terminal" 3
    [] None None false false true policy.

(** A cluster that cannot be reached: every [kubectl] call fails. *)
Definition unreachable (cmd : list string) : ext string :=
  RunError "connection refused".

(** A closed object schema with the one property [color], and an object
    that spells it another way. *)
Definition color_props : list (string * Node) :=
  [("color", Map [("type", Str "string")])].

Definition closed_schema : list (string * Node) :=
  [("type", Str "object");
   ("properties", Map color_props);
   ("additionalProperties", Bool false)].

Definition misspelt_widget : list (string * Node) :=
  [("kind", Str "Widget"); ("colour", Str "red")].

(** The change of scenario 3 with other values. *)
Definition version_removed_blank : FieldChange :=
  mkFieldChange "spec.versions[0]" Null Null "item_removed".

(** An installed CRD whose [status] is null. *)
Definition null_status_widgets : Resource :=
  crd_resource (Map [("status", Null)]).

(** A schema node that names a required field and has no [type], and an
    object without that field. *)
Definition untyped_schema : list (string * Node) :=
  [("required", Seq [Str "color"])].

Definition plain_widget : list (string * Node) :=
  [("metadata", Map [("name", Str "my-widget");
                     ("namespace", Str "default")]);
   ("size", Int 3)].

End Fixture.

Section Embedding.

Set Default Proof Using "Type".

(** ** What the embedding takes from outside

    The built-ins of the host language that are not spelled out above. *)

(** [repr(v)] *)
Variable py_repr : Node -> string.

(** [re.match(pattern, s) is not None] for a pattern that comes from the
    data (a schema's [pattern]); [None] stands for [re.error]. *)
Variable py_re_match : string -> string -> option bool.

(** [str(v)], what an f-string puts for [{v}]. *)
Definition py_str (v : Node) : string :=
  match v with
  | Str s => s
  | _ => py_repr v
  end.

(* ================================================================== *)
(** * [crd/classifier.py] *)
(* ================================================================== *)

Definition _annotation (lv : RiskLevel) (rule message path : string)
  : RiskAnnotation :=
  mkRiskAnnotation lv rule message path.

(** The path patterns, in the order of their first use. *)

(** [^metadata\.(annotations|labels)\.] *)
Definition pat_metadata : pattern :=
  mkPattern true
    (seq [lit "metadata."; Alt (lit "annotations") (lit "labels"); lit "."])
    false.

(** [spec\.versions\[\d+\]\.additionalPrinterColumns] *)
Definition pat_printer_columns : pattern :=
  mkPattern false
    (seq [lit "spec.versions["; plus digit; lit "].additionalPrinterColumns"])
    false.

(** [^spec\.versions\[\d+\]$] *)
Definition pat_version_entry : pattern :=
  mkPattern true (seq [lit "spec.versions["; plus digit; lit "]"]) true.

(** [spec\.versions\[\d+\]\.schema\.openAPIV3Schema\.properties\.\w+\.properties\.\w+] *)
Definition pat_nested_property : pattern :=
  mkPattern false
    (seq [lit "spec.versions["; plus digit;
          lit "].schema.openAPIV3Schema.properties."; plus word;
          lit ".properties."; plus word])
    false.

(** [\.required] *)
Definition pat_dot_required : pattern :=
  mkPattern false (lit ".required") false.

(** [spec\.versions\[\d+\]\.schema\..*\.required] *)
Definition pat_schema_required : pattern :=
  mkPattern false
    (seq [lit "spec.versions["; plus digit; lit "].schema."; Star dot;
          lit ".required"])
    false.

(** [spec\.versions\[\d+\]\.schema\..*\.properties\.\w+] followed by
    [tail]; with [$] when [dollar]. *)
Definition pat_schema_property (tail : regex) (dollar : bool) : pattern :=
  mkPattern false
    (seq [lit "spec.versions["; plus digit; lit "].schema."; Star dot;
          lit ".properties."; plus word; tail])
    dollar.

(** [...\.properties\.\w+$] *)
Definition pat_property : pattern := pat_schema_property Eps true.
(** [...\.properties\.\w+\.type$] *)
Definition pat_type : pattern := pat_schema_property (lit ".type") true.
(** [...\.properties\.\w+\.default$] *)
Definition pat_default : pattern := pat_schema_property (lit ".default") true.
(** [...\.properties\.\w+\.pattern$] *)
Definition pat_pattern : pattern := pat_schema_property (lit ".pattern") true.
(** [...\.properties\.\w+\.(minimum|maximum)$] *)
Definition pat_range : pattern :=
  pat_schema_property (Cat (lit ".") (Alt (lit "minimum") (lit "maximum"))) true.
(** [...\.properties\.\w+\.enum] *)
Definition pat_enum : pattern := pat_schema_property (lit ".enum") false.

(** [^spec\.conversion\.webhook\.] *)
Definition pat_webhook : pattern :=
  mkPattern true (lit "spec.conversion.webhook.") false.

Definition _classify_single (fc : FieldChange) : RiskAnnotation :=
  let path := path fc in
  let change_type := change_type fc in
  (* SAFE patterns *)
  if re_match pat_metadata path then
    _annotation SAFE "crd_metadata_change"
      (fstr ["Metadata change at '"; path; "'"]) path
  else if re_search pat_printer_columns path then
    _annotation SAFE "crd_printer_columns"
      (fstr ["Printer column change at '"; path; "'"]) path
  else if re_match pat_version_entry path
          && String.eqb change_type "item_added" then
    _annotation SAFE "crd_version_added" "New CRD version added" path
  else if re_search pat_nested_property path
          && String.eqb change_type "item_added"
          && negb (re_search pat_dot_required path) then
    _annotation SAFE "crd_optional_property_added"
      (fstr ["New optional property added at '"; path; "'"]) path
  (* DANGER patterns *)
  else if re_match pat_version_entry path
          && String.eqb change_type "item_removed" then
    _annotation DANGER "crd_version_removed" "CRD version removed" path
  else if re_search pat_schema_required path
          && String.eqb change_type "item_added" then
    _annotation DANGER "crd_required_field_added"
      (fstr ["New required field added at '"; path; "'"]) path
  else if re_search pat_property path
          && String.eqb change_type "item_removed" then
    _annotation DANGER "crd_property_removed"
      (fstr ["Schema property removed at '"; path; "'"]) path
  else if re_search pat_type path
          && String.eqb change_type "value_changed" then
    _annotation DANGER "crd_type_changed"
      (fstr ["Property type changed at '"; path; "'"]) path
  else if String.eqb path "spec.scope"
          && String.eqb change_type "value_changed" then
    _annotation DANGER "crd_scope_changed"
      (fstr ["CRD scope changed from '"; py_str (old_value fc); "' to '";
             py_str (new_value fc); "'"]) path
  else if String.eqb path "spec.conversion.strategy"
          && String.eqb change_type "value_changed" then
    _annotation DANGER "crd_conversion_strategy_changed"
      (fstr ["Conversion strategy changed from '"; py_str (old_value fc);
             "' to '"; py_str (new_value fc); "'"]) path
  (* WARNING patterns *)
  else if re_search pat_default path
          && String.eqb change_type "value_changed" then
    _annotation WARNING "crd_default_changed"
      (fstr ["Default value changed at '"; path; "'"]) path
  else if re_search pat_pattern path
          && String.eqb change_type "value_changed" then
    _annotation WARNING "crd_pattern_changed"
      (fstr ["Validation pattern changed at '"; path; "'"]) path
  else if re_search pat_range path
          && String.eqb change_type "value_changed" then
    _annotation WARNING "crd_range_changed"
      (fstr ["Validation range changed at '"; path; "'"]) path
  else if re_search pat_enum path then
    _annotation WARNING "crd_enum_changed"
      (fstr ["Enum values changed at '"; path; "'"]) path
  else if re_search pat_webhook path then
    _annotation WARNING "crd_webhook_changed"
      (fstr ["Conversion webhook configuration changed at '"; path; "'"]) path
  else
    let catch_all :=
      _annotation WARNING "crd_unknown_change"
        (fstr ["Unknown CRD change at '"; path; "'"]) path in
    if re_search pat_schema_required path then
      if String.eqb change_type "item_removed" then
        _annotation SAFE "crd_required_field_removed"
          (fstr ["Required field constraint removed at '"; path; "'"]) path
      else if String.eqb change_type "value_changed" then
        _annotation DANGER "crd_required_changed"
          (fstr ["Required fields changed at '"; path; "'"]) path
      else catch_all
    else catch_all.

(** The loop of [classify_crd_changes]: [annotations] grows by one
    [append] per change. *)
Fixpoint classify_loop (changes : list FieldChange)
    (annotations : list RiskAnnotation) : list RiskAnnotation :=
  match changes with
  | [] => annotations
  | fc :: rest =>
      let annotation := _classify_single fc in
      classify_loop rest (annotations ++ [annotation])
  end.

Definition classify_crd_changes (changes : list FieldChange)
  : list RiskAnnotation :=
  classify_loop changes [].

(* ================================================================== *)
(** * [crd/stored_versions.py] *)
(* ================================================================== *)

Definition stored_version_warning (sv : Node) : string :=
  fstr ["Stored version '"; py_str sv; "' is still in status.storedVersions ";
        "but is being removed from spec.versions. ";
        "Existing objects stored as '"; py_str sv; "' may become inaccessible. ";
        "Migrate objects before removing the version."].

(** [old_crd.body.get("status", {}).get("storedVersions", [])] *)
Definition stored_versions_of (old_crd : Resource) : result Node :=
  old_status <- py_get (res_body old_crd) "status" (Map []) ;;
  py_get old_status "storedVersions" (Seq []).

(** [{v.get("name", "") for v in new_spec.get("versions", [])}], by its
    elements. *)
Definition version_names_of (new_crd : Resource) : result (list Node) :=
  new_spec <- py_get (res_body new_crd) "spec" (Map []) ;;
  versions <- py_get new_spec "versions" (Seq []) ;;
  vs <- py_iter versions ;;
  for_each vs [] (fun names v =>
    n <- py_get v "name" (Str "") ;;
    if hashable n then Ok (names ++ [n]) else Raise TypeError).

Definition check_stored_version_safety (old_crd new_crd : Resource)
  : result (list string) :=
  stored_versions <- stored_versions_of old_crd ;;
  if negb (py_truthy stored_versions) then Ok []
  else
    new_version_names <- version_names_of new_crd ;;
    svs <- py_iter stored_versions ;;
    for_each svs [] (fun warnings sv =>
      present <- set_contains sv new_version_names ;;
      if negb present then Ok (warnings ++ [stored_version_warning sv])
      else Ok warnings).

(* ================================================================== *)
(** * [crd/schema_validator.py] *)
(* ================================================================== *)

(** [isinstance(value, expected)] for the entries of [type_map]. *)
Definition isinstance_of (value : Node) (schema_type : string) : option bool :=
  if String.eqb schema_type "string" then
    Some (match value with Str _ => true | _ => false end)
  else if String.eqb schema_type "integer" then
    Some (match value with Int _ | Bool _ => true | _ => false end)
  else if String.eqb schema_type "number" then
    Some (match value with Int _ | Bool _ | Float _ => true | _ => false end)
  else if String.eqb schema_type "boolean" then
    Some (match value with Bool _ => true | _ => false end)
  else if String.eqb schema_type "object" then
    Some (match value with Map _ => true | _ => false end)
  else if String.eqb schema_type "array" then
    Some (match value with Seq _ => true | _ => false end)
  else None.

Definition _check_type (value schema_type : Node) : result bool :=
  match value with
  | Null => Ok true
  | _ =>
      match schema_type with
      | Seq _ | Map _ => Raise TypeError      (* [type_map.get] hashes its key *)
      | Str t =>
          match isinstance_of value t with
          | None => Ok true
          | Some is_instance =>
              if String.eqb t "integer"
                 && match value with Bool _ => true | _ => false end
              then Ok false
              else Ok is_instance
          end
      | _ => Ok true
      end
  end.

(** [x in container] *)
Definition py_in (x container : Node) : result bool :=
  match container with
  | Seq xs => Ok (list_contains x xs)
  | Map m => dict_contains x m
  | Str s =>
      match x with
      | Str sub => Ok (is_substring sub s)
      | _ => Raise TypeError
      end
  | _ => Raise TypeError
  end.

Definition is_number (v : Node) : bool :=
  match v with Int _ | Bool _ | Float _ => true | _ => false end.

Definition child_path (path key : string) : string :=
  if negb (String.eqb path "") then fstr [path; "."; key] else key.

Definition envelope_keys : list string :=
  ["apiVersion"; "kind"; "metadata"; "status"].

(** [schema.get("type")], [schema.get("properties", {})] and the like. *)
Definition schema_type_of (sch : list (string * Node)) : Node :=
  match lookup "type" sch with Some t => t | None => Null end.

Definition properties_of (sch : list (string * Node)) : Node :=
  match lookup "properties" sch with Some p => p | None => Map [] end.

Definition required_of (sch : list (string * Node)) : Node :=
  match lookup "required" sch with Some r => r | None => Seq [] end.

Definition additional_of (sch : list (string * Node)) : Node :=
  match lookup "additionalProperties" sch with Some a => a | None => Null end.

Definition items_of (sch : list (string * Node)) : Node :=
  match lookup "items" sch with Some i => i | None => Map [] end.

(** The body of [_validate_object] comes in blocks, each of which takes
    the list [errors] as it stands and hands it on; [self] stands for the
    recursive calls. *)

(** [if "enum" in schema and value not in schema["enum"]: ...] *)
Definition enum_block (value : Node) (sch : list (string * Node))
    (path : string) (errors : list string) : result (list string) :=
  match lookup "enum" sch with
  | Some enum =>
      found <- py_in value enum ;;
      if negb found then
        Ok (errors ++ [fstr ["At '"; path; "': value "; py_repr value;
                             " not in enum "; py_str enum]])
      else Ok errors
  | None => Ok errors
  end.

(** [if "pattern" in schema and isinstance(value, str): try ... except
    re.error: pass] *)
Definition pattern_block (value : Node) (sch : list (string * Node))
    (path : string) (errors : list string) : result (list string) :=
  match lookup "pattern" sch, value with
  | Some pat, Str s =>
      match pat with
      | Str p =>
          match py_re_match p s with
          | Some false =>
              Ok (errors ++ [fstr ["At '"; path; "': value '"; s;
                                   "' does not match pattern '";
                                   py_str pat; "'"]])
          | Some true => Ok errors
          | None => Ok errors
          end
      | _ => Raise TypeError
      end
  | _, _ => Ok errors
  end.

(** [if "minimum" in schema and isinstance(value, (int, float)): ...] *)
Definition minimum_block (value : Node) (sch : list (string * Node))
    (path : string) (errors : list string) : result (list string) :=
  match lookup "minimum" sch with
  | Some minimum =>
      if is_number value then
        below <- py_lt value minimum ;;
        if below then
          Ok (errors ++ [fstr ["At '"; path; "': value "; py_str value;
                               " < minimum "; py_str minimum]])
        else Ok errors
      else Ok errors
  | None => Ok errors
  end.

(** [if "maximum" in schema and isinstance(value, (int, float)): ...] *)
Definition maximum_block (value : Node) (sch : list (string * Node))
    (path : string) (errors : list string) : result (list string) :=
  match lookup "maximum" sch with
  | Some maximum =>
      if is_number value then
        above <- py_gt value maximum ;;
        if above then
          Ok (errors ++ [fstr ["At '"; path; "': value "; py_str value;
                               " > maximum "; py_str maximum]])
        else Ok errors
      else Ok errors
  | None => Ok errors
  end.

(** [for req in required: if req not in value: ...] *)
Definition required_loop (val : list (string * Node)) (path : string)
    (reqs : list Node) (errors : list string) : result (list string) :=
  for_each reqs errors (fun errors req =>
    present <- dict_contains req val ;;
    if negb present then
      Ok (errors ++ [fstr ["At '"; path; "': missing required field '";
                           py_str req; "'"]])
    else Ok errors).

(** [for prop_name, prop_schema in properties.items(): ...] *)
Definition properties_loop
    (self : Node -> Node -> string -> result (list string))
    (val : list (string * Node)) (path : string)
    (props : list (string * Node)) (errors : list string)
  : result (list string) :=
  for_each props errors (fun errors prop =>
    match lookup (fst prop) val with
    | Some sub =>
        sub_errors <- self sub (snd prop) (child_path path (fst prop)) ;;
        Ok (errors ++ sub_errors)
    | None => Ok errors
    end).

(** [if additional is False: ... elif isinstance(additional, dict): ...] *)
Definition additional_block
    (self : Node -> Node -> string -> result (list string))
    (val : list (string * Node)) (path : string)
    (props : list (string * Node)) (additional : Node) (errors : list string)
  : result (list string) :=
  match additional with
  | Bool false =>
      for_each val errors (fun errors kv =>
        if negb (has_key (fst kv) props)
           && negb (existsb (String.eqb (fst kv)) envelope_keys)
        then Ok (errors ++ [fstr ["At '"; path; "': unknown field '";
                                  fst kv; "'"]])
        else Ok errors)
  | Map _ =>
      for_each val errors (fun errors kv =>
        if negb (has_key (fst kv) props) then
          sub_errors <- self (snd kv) additional (child_path path (fst kv)) ;;
          Ok (errors ++ sub_errors)
        else Ok errors)
  | _ => Ok errors
  end.

(** [if schema_type == "object" and isinstance(value, dict): ...] *)
Definition object_block
    (self : Node -> Node -> string -> result (list string))
    (value : Node) (sch : list (string * Node)) (path : string)
    (errors : list string) : result (list string) :=
  match value with
  | Map val =>
      if py_eq (schema_type_of sch) (Str "object") then
        let properties := properties_of sch in
        let required := required_of sch in
        reqs <- py_iter required ;;
        errors <- required_loop val path reqs errors ;;
        match properties with
        | Map props =>
            errors <- properties_loop self val path props errors ;;
            additional_block self val path props (additional_of sch) errors
        | _ => Raise AttributeError       (* [properties.items()] *)
        end
      else Ok errors
  | _ => Ok errors
  end.

(** [for i, item in enumerate(value): ...] *)
Definition items_loop
    (self : Node -> Node -> string -> result (list string))
    (items_schema : Node) (path : string) (items : list Node)
    (errors : list string) : result (nat * list string) :=
  for_each items (0%nat, errors) (fun st item =>
    sub_errors <- self item items_schema
                    (fstr [path; "["; str_of_nat (fst st); "]"]) ;;
    Ok (S (fst st), snd st ++ sub_errors)).

(** [if schema_type == "array" and isinstance(value, list): ...] *)
Definition array_block
    (self : Node -> Node -> string -> result (list string))
    (value : Node) (sch : list (string * Node)) (path : string)
    (errors : list string) : result (list string) :=
  match value with
  | Seq items =>
      if py_eq (schema_type_of sch) (Str "array") then
        indexed <- items_loop self (items_of sch) path items errors ;;
        Ok (snd indexed)
      else Ok errors
  | _ => Ok errors
  end.

Definition type_mismatch (value schema_type : Node) (path : string) : string :=
  fstr ["At '"; path; "': expected type '"; py_str schema_type; "', got '";
        type_name value; "'"].

Definition validate_body
    (self : Node -> Node -> string -> result (list string))
    (value schema : Node) (path : string) : result (list string) :=
  let errors : list string := [] in
  match schema with
  | Map sch =>
      let schema_type := schema_type_of sch in
      type_ok <- (if py_truthy schema_type
                  then _check_type value schema_type else Ok true) ;;
      if negb type_ok then
        Ok (errors ++ [type_mismatch value schema_type path])
      else
        errors <- enum_block value sch path errors ;;
        errors <- pattern_block value sch path errors ;;
        errors <- minimum_block value sch path errors ;;
        errors <- maximum_block value sch path errors ;;
        errors <- object_block self value sch path errors ;;
        array_block self value sch path errors
  | _ => Ok errors
  end.

(** The recursion, [limit] frames deep. *)
Fixpoint validate_within (limit : nat) (value schema : Node) (path : string)
  : result (list string) :=
  match limit with
  | O => Raise RecursionError
  | S limit' => validate_body (validate_within limit') value schema path
  end.

(** A call on a sub-schema is a call on a shallower tree, so
    [depth schema] frames and one are all a walk takes: more frames give
    the same result (see [validate_within_enough]). *)
Definition _validate_object (value schema : Node) (path : string)
  : result (list string) :=
  validate_within (S (depth schema)) value schema path.

(** [cr.get("metadata", {}).get(key, default)] *)
Definition metadata_field (cr : Node) (key : string) (default : Node)
  : result Node :=
  metadata <- py_get cr "metadata" (Map []) ;;
  py_get metadata key default.

Definition cr_prefix (name namespace : Node) : string :=
  if py_truthy namespace then fstr [py_str namespace; "/"; py_str name]
  else py_str name.

Definition validate_crs_against_schema (crs schema : Node)
  : result (list string) :=
  cr_list <- py_iter crs ;;
  for_each cr_list [] (fun errors cr =>
    name <- metadata_field cr "name" (Str "<unknown>") ;;
    namespace <- metadata_field cr "namespace" (Str "") ;;
    let prefix := cr_prefix name namespace in
    cr_errors <- _validate_object cr schema "" ;;
    Ok (errors ++ map (fun err => fstr [prefix; ": "; err]) cr_errors)).

(** Returns [Null] for Python's [None]. *)
Definition find_schema_for_version (crd_body version : Node) : result Node :=
  spec <- py_get crd_body "spec" (Map []) ;;
  versions <- py_get spec "versions" (Seq []) ;;
  vs <- py_iter versions ;;
  (fix scan (vs : list Node) : result Node :=
     match vs with
     | [] => Ok Null
     | v :: rest =>
         n <- py_get v "name" Null ;;
         if py_eq n version then
           sch <- py_get v "schema" (Map []) ;;
           py_get sch "openAPIV3Schema" Null
         else scan rest
     end) vs.

(* ================================================================== *)
(** * The rest of the repository and the world outside *)
(* ================================================================== *)

(** The parser, [parse_multi_doc(text, default_namespace)]; it raises on
    text that is no YAML and on a document without a name. *)
Variable parse_multi_doc : string -> string -> result (list Resource).

(** [yaml.safe_load] and [yaml.dump]. *)
Variable yaml_safe_load : string -> result Node.
Variable yaml_dump : Node -> string.

(** [analysis/ownership.py] *)
Variable detect_ownership : Resource -> OwnershipInfo.

(** [diff/filters.py], [diff/semantic.py], and [DeepDiff] followed by
    [_extract_changes] of [diff/engine.py]. *)
Variable strip_noise : Node -> list string -> Node.
Variable normalize_body : Node -> Node.
Variable is_semantically_equal : Node -> Node -> bool.
Variable extract_changes : Node -> Node -> list FieldChange.

(** [core/kubectl.py] and [core/runner.py]: the flags for a kubectl
    call, and the call itself. *)
Variable _kube_flags : KubeOpts -> list string.
Variable run : list string -> ext string.

(** The [crds/] folder of a chart path: [None] when it is no directory,
    else its entries, each with what [read_text] gives for it. *)
Variable crds_dir : string -> option (list (string * result string)).

(* ================================================================== *)
(** * [crd/extraction.py] *)
(* ================================================================== *)

Definition is_crd (r : Resource) : bool :=
  String.eqb (kind r) "CustomResourceDefinition".

Definition extract_crds_from_resources (resources : list Resource)
  : list Resource :=
  filter is_crd resources.

(** [sorted(...)] on paths of one folder: by file name. *)
Fixpoint insert_sorted {A} (e : string * A) (l : list (string * A))
  : list (string * A) :=
  match l with
  | [] => [e]
  | x :: rest =>
      if String.leb (fst e) (fst x) then e :: l
      else x :: insert_sorted e rest
  end.

Definition sorted {A} (l : list (string * A)) : list (string * A) :=
  fold_right insert_sorted [] l.

(** [crds_dir.glob("*" + suffix)] *)
Definition glob {A} (suffix : string) (entries : list (string * A))
  : list (string * A) :=
  filter (fun e => is_suffix suffix (fst e)) entries.

(** One turn of either loop: the [try] block, and [continue] on
    [OSError] and [yaml.YAMLError]; any other exception leaves the
    function. *)
Definition read_crd_file (resources : list Resource)
    (yaml_file : string * result string) : result (list Resource) :=
  let attempt :=
    text <- snd yaml_file ;;
    parsed <- parse_multi_doc text "" ;;
    Ok (resources ++ filter is_crd parsed) in
  match attempt with
  | Raise OSError | Raise YAMLError => Ok resources
  | other => other
  end.

Definition extract_crds_from_chart_dir (chart_path : string)
  : result (list Resource) :=
  match crds_dir chart_path with
  | None => Ok []
  | Some entries =>
      resources <- for_each (sorted (glob ".yaml" entries)) [] read_crd_file ;;
      for_each (sorted (glob ".yml" entries)) resources read_crd_file
  end.

(* ================================================================== *)
(** * [crd/ownership.py] *)
(* ================================================================== *)

Definition str_truthy (s : option string) : bool :=
  match s with
  | Some s => negb (String.eqb s "")
  | None => false
  end.

Definition option_str_eqb (a b : option string) : bool :=
  match a, b with
  | Some x, Some y => String.eqb x y
  | None, None => true
  | _, _ => false
  end.

(** [' (app: ' + ownership.app + ')' if ownership.app else ''] *)
Definition app_note (ownership : OwnershipInfo) : string :=
  if str_truthy (app ownership) then
    fstr [" (app: ";
          match app ownership with Some a => a | None => "" end; ")"]
  else "".

Definition check_crd_ownership (crd : Resource) (expected_release : option string)
  : option string :=
  let ownership := detect_ownership crd in
  if String.eqb (manager ownership) "unknown" then None
  else if negb (String.eqb (manager ownership) "helm") then
    Some (fstr ["CRD '"; name crd; "' is managed by "; manager ownership;
                app_note ownership; ", "; "not Helm"])
  else if str_truthy expected_release && str_truthy (release ownership)
          && negb (option_str_eqb (release ownership) expected_release) then
    Some (fstr ["CRD '"; name crd; "' is owned by Helm release '";
                match release ownership with Some r => r | None => "" end;
                "', "; "not the current release '";
                match expected_release with Some e => e | None => "" end; "'"])
  else None.

(* ================================================================== *)
(** * [crd/detect_new.py] *)
(* ================================================================== *)

Definition name_in (n : string) (names : list string) : bool :=
  existsb (String.eqb n) names.

Definition detect_new_crds (installed proposed : list Resource)
  : result (list NewCrdInfo) :=
  let installed_names := map name installed in
  for_each proposed [] (fun new_crds r =>
    if negb (name_in (name r) installed_names) then
      spec <- py_get (res_body r) "spec" (Map []) ;;
      group <- py_get spec "group" (Str "") ;;
      names <- py_get spec "names" (Map []) ;;
      kind <- py_get names "kind" (Str "") ;;
      versions <- py_get spec "versions" (Seq []) ;;
      vs <- py_iter versions ;;
      version_names <- for_each vs [] (fun acc v =>
        n <- py_get v "name" (Str "") ;; Ok (acc ++ [n])) ;;
      Ok (new_crds ++ [mkNewCrdInfo (name r) group kind version_names])
    else Ok new_crds).

(* ================================================================== *)
(** * [crd/differ.py] *)
(* ================================================================== *)

Definition CRD_NOISE_PATHS : list string :=
  ["status";
   "metadata.creationTimestamp";
   "metadata.resourceVersion";
   "metadata.uid";
   "metadata.generation";
   "metadata.managedFields";
   "metadata.annotations.meta\.helm\.sh/*";
   "metadata.annotations.kubectl\.kubernetes\.io/last-applied-configuration";
   "metadata.labels.helm\.sh/chart"].

(** [d[k] = v] on a dict given by its entries: a known key keeps its
    place and takes the new value, a new key goes last. *)
Fixpoint dict_set {V} (k : string) (v : V) (d : list (string * V))
  : list (string * V) :=
  match d with
  | [] => [(k, v)]
  | (k', v') :: rest =>
      if String.eqb k k' then (k, v) :: rest else (k', v') :: dict_set k v rest
  end.

Fixpoint dict_get {V} (k : string) (d : list (string * V)) : option V :=
  match d with
  | [] => None
  | (k', v) :: rest => if String.eqb k k' then Some v else dict_get k rest
  end.

(** [{r.name: r for r in resources}] *)
Definition by_name (resources : list Resource) : list (string * Resource) :=
  fold_left (fun d r => dict_set (name r) r d) resources [].

(** [list(dict.fromkeys(keys))] *)
Definition unique_keys (keys : list string) : list string :=
  map fst (fold_left (fun d k => dict_set k tt d) keys []).

(** The body of the loop of [pair_crds] for one name. *)
Definition pair_of_name (old_map new_map : list (string * Resource))
    (name : string) : ResourcePair :=
  let old_res := dict_get name old_map in
  let new_res := dict_get name new_map in
  match old_res, new_res with
  | None, _ => mkResourcePair None new_res "added"
  | Some _, None => mkResourcePair old_res None "removed"
  | Some o, Some n =>
      if py_eq (res_body o) (res_body n)
      then mkResourcePair old_res new_res "unchanged"
      else mkResourcePair old_res new_res "changed"
  end.

Definition pair_crds (installed proposed : list Resource) : list ResourcePair :=
  let old_map := by_name installed in
  let new_map := by_name proposed in
  let all_names := unique_keys (map fst old_map ++ map fst new_map) in
  map (pair_of_name old_map new_map) all_names.

Definition diff_crds (pairs : list ResourcePair)
  : result (list (ResourcePair * list FieldChange)) :=
  for_each pairs [] (fun results pair =>
    if String.eqb (pair_status pair) "added"
       || String.eqb (pair_status pair) "removed" then
      Ok (results ++ [(pair, [])])
    else if String.eqb (pair_status pair) "unchanged" then
      Ok results
    else
      match old pair, new pair with
      | Some o, Some n =>
          let old_body := strip_noise (res_body o) CRD_NOISE_PATHS in
          let new_body := strip_noise (res_body n) CRD_NOISE_PATHS in
          let old_body := normalize_body old_body in
          let new_body := normalize_body new_body in
          if is_semantically_equal old_body new_body then Ok results
          else
            let changes := extract_changes old_body new_body in
            match changes with
            | _ :: _ => Ok (results ++ [(pair, changes)])
            | [] => Ok results
            end
      | _, _ => Raise AssertionError
      end).

(* ================================================================== *)
(** * [crd/discovery.py] *)
(* ================================================================== *)

(** The fields of [Resource] are declared [str].  An item whose
    [apiVersion], [namespace] or [name] is no string has no place in the
    record; the model stops there with a [TypeError]. *)
Definition as_str (v : Node) : result string :=
  match v with
  | Str s => Ok s
  | _ => Raise TypeError
  end.

Definition is_dict (v : Node) : bool :=
  match v with Map _ => true | _ => false end.

Definition discover_cluster_crds (kube_opts : KubeOpts) : result (list Resource) :=
  let cmd := ["kubectl"; "get"; "crds"; "-o"; "yaml"] ++ _kube_flags kube_opts in
  match run cmd with
  | RunError _ => Ok []
  | Done output =>
      match yaml_safe_load output with
      | Raise YAMLError => Ok []
      | Raise e => Raise e
      | Ok data =>
          if negb (is_dict data) then Ok []
          else
            data_kind <- py_get data "kind" Null ;;
            if py_eq data_kind (Str "CustomResourceDefinitionList") then
              items <- py_get data "items" (Seq []) ;;
              item_list <- py_iter items ;;
              for_each item_list [] (fun resources item =>
                if negb (is_dict item) then Ok resources
                else
                  metadata <- py_get item "metadata" (Map []) ;;
                  api_version <- (v <- py_get item "apiVersion"
                                         (Str "apiextensions.k8s.io/v1") ;;
                                  as_str v) ;;
                  namespace <- (v <- py_get metadata "namespace" (Str "") ;;
                                as_str v) ;;
                  name <- (v <- py_get metadata "name" (Str "") ;; as_str v) ;;
                  Ok (resources ++
                      [mkResource api_version "CustomResourceDefinition"
                         namespace name item (yaml_dump item)]))
            else
              parsed <- parse_multi_doc output "" ;;
              Ok (filter is_crd parsed)
      end
  end.

Definition fetch_custom_resources (plural group : Node) (kube_opts : KubeOpts)
  : result Node :=
  let resource_name := fstr [py_str plural; "."; py_str group] in
  let cmd := ["kubectl"; "get"; resource_name; "-A"; "-o"; "yaml"]
             ++ _kube_flags kube_opts in
  match run cmd with
  | RunError _ => Ok (Seq [])
  | Done output =>
      match yaml_safe_load output with
      | Raise YAMLError => Ok (Seq [])
      | Raise e => Raise e
      | Ok data =>
          if negb (is_dict data) then Ok (Seq [])
          else py_get data "items" (Seq [])
      end
  end.

(* ================================================================== *)
(** * [crd/pipeline.py] *)
(* ================================================================== *)

(** [for v in versions: if v.get("storage"): ...; break] *)
Fixpoint find_storage_version (vs : list Node) : result Node :=
  match vs with
  | [] => Ok Null
  | v :: rest =>
      storage <- py_get v "storage" Null ;;
      if py_truthy storage then py_get v "name" Null
      else find_storage_version rest
  end.

(** [_validate_live_crs] assigns [detail.schema_validation_errors] or
    leaves it; here it returns the value the field has afterwards. *)
Definition _validate_live_crs (new_crd : Resource) (kube_opts : KubeOpts)
  : result (list string) :=
  spec <- py_get (res_body new_crd) "spec" (Map []) ;;
  names <- py_get spec "names" (Map []) ;;
  plural <- py_get names "plural" (Str "") ;;
  group <- py_get spec "group" (Str "") ;;
  if negb (py_truthy plural) || negb (py_truthy group) then Ok []
  else
    crs <- fetch_custom_resources plural group kube_opts ;;
    if negb (py_truthy crs) then Ok []
    else
      versions <- py_get spec "versions" (Seq []) ;;
      vs <- py_iter versions ;;
      storage_version <- find_storage_version vs ;;
      if negb (py_truthy storage_version) then Ok []
      else
        schema <- find_schema_for_version (res_body new_crd) storage_version ;;
        if negb (py_truthy schema) then Ok []
        else validate_crs_against_schema crs schema.

Definition could_not_retrieve : string :=
  fstr ["Could not retrieve installed CRDs from cluster ";
        "(permission denied or cluster unreachable). ";
        "Comparing against empty set."].

(** Steps 5 to 9 for one entry of [diff_results]. *)
Definition process_pair (release_name : option string) (kube_opts : KubeOpts)
    (entry : ResourcePair * list FieldChange) : result CrdChangeDetail :=
  let '(p, changes) := entry in
  crd_name <- match new p, old p with
              | Some r, _ => Ok (name r)
              | None, Some r => Ok (name r)
              | None, None => Raise AttributeError
              end ;;
  let annotations := match changes with
                     | [] => []
                     | _ => classify_crd_changes changes
                     end in
  let conflict := match old p with
                  | Some old_crd =>
                      match check_crd_ownership old_crd release_name with
                      | Some c => if negb (String.eqb c "") then Some c else None
                      | None => None
                      end
                  | None => None
                  end in
  validation_errors <-
    match new p with
    | Some new_crd =>
        if String.eqb (pair_status p) "changed"
        then _validate_live_crs new_crd kube_opts
        else Ok []
    | None => Ok []
    end ;;
  sv_warnings <-
    match old p, new p with
    | Some old_crd, Some new_crd =>
        if String.eqb (pair_status p) "changed"
        then check_stored_version_safety old_crd new_crd
        else Ok []
    | _, _ => Ok []
    end ;;
  Ok (mkCrdChangeDetail crd_name (pair_status p) changes annotations
        sv_warnings validation_errors conflict).

Definition set_policy (report : CrdReport) (policy_mode : CrdPolicyMode)
  : CrdReport :=
  mkCrdReport (crds report) (new_crds report)
    (Some (evaluate_policy report policy_mode)) (warnings report).

(** Step 1: the CRDs of the rendered manifest, then those of the chart's
    [crds/] folder whose name the manifest does not have. *)
Definition proposed_crds_of (upgrade_resources : list Resource)
    (chart_path : option string) : result (list Resource) :=
  let proposed_crds := extract_crds_from_resources upgrade_resources in
  if str_truthy chart_path then
    chart_crds <- extract_crds_from_chart_dir
                    (match chart_path with Some c => c | None => "" end) ;;
    let existing_names := map name proposed_crds in
    Ok (proposed_crds
        ++ filter (fun c => negb (name_in (name c) existing_names)) chart_crds)
  else Ok proposed_crds.

(** [installed_relevant] *)
Definition relevant (proposed_crds installed_crds : list Resource)
  : list Resource :=
  let proposed_names := map name proposed_crds in
  filter (fun r => name_in (name r) proposed_names) installed_crds.

Definition run_crd_pipeline (upgrade_resources : list Resource)
    (chart_path : option string) (policy_mode : CrdPolicyMode)
    (release_name : option string) (kube_opts : KubeOpts) : result CrdReport :=
  let report := empty_report in
  (* Step 1 *)
  proposed_crds <- proposed_crds_of upgrade_resources chart_path ;;
  match proposed_crds with
  | [] => Ok (set_policy report policy_mode)
  | _ =>
      (* Step 2 *)
      installed_crds <- discover_cluster_crds kube_opts ;;
      let report :=
        match installed_crds with
        | [] => mkCrdReport (crds report) (new_crds report) (policy_result report)
                  (warnings report ++ [could_not_retrieve])
        | _ => report
        end in
      let installed_relevant := relevant proposed_crds installed_crds in
      (* Steps 3 and 4 *)
      let pairs := pair_crds installed_relevant proposed_crds in
      diff_results <- diff_crds pairs ;;
      (* Steps 5 to 9 *)
      details <- for_each diff_results (crds report) (fun crds entry =>
        detail <- process_pair release_name kube_opts entry ;;
        Ok (crds ++ [detail])) ;;
      (* Step 6 *)
      new_crds <- detect_new_crds installed_relevant proposed_crds ;;
      let report := mkCrdReport details new_crds (policy_result report)
                      (warnings report) in
      (* Step 10 *)
      Ok (set_policy report policy_mode)
  end.

(* ================================================================== *)
(** * [crd/report.py]: [to_dict] *)
(* ================================================================== *)

Definition annotation_dict (a : RiskAnnotation) : Node :=
  Map [("level", Str (level_value (level a)));
       ("rule", Str (rule a));
       ("message", Str (ra_message a));
       ("path", Str (ra_path a))].

(** The dict of one detail: the three optional keys are set when their
    value is truthy. *)
Definition crd_dict (crd : CrdChangeDetail) : Node :=
  Map ([("name", Str (cd_name crd));
        ("status", Str (cd_status crd));
        ("max_risk", Str (level_value (max_risk crd)));
        ("risk_annotations", Seq (map annotation_dict (risk_annotations crd)));
        ("changes",
         Seq (map (fun fc => Map [("path", Str (path fc));
                                  ("old", old_value fc);
                                  ("new", new_value fc);
                                  ("type", Str (change_type fc))])
                (changes crd)))]
       ++ match stored_version_warnings crd with
          | [] => []
          | ws => [("stored_version_warnings", Seq (map Str ws))]
          end
       ++ match schema_validation_errors crd with
          | [] => []
          | es => [("schema_validation_errors", Seq (map Str es))]
          end
       ++ match ownership_conflict crd with
          | Some c =>
              if negb (String.eqb c "") then [("ownership_conflict", Str c)]
              else []
          | None => []
          end).

Definition new_crd_dict (new_crd : NewCrdInfo) : Node :=
  Map [("name", Str (nc_name new_crd));
       ("group", nc_group new_crd);
       ("kind", nc_kind new_crd);
       ("versions", Seq (nc_versions new_crd))].

Definition to_dict (report : CrdReport) : Node :=
  Map ([("crds", Seq (map crd_dict (crds report)));
        ("new_crds", Seq (map new_crd_dict (new_crds report)));
        ("warnings", Seq (map Str (warnings report)))]
       ++ match policy_result report with
          | Some pr => [("policy", Map [("mode", Str (pr_mode pr));
                                        ("blocked", Bool (blocked pr));
                                        ("message", Str (pr_message pr))])]
          | None => []
          end).

(* ================================================================== *)
(** * [output/json_out.py] *)
(* ================================================================== *)

(** What the renderers get: a change of a resource, its annotations, and
    the ownership of the resource when it was found. *)
Definition FullResult : Type :=
  (ChangeRecord * list RiskAnnotation * option OwnershipInfo)%type.

(** [json.dumps(output, indent=2, default=str)] on a tree. *)
Variable json_dumps : Node -> string.

(** The subtrees of a YAML tree are of the types the first three tests
    name, so that [str(value)] is never met. *)
Fixpoint _serialize_value (value : Node) : Node :=
  match value with
  | Seq items => Seq (map _serialize_value items)
  | Map entries =>
      Map (map (fun kv => (fst kv, _serialize_value (snd kv))) entries)
  | _ => value
  end.

(** [sum(1 for cr, _, _ in results if cr.status == status)] *)
Definition count_status (status : string) (results : list FullResult) : nat :=
  length (filter (fun r => String.eqb (cr_status (fst (fst r))) status)
            results).

(** [risk_counts[key] += 1] *)
Definition increment (key : string) (risk_counts : list (string * nat))
  : result (list (string * nat)) :=
  match dict_get key risk_counts with
  | Some n => Ok (dict_set key (S n) risk_counts)
  | None => Raise KeyError
  end.

Definition int_of_nat (n : nat) : Node := Int (Z.of_nat n).

Definition opt_str (s : option string) : Node :=
  match s with Some v => Str v | None => Null end.

Definition change_obj (r : FullResult) : Node :=
  let '(change, risk_annotations, ownership) := r in
  Map ([("resource", Str (resource_key change));
        ("kind", Str (cr_kind change));
        ("name", Str (cr_name change));
        ("namespace", Str (cr_namespace change));
        ("status", Str (cr_status change));
        ("risk", Seq (map annotation_dict risk_annotations))]
       ++ match ownership with
          | Some o => [("ownership", Map [("manager", Str (manager o));
                                          ("release", opt_str (release o));
                                          ("app", opt_str (app o))])]
          | None => []
          end
       ++ (if String.eqb (cr_status change) "changed" then
             [("fields",
               Seq (map (fun fc =>
                           Map [("path", Str (path fc));
                                ("old", _serialize_value (old_value fc));
                                ("new", _serialize_value (new_value fc));
                                ("type", Str (change_type fc))])
                      (cr_changes change)))]
           else [])).

Definition render_json (results : list FullResult) (total_unchanged : nat)
    (crd_report : option CrdReport) : result string :=
  let added := count_status "added" results in
  let removed := count_status "removed" results in
  let changed := count_status "changed" results in
  let risk_counts :=
    map (fun l => (level_value l, 0%nat)) [SAFE; WARNING; DANGER] in
  risk_counts <- for_each results risk_counts (fun risk_counts r =>
    for_each (snd (fst r)) risk_counts (fun risk_counts a =>
      increment (level_value (level a)) risk_counts)) ;;
  (* Changes with no risk annotations count as safe *)
  risk_counts <- for_each results risk_counts (fun risk_counts r =>
    match snd (fst r) with
    | [] => increment "safe" risk_counts
    | _ :: _ => Ok risk_counts
    end) ;;
  let output :=
    [("summary", Map [("added", int_of_nat added);
                      ("removed", int_of_nat removed);
                      ("changed", int_of_nat changed);
                      ("unchanged", int_of_nat total_unchanged)]);
     ("risk_summary",
      Map (map (fun kv => (fst kv, int_of_nat (snd kv))) risk_counts));
     ("changes", Seq (map change_obj results))] in
  let output :=
    match crd_report with
    | Some report => output ++ [("crd_analysis", to_dict report)]
    | None => output
    end in
  Ok (json_dumps (Map output)).

(* ================================================================== *)
(** * [output/terminal.py] *)
(* ================================================================== *)

(** [Console(no_color=no_color).print(...)] and [.rule(...)]: the text the
    console writes for what it is handed, or the exception it raises. *)
Variable console_print : bool -> Renderable -> result string.

Definition RISK_STYLES (l : RiskLevel) : string * string :=
  match l with
  | SAFE => ("SAFE", "green")
  | WARNING => ("WARNING", "yellow")
  | DANGER => ("DANGER", "red bold")
  end.

Definition OWNER_STYLES : list (string * (string * string)) :=
  [("helm", ("helm", "blue"));
   ("argocd", ("argocd", "magenta"));
   ("flux", ("flux", "cyan"));
   ("unknown", ("unknown", "dim"))].

Definition STATUS_STYLES : list (string * (string * string)) :=
  [("added", ("ADDED", "green bold"));
   ("removed", ("REMOVED", "red bold"));
   ("changed", ("CHANGED", "yellow bold"))].

Definition nl : string := String newline "".

(** [console.print(r)] after [printed] went out. *)
Definition emit (no_color : bool) (printed : string) (r : Renderable)
  : result string :=
  out <- console_print no_color r ;; Ok (printed ++ out)%string.

Definition is_blank (c : ascii) : bool :=
  let n := nat_of_ascii c in
  Nat.eqb n 32 || (Nat.leb 9 n && Nat.leb n 13).

Fixpoint until_blank (s : string) : string :=
  match s with
  | EmptyString => ""
  | String c rest => if is_blank c then "" else String c (until_blank rest)
  end.

(** [s.split()[0]], for a string that holds a word, as the styles of
    [STATUS_STYLES] do. *)
Fixpoint first_word (s : string) : string :=
  match s with
  | EmptyString => ""
  | String c rest =>
      if is_blank c then first_word rest else String c (until_blank rest)
  end.

Definition _format_value (value : Node) : string :=
  let s := py_repr value in
  if Nat.ltb 120 (String.length s) then (substring 0 117 s ++ "...")%string
  else s.

Definition _max_risk (annotations : list RiskAnnotation) : option RiskLevel :=
  match annotations with
  | [] => None
  | a :: rest => Some (level (max_by (fun a => order (level a)) a rest))
  end.

(** [max(...)] on strings: the first of the greatest. *)
Definition max_str (first : string) (rest : list string) : string :=
  fold_left (fun best x => if String.ltb best x then x else best) rest first.

(** The marker of a field: the values of the levels are compared as the
    strings they are. *)
Definition risk_marker_of (field_risks : list RiskAnnotation) : string :=
  match map (fun a => level_value (level a)) field_risks with
  | [] => ""
  | v :: rest =>
      let max_level := max_str v rest in
      if String.eqb max_level (level_value DANGER) then " !!"
      else if String.eqb max_level (level_value WARNING) then " !"
      else ""
  end.

Definition _render_field_change (content : Text) (fc : FieldChange)
    (risk_annotations : list RiskAnnotation) : Text :=
  let field_risks :=
    filter (fun a => String.eqb (ra_path a) (path fc)) risk_annotations in
  let risk_marker := risk_marker_of field_risks in
  if String.eqb (change_type fc) "value_changed" then
    content
    ++ [Styled (fstr ["  ~ "; path fc; risk_marker; nl]) "yellow";
        Styled (fstr ["    - "; _format_value (old_value fc); nl]) "red";
        Styled (fstr ["    + "; _format_value (new_value fc); nl]) "green"]
  else if String.eqb (change_type fc) "type_changed" then
    content
    ++ [Styled (fstr ["  ~ "; path fc; " (type changed)"; risk_marker; nl])
          "yellow";
        Styled (fstr ["    - "; _format_value (old_value fc); " (";
                      type_name (old_value fc); ")"; nl]) "red";
        Styled (fstr ["    + "; _format_value (new_value fc); " (";
                      type_name (new_value fc); ")"; nl]) "green"]
  else if String.eqb (change_type fc) "item_added" then
    content
    ++ [Styled (fstr ["  + "; path fc; risk_marker; nl]) "green";
        Styled (fstr ["    "; _format_value (new_value fc); nl]) "green"]
  else if String.eqb (change_type fc) "item_removed" then
    content
    ++ [Styled (fstr ["  - "; path fc; risk_marker; nl]) "red";
        Styled (fstr ["    "; _format_value (old_value fc); nl]) "red"]
  else content.

(** [f"[{style}]{label}[/{style}]"] *)
Definition tagged (style label : string) : string :=
  fstr ["["; style; "]"; label; "[/"; style; "]"].

Definition _render_resource (no_color : bool) (printed : string)
    (change : ChangeRecord) (risk_annotations : list RiskAnnotation)
    (ownership : option OwnershipInfo) : result string :=
  (* Build title line *)
  match dict_get (cr_status change) STATUS_STYLES with
  | None => Raise KeyError
  | Some (status_label, status_style) =>
      let title : Text :=
        [Styled (fstr ["["; status_label; "] "]) status_style;
         Styled (fstr [cr_kind change; "/"; cr_name change]) "bold";
         Styled (fstr ["  ("; cr_namespace change; ")"]) "dim"] in
      (* Badges *)
      let badges : list (string * string) :=
        match ownership with
        | Some o =>
            let '(owner_label, owner_style) :=
              match dict_get (manager o) OWNER_STYLES with
              | Some st => st
              | None => ("unknown", "dim")
              end in
            [(fstr [" ["; owner_label; "]"], owner_style)]
        | None => []
        end in
      (* Risk badges *)
      let badges :=
        match _max_risk risk_annotations with
        | Some max_risk =>
            let '(risk_label, risk_style) := RISK_STYLES max_risk in
            badges ++ [(fstr [" ["; risk_label; "]"], risk_style)]
        | None => badges
        end in
      let title := title ++ [Inner badges] in
      printed <-
        (if String.eqb (cr_status change) "added"
            || String.eqb (cr_status change) "removed" then
           emit no_color printed
             (PanelOf title None None (first_word status_style))
         else
           (* Show field changes *)
           let content :=
             fold_left (fun content fc =>
                          _render_field_change content fc risk_annotations)
               (cr_changes change) [] in
           emit no_color printed
             (PanelOf content (Some title) (Some "left") "yellow")) ;;
      (* Show risk details *)
      printed <- for_each risk_annotations printed (fun printed annotation =>
        let '(risk_label, risk_style) := RISK_STYLES (level annotation) in
        emit no_color printed
          (Markup (fstr ["  "; tagged risk_style risk_label; ": ";
                         ra_message annotation]))) ;;
      emit no_color printed Blank
  end.

(** [", ".join(versions)]: the items must be strings. *)
Definition join_versions (versions : list Node) : result string :=
  names <- for_each versions [] (fun names v =>
    match v with
    | Str s => Ok (names ++ [s])
    | _ => Raise TypeError
    end) ;;
  Ok (join ", " names).

Definition _render_crd_section (no_color : bool) (printed : string)
    (crd_report : CrdReport) : result string :=
  printed <- emit no_color printed Blank ;;
  printed <- emit no_color printed
               (RuleOf "[bold cyan]CRD Analysis[/bold cyan]") ;;
  printed <- emit no_color printed Blank ;;
  (* CRD changes table *)
  printed <-
    match crds crd_report with
    | [] => Ok printed
    | _ :: _ =>
        let rows :=
          map (fun crd =>
                 let '(status_label, status_style) :=
                   match dict_get (cd_status crd) STATUS_STYLES with
                   | Some st => st
                   | None => ("UNKNOWN", "dim")
                   end in
                 let '(risk_label, risk_style) := RISK_STYLES (max_risk crd) in
                 let details :=
                   match changes crd with
                   | [] => ""
                   | _ :: _ =>
                       fstr [str_of_nat (length (changes crd)); " change(s)"]
                   end in
                 [cd_name crd;
                  tagged status_style status_label;
                  tagged risk_style risk_label;
                  details])
            (crds crd_report) in
        printed <- emit no_color printed
                     (TableOf "CRD Changes" true true
                        [("CRD Name", Some "bold"); ("Status", None);
                         ("Risk", None); ("Details", None)]
                        rows) ;;
        emit no_color printed Blank
    end ;;
  (* New CRDs *)
  printed <-
    match new_crds crd_report with
    | [] => Ok printed
    | _ :: _ =>
        printed <- emit no_color printed
                     (Markup "[bold green]New CRDs:[/bold green]") ;;
        printed <- for_each (new_crds crd_report) printed
          (fun printed new_crd =>
             versions_str <- join_versions (nc_versions new_crd) ;;
             emit no_color printed
               (Markup (fstr ["  + "; nc_name new_crd; " (";
                              py_str (nc_kind new_crd); ") ";
                              "[dim]versions: "; versions_str; "[/dim]"]))) ;;
        emit no_color printed Blank
    end ;;
  (* Ownership conflicts *)
  let conflicts :=
    filter (fun c => str_truthy (ownership_conflict c)) (crds crd_report) in
  printed <-
    match conflicts with
    | [] => Ok printed
    | _ :: _ =>
        printed <- emit no_color printed
                     (Markup "[bold yellow]Ownership Conflicts:[/bold yellow]") ;;
        printed <- for_each conflicts printed (fun printed crd =>
          emit no_color printed
            (Markup (fstr ["  [yellow]![/yellow] ";
                           match ownership_conflict crd with
                           | Some c => c
                           | None => "None"
                           end]))) ;;
        emit no_color printed Blank
    end ;;
  (* Stored-version warnings *)
  let sv_warnings :=
    flat_map (fun c => map (fun w => (cd_name c, w))
                         (stored_version_warnings c))
      (crds crd_report) in
  printed <-
    match sv_warnings with
    | [] => Ok printed
    | _ :: _ =>
        printed <- emit no_color printed
                     (Markup "[bold yellow]Stored Version Warnings:[/bold yellow]") ;;
        printed <- for_each sv_warnings printed (fun printed nw =>
          emit no_color printed
            (Markup (fstr ["  [yellow]![/yellow] "; fst nw; ": "; snd nw]))) ;;
        emit no_color printed Blank
    end ;;
  (* Schema validation issues *)
  let schema_errors :=
    flat_map (fun c => map (fun e => (cd_name c, e))
                         (schema_validation_errors c))
      (crds crd_report) in
  printed <-
    match schema_errors with
    | [] => Ok printed
    | _ :: _ =>
        printed <- emit no_color printed
                     (Markup "[bold red]Schema Validation Issues:[/bold red]") ;;
        printed <- for_each schema_errors printed (fun printed ne =>
          emit no_color printed
            (Markup (fstr ["  [red]!![/red] "; fst ne; ": "; snd ne]))) ;;
        emit no_color printed Blank
    end ;;
  (* Risk details for each CRD *)
  printed <- for_each (crds crd_report) printed (fun printed crd =>
    for_each (risk_annotations crd) printed (fun printed annotation =>
      let '(risk_label, risk_style) := RISK_STYLES (level annotation) in
      emit no_color printed
        (Markup (fstr ["  "; tagged risk_style risk_label; " ";
                       cd_name crd; ": "; ra_message annotation])))) ;;
  (* General warnings *)
  printed <- for_each (warnings crd_report) printed (fun printed warning =>
    emit no_color printed
      (Markup (fstr ["  [dim]Warning: "; warning; "[/dim]"]))) ;;
  (* Policy decision *)
  printed <-
    match policy_result crd_report with
    | Some pr =>
        if blocked pr then
          emit no_color printed
            (Markup (fstr [nl; "  [red bold]"; pr_message pr; "[/red bold]"]))
        else
          emit no_color printed
            (Markup (fstr [nl; "  [dim]"; pr_message pr; "[/dim]"]))
    | None => Ok printed
    end ;;
  emit no_color printed Blank.

(** [sum(sum(1 for a in ra if a.level == l) for _, ra, _ in results)] *)
Definition count_level (l : RiskLevel) (results : list FullResult) : nat :=
  list_sum
    (map (fun r => length (filter (fun a => RiskLevel_eqb (level a) l)
                             (snd (fst r))))
       results).

Definition _render_summary (no_color : bool) (printed : string)
    (results : list FullResult) (crd_report : option CrdReport)
  : result string :=
  let added := count_status "added" results in
  let removed := count_status "removed" results in
  let changed := count_status "changed" results in
  let n_warnings := count_level WARNING results in
  let dangers := count_level DANGER results in
  let rows :=
    [["[green]Added[/green]"; str_of_nat added];
     ["[red]Removed[/red]"; str_of_nat removed];
     ["[yellow]Changed[/yellow]"; str_of_nat changed]] in
  let rows :=
    match n_warnings with
    | O => rows
    | S _ => rows ++ [["[yellow]Warnings[/yellow]"; str_of_nat n_warnings]]
    end in
  let rows :=
    match dangers with
    | O => rows
    | S _ => rows ++ [["[red bold]Dangers[/red bold]"; str_of_nat dangers]]
    end in
  let rows :=
    match crd_report with
    | Some report =>
        let crd_changed :=
          length (filter (fun c => String.eqb (cd_status c) "changed")
                    (crds report)) in
        let crd_new := length (new_crds report) in
        match crd_changed, crd_new with
        | O, O => rows
        | _, _ =>
            let rows :=
              rows ++ [["[cyan]CRDs Changed[/cyan]"; str_of_nat crd_changed]] in
            match crd_new with
            | O => rows
            | S _ => rows ++ [["[cyan]CRDs New[/cyan]"; str_of_nat crd_new]]
            end
        end
    | None => rows
    end in
  emit no_color printed (TableOf "Summary" false false [] rows).

Definition render_terminal (results : list FullResult) (context_lines : Z)
    (show_all no_color risk_only : bool) (crd_report : option CrdReport)
  : result string :=
  let results :=
    if risk_only then
      filter (fun r =>
                existsb (fun a => match level a with
                                  | WARNING | DANGER => true
                                  | SAFE => false
                                  end) (snd (fst r)))
        results
    else results in
  match results, crd_report with
  | [], None => emit no_color "" (Markup "[dim]No changes detected.[/dim]")
  | _, _ =>
      printed <- for_each results "" (fun printed r =>
        _render_resource no_color printed (fst (fst r)) (snd (fst r))
          (snd r)) ;;
      (* Render CRD analysis section if present *)
      printed <-
        match crd_report with
        | Some report => _render_crd_section no_color printed report
        | None => Ok printed
        end ;;
      _render_summary no_color printed results crd_report
  end.

(* ================================================================== *)
(** * [cli.py] *)
(* ================================================================== *)

(** [core/helm.py] and [core/kubectl.py]: the three subprocess calls of
    the command. *)
Variable get_manifest : string -> string -> KubeOpts -> ext string.
Variable dry_run_upgrade :
  string -> string -> string -> list string -> list string -> option string ->
  KubeOpts -> ext string.
Variable server_side_dry_run : string -> string -> KubeOpts -> ext string.

(** [parser/manifest.py], [diff/engine.py] and [analysis/risk.py]. *)
Variable pair_resources : list Resource -> list Resource -> list ResourcePair.
Variable diff_all :
  list ResourcePair -> bool -> option (list string) -> list ChangeRecord.
Variable assess_risk :
  list ChangeRecord -> list (ChangeRecord * list RiskAnnotation).

(** Control inside the [try] block of [diff]: a value, an exception, a
    [RunError], or [sys.exit(code)] after [printed] went to stdout. *)
Inductive flow (A : Type) : Type :=
| Go (a : A)
| Throw (e : pyexn)
| ThrowRun (msg : string)
| SysExit (code : Z) (printed : string).

Arguments Go {A} a.
Arguments Throw {A} e.
Arguments ThrowRun {A} msg.
Arguments SysExit {A} code printed.

Definition flow_bind {A B} (m : flow A) (k : A -> flow B) : flow B :=
  match m with
  | Go a => k a
  | Throw e => Throw e
  | ThrowRun msg => ThrowRun msg
  | SysExit code printed => SysExit code printed
  end.

Definition of_result {A} (m : result A) : flow A :=
  match m with
  | Ok a => Go a
  | Raise e => Throw e
  end.

Definition of_ext {A} (m : ext A) : flow A :=
  match m with
  | Done a => Go a
  | RunError msg => ThrowRun msg
  end.

Declare Scope flow_scope.
Delimit Scope flow_scope with flow.
Notation "x <- m ;; k" := (flow_bind m (fun x => k))
  (at level 61, m at next level, right associativity) : flow_scope.

Definition _is_crd_pair (p : ResourcePair) : bool :=
  match new p, old p with
  | Some res, _ => is_crd res
  | None, Some res => is_crd res
  | None, None => false
  end.

Definition _run_crd_analysis (upgrade_resources : list Resource)
    (chart_path crd_policy release_name : string) (kube_opts : KubeOpts)
  : result CrdReport :=
  match mode_of_value crd_policy with
  | None => Raise ValueError
  | Some policy_mode =>
      run_crd_pipeline upgrade_resources (Some chart_path) policy_mode
        (Some release_name) kube_opts
  end.

(** One turn of the loop of [_apply_server_side]: a [RunError] of the
    dry-run keeps the resource as rendered. *)
Definition server_side_one (namespace : string) (kube_opts : KubeOpts)
    (results : list Resource) (res : Resource) : result (list Resource) :=
  match server_side_dry_run (yaml_dump (res_body res)) namespace kube_opts with
  | RunError _ => Ok (results ++ [res])
  | Done mutated_yaml =>
      mutated <- parse_multi_doc mutated_yaml namespace ;;
      match mutated with
      | first :: _ => Ok (results ++ [first])
      | [] => Ok (results ++ [res])
      end
  end.

Definition _apply_server_side (resources : list Resource) (namespace : string)
    (kube_opts : KubeOpts) : result (list Resource) :=
  for_each resources [] (server_side_one namespace kube_opts).

Fixpoint find_by_key (k : string) (resources : list Resource) : option Resource :=
  match resources with
  | [] => None
  | res :: rest => if String.eqb (key res) k then Some res else find_by_key k rest
  end.

Definition _find_resource (change : ChangeRecord)
    (old_resources new_resources : list Resource) : option Resource :=
  match find_by_key (resource_key change) new_resources with
  | Some res => Some res
  | None => find_by_key (resource_key change) old_resources
  end.

(** What [diff] has in hand after step 4b. *)
Record Analysis : Type := mkAnalysis {
  live_resources : list Resource;
  upgrade_resources : list Resource;
  non_crd_pairs : list ResourcePair;
  crd_report : option CrdReport
}.

Definition namespace_or_default (a : DiffArgs) : string :=
  if str_truthy (a_namespace a)
  then match a_namespace a with Some n => n | None => "default" end
  else "default".

Definition kube_opts_of (a : DiffArgs) : KubeOpts :=
  mkKubeOpts (a_kubeconfig a) (a_kube_context a).

Local Open Scope flow_scope.

(** Steps 1 to 4b. *)
Definition analyse (a : DiffArgs) : flow Analysis :=
  let ns := namespace_or_default a in
  let kube_opts := kube_opts_of a in
  live_yaml <- of_ext (get_manifest (a_release a) ns kube_opts) ;;
  live_resources <- of_result (parse_multi_doc live_yaml ns) ;;
  upgrade_yaml <- of_ext (dry_run_upgrade (a_release a) (a_chart a) ns
                            (a_values a) (a_set_values a) (a_version a)
                            kube_opts) ;;
  upgrade_resources <- of_result (parse_multi_doc upgrade_yaml ns) ;;
  upgrade_resources <-
    (if a_server_side a
     then of_result (_apply_server_side upgrade_resources ns kube_opts)
     else Go upgrade_resources) ;;
  let pairs := pair_resources live_resources upgrade_resources in
  if a_check_crds a then
    let non_crd_pairs := filter (fun p => negb (_is_crd_pair p)) pairs in
    crd_report <- of_result (_run_crd_analysis upgrade_resources (a_chart a)
                               (a_crd_policy a) (a_release a) kube_opts) ;;
    Go (mkAnalysis live_resources upgrade_resources non_crd_pairs
          (Some crd_report))
  else
    Go (mkAnalysis live_resources upgrade_resources pairs None).

(** [crd_report and crd_report.policy_result and
    crd_report.policy_result.blocked] *)
Definition policy_blocks (crd_report : option CrdReport) : bool :=
  match crd_report with
  | Some report =>
      match policy_result report with
      | Some pr => blocked pr
      | None => false
      end
  | None => false
  end.

(** Steps 5 to 8: what goes to stdout when the rendering returns; the
    JSON text goes through [click.echo], which ends the line. *)
Definition render (a : DiffArgs) (an : Analysis) : result string :=
  let change_records :=
    diff_all (non_crd_pairs an) (a_show_all a)
      (match a_ignore_path a with [] => None | l => Some l end) in
  let risk_results := assess_risk change_records in
  let full_results : list FullResult :=
    map (fun cr =>
           let '(change, risk_annotations) := cr in
           let resource := _find_resource change (live_resources an)
                             (upgrade_resources an) in
           (change, risk_annotations, option_map detect_ownership resource))
        risk_results in
  let total_unchanged :=
    length (filter (fun p => String.eqb (pair_status p) "unchanged")
              (non_crd_pairs an)) in
  if String.eqb (a_output_format a) "json" then
    (text <- render_json full_results total_unchanged (crd_report an) ;;
     Ok (text ++ nl)%string)%py
  else
    render_terminal full_results (a_context a) (a_show_all a) (a_no_color a)
      (a_risk_only a) (crd_report an).

(** The [try] block. *)
Definition diff_body (a : DiffArgs) : flow string :=
  an <- analyse a ;;
  printed <- of_result (render a an) ;;
  if policy_blocks (crd_report an) then SysExit 1 printed
  else Go printed.

(** How a run of the command ends. *)
Inductive Outcome : Type :=
| Completed (printed : string)
| Exited (code : Z) (printed : string) (err : string)
| Crashed (e : pyexn).

Definition diff (a : DiffArgs) : Outcome :=
  match diff_body a with
  | Go printed => Completed printed
  | SysExit code printed => Exited code printed ""
  | ThrowRun msg => Exited 1 "" (fstr ["Error: "; msg])
  | Throw e => Crashed e
  end.

(** The exit status the shell sees: 0 after a normal return, the argument
    of [sys.exit], 1 after an uncaught exception. *)
Definition exit_status (o : Outcome) : Z :=
  match o with
  | Completed _ => 0
  | Exited code _ _ => code
  | Crashed _ => 1
  end.

Local Close Scope flow_scope.

(* ================================================================== *)
(** * Vocabulary of the statements *)
(* ================================================================== *)

(** The rule identifiers with their levels, in the order of the table of
    section 4.5.3. *)
Definition crd_rules : list (string * RiskLevel) :=
  [("crd_metadata_change", SAFE);
   ("crd_printer_columns", SAFE);
   ("crd_version_added", SAFE);
   ("crd_optional_property_added", SAFE);
   ("crd_version_removed", DANGER);
   ("crd_required_field_added", DANGER);
   ("crd_property_removed", DANGER);
   ("crd_type_changed", DANGER);
   ("crd_scope_changed", DANGER);
   ("crd_conversion_strategy_changed", DANGER);
   ("crd_default_changed", WARNING);
   ("crd_pattern_changed", WARNING);
   ("crd_range_changed", WARNING);
   ("crd_enum_changed", WARNING);
   ("crd_webhook_changed", WARNING);
   ("crd_required_field_removed", SAFE);
   ("crd_required_changed", DANGER);
   ("crd_unknown_change", WARNING)].

(** The versions among [svs] that [names] does not hold. *)
Definition orphaned (svs : list string) (names : list Node) : list string :=
  filter (fun sv => negb (list_contains (Str sv) names)) svs.

(** What a file of the [crds/] folder adds: the CRDs among its documents,
    nothing when it cannot be read or parsed. *)
Definition crds_of_file (yaml_file : string * result string) : list Resource :=
  match snd yaml_file with
  | Ok text =>
      match parse_multi_doc text "" with
      | Ok parsed => filter is_crd parsed
      | Raise _ => []
      end
  | Raise _ => []
  end.

(** A file that reads and parses, or fails with one of the two exceptions
    the loops catch. *)
Definition reads_or_skips (yaml_file : string * result string) : bool :=
  match snd yaml_file with
  | Ok text =>
      match parse_multi_doc text "" with
      | Ok _ | Raise OSError | Raise YAMLError => true
      | Raise _ => false
      end
  | Raise OSError | Raise YAMLError => true
  | Raise _ => false
  end.

(** The bodies of a pair after CRD noise stripping and normalization. *)
Definition crd_view (r : Resource) : Node :=
  normalize_body (strip_noise (res_body r) CRD_NOISE_PATHS).

(** An error of the walker: a position, then what is wrong there. *)
Definition located (err : string) : Prop :=
  exists p reason, err = fstr ["At '"; p; "': "; reason].

(** Schemas the walker gets through without an exception, whatever the
    value: a composite [type] would be hashed, an [enum] that is no list
    would be searched in another way, a [pattern] must be a string, the
    bounds numbers, [required] a collection of hashable names,
    [properties] a dict. *)
Definition type_decl_ok (t : Node) : bool :=
  match t with
  | Seq (_ :: _) | Map (_ :: _) => false
  | _ => true
  end.

Definition bound_ok (b : option Node) : bool :=
  match b with
  | Some m => match as_number m with Some _ => true | None => false end
  | None => true
  end.

Definition local_ok (sch : list (string * Node)) : bool :=
  type_decl_ok (schema_type_of sch)
  && match lookup "enum" sch with
     | Some (Seq _) | None => true
     | Some _ => false
     end
  && match lookup "pattern" sch with
     | Some (Str _) | None => true
     | Some _ => false
     end
  && bound_ok (lookup "minimum" sch)
  && bound_ok (lookup "maximum" sch).

Definition required_ok (sch : list (string * Node)) : bool :=
  match py_iter (required_of sch) with
  | Ok reqs => forallb hashable reqs
  | Raise _ => false
  end.

Fixpoint schema_ok_within (n : nat) (schema : Node) : bool :=
  match schema with
  | Map sch =>
      match n with
      | O => false
      | S n' =>
          local_ok sch
          && (if py_eq (schema_type_of sch) (Str "object") then
                required_ok sch
                && match properties_of sch with
                   | Map props =>
                       forallb (fun kv => schema_ok_within n' (snd kv)) props
                   | _ => false
                   end
                && match additional_of sch with
                   | Map a => schema_ok_within n' (Map a)
                   | _ => true
                   end
              else true)
          && (if py_eq (schema_type_of sch) (Str "array") then
                match lookup "items" sch with
                | Some items_schema => schema_ok_within n' items_schema
                | None => true
                end
              else true)
      end
  | _ => true
  end.

Definition schema_ok (schema : Node) : bool :=
  schema_ok_within (depth schema) schema.

(** The error for a required field that the object lacks. *)
Definition missing_required (path : string) (req : Node) : string :=
  fstr ["At '"; path; "': missing required field '"; py_str req; "'"].

(** How an error of the walker is reported for the object [name] in
    [namespace]. *)
Definition reported (name namespace : Node) (err : string) : string :=
  fstr [cr_prefix name namespace; ": "; err].

(** [cr] is called [name] in [namespace], with the defaults of
    [validate_crs_against_schema] for what its metadata lacks. *)
Definition cr_called (cr name namespace : Node) : Prop :=
  metadata_field cr "name" (Str "<unknown>") = Ok name /\
  metadata_field cr "namespace" (Str "") = Ok namespace.

(** [self] returns on [schema], whatever the value and the path. *)
Definition walks (self : Node -> Node -> string -> result (list string))
    (schema : Node) : Prop :=
  forall v p, exists errs, self v schema p = Ok errs.

(** A custom resource as the cluster lists it: a dict whose [metadata],
    when it has one, is a dict. *)
Definition cr_ok (cr : Node) : bool :=
  match cr with
  | Map m =>
      match lookup "metadata" m with
      | Some (Map _) | None => true
      | Some _ => false
      end
  | _ => false
  end.

(** What [diff_crds] keeps: an added or removed pair, without changes, or
    a pair of two bodies that are not semantically equal, with its
    changes, of which there is at least one. *)
Definition kept (p : ResourcePair) (chs : list FieldChange) : Prop :=
  ((pair_status p = "added" \/ pair_status p = "removed") /\ chs = []) \/
  (pair_status p <> "added" /\ pair_status p <> "removed" /\
   pair_status p <> "unchanged" /\
   exists o n, old p = Some o /\ new p = Some n /\
               is_semantically_equal (crd_view o) (crd_view n) = false /\
               chs <> []).

(** [(pair.new or pair.old).name] is [nm]. *)
Definition pair_named (p : ResourcePair) (nm : string) : Prop :=
  match new p, old p with
  | Some r, _ => name r = nm
  | None, Some r => name r = nm
  | None, None => False
  end.

(** A [RunError] in the primary path: the live-manifest fetch fails, or
    it succeeds, the manifest parses, and the dry-run render fails. *)
Definition primary_run_error (a : DiffArgs) : Prop :=
  let ns := namespace_or_default a in
  let kube_opts := kube_opts_of a in
  (exists msg, get_manifest (a_release a) ns kube_opts = RunError msg) \/
  (exists live_yaml live msg,
     get_manifest (a_release a) ns kube_opts = Done live_yaml /\
     parse_multi_doc live_yaml ns = Ok live /\
     dry_run_upgrade (a_release a) (a_chart a) ns (a_values a)
       (a_set_values a) (a_version a) kube_opts = RunError msg).

(** The run gets as far as the CRD report, and its policy result blocks. *)
Definition blocked_by_policy (a : DiffArgs) : Prop :=
  exists an report pr,
    analyse a = Go an /\ crd_report an = Some report /\
    policy_result report = Some pr /\ blocked pr = true.

(** What [diff_crds] does with one pair, as tests: is the pair kept, and
    with which changes. *)
Definition changes_of (p : ResourcePair) : list FieldChange :=
  if String.eqb (pair_status p) "added" || String.eqb (pair_status p) "removed"
  then []
  else match old p, new p with
       | Some o, Some n => extract_changes (crd_view o) (crd_view n)
       | _, _ => []
       end.

Definition kept_pair (p : ResourcePair) : bool :=
  if String.eqb (pair_status p) "added" || String.eqb (pair_status p) "removed"
  then true
  else if String.eqb (pair_status p) "unchanged" then false
  else match old p, new p with
       | Some o, Some n =>
           negb (is_semantically_equal (crd_view o) (crd_view n))
           && match extract_changes (crd_view o) (crd_view n) with
              | [] => false
              | _ :: _ => true
              end
       | _, _ => false
       end.

(** The pairs on which the assertion of [diff_crds] holds. *)
Definition well_paired (p : ResourcePair) : bool :=
  String.eqb (pair_status p) "added" || String.eqb (pair_status p) "removed"
  || String.eqb (pair_status p) "unchanged"
  || match old p, new p with Some _, Some _ => true | _, _ => false end.

(** [(pair.new or pair.old).name], the empty string for a pair of
    nothing. *)
Definition pair_key (p : ResourcePair) : string :=
  match new p, old p with
  | Some r, _ => name r
  | None, Some r => name r
  | None, None => ""
  end.

(** The error for a key that [additionalProperties: false] rejects. *)
Definition unknown_field (path key : string) : string :=
  fstr ["At '"; path; "': unknown field '"; key; "'"].

Definition is_unknown_key (props : list (string * Node))
    (kv : string * Node) : bool :=
  negb (has_key (fst kv) props)
  && negb (existsb (String.eqb (fst kv)) envelope_keys).

(** The first entry of [vs] that [test] accepts: the entries before it
    are rejected, none of the tests raises. *)
Definition first_where (test : Node -> result bool) (vs : list Node)
    (e : Node) : Prop :=
  exists before after,
    vs = before ++ e :: after /\
    Forall (fun x => test x = Ok false) before /\
    test e = Ok true.

(** [v.get("storage")] is truthy. *)
Definition has_storage (v : Node) : result bool :=
  storage <- py_get v "storage" Null ;; Ok (py_truthy storage).

(** [v.get("name") == version] *)
Definition is_named (version v : Node) : result bool :=
  n <- py_get v "name" Null ;; Ok (py_eq n version).

(** One descent of the walker, from a value at a schema node to a value
    at a node below it, with the path the walker gives it: into a declared
    property that the object has, into a key that [additionalProperties]
    governs, into an item of a list.  The walker descends from nodes of
    type [object] that meet a dict and of type [array] that meet a list,
    and from no other. *)
Inductive descends : Node -> Node -> string -> Node -> Node -> string -> Prop :=
| descends_property val sch path props k sub_schema sub :
    schema_type_of sch = Str "object" ->
    properties_of sch = Map props ->
    In (k, sub_schema) props ->
    lookup k val = Some sub ->
    descends (Map val) (Map sch) path sub sub_schema (child_path path k)
| descends_additional val sch path props a k sub :
    schema_type_of sch = Str "object" ->
    properties_of sch = Map props ->
    additional_of sch = Map a ->
    In (k, sub) val ->
    has_key k props = false ->
    descends (Map val) (Map sch) path sub (Map a) (child_path path k)
| descends_item items sch path i item :
    schema_type_of sch = Str "array" ->
    nth_error items i = Some item ->
    descends (Seq items) (Map sch) path item (items_of sch)
      (fstr [path; "["; str_of_nat i; "]"]).

(** The nodes a walk comes to: the start, and what is a descent away
    from a node it comes to. *)
Inductive reaches : Node -> Node -> string -> Node -> Node -> string -> Prop :=
| reaches_here v s p : reaches v s p v s p
| reaches_down v s p v1 s1 p1 v2 s2 p2 :
    descends v s p v1 s1 p1 ->
    reaches v1 s1 p1 v2 s2 p2 ->
    reaches v s p v2 s2 p2.

(** An exception that nothing catches: it is raised before the report
    is in hand, by the parser, the server-side pass or the CRD analysis,
    or while the report is rendered.  The [try] block of [diff] has the
    one handler, for [RunError]. *)
Definition uncaught_exception (a : DiffArgs) (e : pyexn) : Prop :=
  analyse a = Throw e \/
  exists an, analyse a = Go an /\ render a an = Raise e.

(* ================================================================== *)
(** * Properties *)
(* ================================================================== *)

(** ** The error monad *)

Lemma bind_ok_inv {A B} (m : result A) (k : A -> result B) (b : B) :
  bind m k = Ok b -> exists a, m = Ok a /\ k a = Ok b.
Proof. destruct m as [a|e]; simpl; [eauto | discriminate]. Qed.

(** ** The matcher decides the language *)

Lemma nullable_lang r : nullable r = true -> lang r [].
Proof.
  induction r; simpl; intros H; try discriminate.
  - constructor.
  - apply andb_true_iff in H as [H1 H2].
    change (@nil ascii) with (@nil ascii ++ []). constructor; auto.
  - apply orb_true_iff in H as [H|H]; [apply lang_alt_l | apply lang_alt_r]; auto.
  - constructor.
Qed.

Lemma lang_nullable r : lang r [] -> nullable r = true.
Proof.
  intros H. remember (@nil ascii) as w eqn:E.
  induction H; simpl; auto; try discriminate.
  - apply app_eq_nil in E as [-> ->]. rewrite IHlang1, IHlang2; auto.
  - rewrite IHlang; auto.
  - rewrite IHlang; auto using orb_true_r.
Qed.

Lemma deriv_sound c r : forall w, lang (deriv c r) w -> lang r (c :: w).
Proof.
  induction r; simpl; intros w H.
  - inversion H.
  - inversion H.
  - destruct (p c) eqn:E; inversion H; subst. constructor; auto.
  - destruct (nullable r1) eqn:N.
    + inversion H; subst.
      * inversion H3; subst.
        change (c :: u ++ v) with ((c :: u) ++ v). constructor; auto.
      * change (c :: w) with ([] ++ c :: w).
        constructor; auto using nullable_lang.
    + inversion H; subst.
      change (c :: u ++ v) with ((c :: u) ++ v). constructor; auto.
  - inversion H; subst; [apply lang_alt_l | apply lang_alt_r]; auto.
  - inversion H; subst.
    change (c :: u ++ v) with ((c :: u) ++ v). constructor; auto.
Qed.

Lemma star_cons_inv r c w :
  lang (Star r) (c :: w) ->
  exists u v, w = u ++ v /\ lang r (c :: u) /\ lang (Star r) v.
Proof.
  intros H. remember (Star r) as sr eqn:Er. remember (c :: w) as cw eqn:Ew.
  revert w Ew.
  induction H; intros w0 Ew; try discriminate.
  injection Er as ->.
  destruct u as [|a u].
  - simpl in Ew. apply IHlang2; auto.
  - simpl in Ew. injection Ew as Ha Hw. subst a w0. eauto.
Qed.

Lemma deriv_complete c r : forall w, lang r (c :: w) -> lang (deriv c r) w.
Proof.
  induction r; simpl; intros w H.
  - inversion H.
  - inversion H.
  - inversion H; subst.
    match goal with E : p c = true |- _ => rewrite E end. constructor.
  - inversion H as [| |r s u v Hu Hv Er Ew| | | |]; subst.
    destruct u as [|a u]; simpl in *.
    + subst v. rewrite (lang_nullable Hu).
      apply lang_alt_r. auto.
    + injection Ew as Ha Hw. subst a w.
      destruct (nullable r1); [apply lang_alt_l|]; constructor; auto.
  - inversion H; subst; [apply lang_alt_l | apply lang_alt_r]; auto.
  - apply star_cons_inv in H as (u & v & -> & Hu & Hv).
    constructor; auto.
Qed.

Lemma accepts_lang r w : accepts r w = true <-> lang r w.
Proof.
  revert r. induction w as [|c w IH]; intros r; simpl.
  - split; auto using nullable_lang, lang_nullable.
  - rewrite IH. split; auto using deriv_sound, deriv_complete.
Qed.

Lemma lang_lit s w : lang (lit s) w -> w = chars s.
Proof.
  revert w. induction s as [|c s IH]; simpl; intros w H.
  - inversion H; auto.
  - inversion H; subst. inversion H2; subst.
    apply Ascii.eqb_eq in H1 as <-. simpl. f_equal. auto.
Qed.

Lemma lang_star_cls p w : lang (Star (Cls p)) w -> Forall (fun c => p c = true) w.
Proof.
  intros H. remember (Star (Cls p)) as r eqn:E.
  induction H; try discriminate; auto.
  injection E as ->. inversion H; subst. simpl. constructor; auto.
Qed.

(** ** C1: the policy *)

Lemma filter_nonempty_iff {A} (f : A -> bool) (l : list A) :
  filter f l <> [] <-> exists x, In x l /\ f x = true.
Proof.
  split.
  - intros H. destruct (filter f l) as [|x r] eqn:E; [congruence|].
    exists x. apply filter_In. rewrite E. now left.
  - intros (x & Hin & Hf) E.
    assert (In x (filter f l)) as Hx by (apply filter_In; auto).
    rewrite E in Hx. destruct Hx.
Qed.

Lemma RiskLevel_eqb_eq a b : RiskLevel_eqb a b = true <-> a = b.
Proof. destruct a, b; simpl; split; congruence. Qed.

(** C1. For every report and every mode: [ignore] and [warn] never block;
    [fail] blocks, with exit code 1, exactly when some CRD of the report
    has [max_risk] DANGER, and otherwise passes with exit code 0. *)
Theorem evaluate_policy_blocks_iff_danger (r : CrdReport) (mode : CrdPolicyMode) :
  let res := evaluate_policy r mode in
  let danger := exists c, In c (crds r) /\ max_risk c = DANGER in
  match mode with
  | IGNORE | WARN => blocked res = false
  | FAIL =>
      ((blocked res = true /\ exit_code res = 1%Z) <-> danger) /\
      (~ danger -> blocked res = false /\ exit_code res = 0%Z)
  end.
Proof.
  intros res danger. subst res.
  destruct mode; simpl; try reflexivity.
  destruct (filter (fun c => RiskLevel_eqb (max_risk c) DANGER) (crds r))
    as [|d ds] eqn:E.
  - assert (~ danger) as Hn.
    { intros (c & Hin & Hc).
      assert (In c (filter (fun c => RiskLevel_eqb (max_risk c) DANGER) (crds r)))
        as Hx by (apply filter_In; split; auto; now apply RiskLevel_eqb_eq).
      rewrite E in Hx. destruct Hx. }
    split.
    + split; [|tauto].
      destruct (filter (fun c => RiskLevel_eqb (max_risk c) WARNING) (crds r));
        simpl; intros [Hb _]; discriminate.
    + intros _.
      destruct (filter (fun c => RiskLevel_eqb (max_risk c) WARNING) (crds r));
        simpl; auto.
  - assert danger as Hd.
    { assert (In d (filter (fun c => RiskLevel_eqb (max_risk c) DANGER) (crds r)))
        as Hx by (rewrite E; now left).
      apply filter_In in Hx as [Hin Hc]. exists d. split; auto.
      now apply RiskLevel_eqb_eq. }
    simpl. split; [tauto|]. intros Hn. contradiction.
Qed.

(** ** C3: the classifier is total and keeps the order *)

Lemma classify_loop_spec changes : forall annotations,
  classify_loop changes annotations
  = annotations ++ map _classify_single changes.
Proof.
  induction changes as [|fc rest IH]; intros acc; simpl.
  - now rewrite app_nil_r.
  - rewrite IH. now rewrite <- app_assoc.
Qed.

Ltac split_ifs :=
  repeat match goal with
         | |- context [if ?c then _ else _] => destruct c
         end.

Lemma classify_single_path fc : ra_path (_classify_single fc) = path fc.
Proof. unfold _classify_single. cbv zeta. split_ifs; reflexivity. Qed.

Lemma classify_single_in_table fc :
  In (rule (_classify_single fc), level (_classify_single fc)) crd_rules.
Proof.
  unfold _classify_single. cbv zeta. split_ifs; simpl; tauto.
Qed.

(** A change that no test of the chain accepts gets the catch-all. *)
Lemma classify_single_fallthrough fc :
  re_match pat_metadata (path fc) = false ->
  re_search pat_printer_columns (path fc) = false ->
  re_match pat_version_entry (path fc) = false ->
  re_search pat_nested_property (path fc) = false ->
  re_search pat_schema_required (path fc) = false ->
  re_search pat_property (path fc) = false ->
  re_search pat_type (path fc) = false ->
  String.eqb (path fc) "spec.scope" = false ->
  String.eqb (path fc) "spec.conversion.strategy" = false ->
  re_search pat_default (path fc) = false ->
  re_search pat_pattern (path fc) = false ->
  re_search pat_range (path fc) = false ->
  re_search pat_enum (path fc) = false ->
  re_search pat_webhook (path fc) = false ->
  _classify_single fc
  = _annotation WARNING "crd_unknown_change"
      (fstr ["Unknown CRD change at '"; path fc; "'"]) (path fc).
Proof.
  intros. unfold _classify_single. cbv zeta.
  repeat match goal with H : _ = false |- _ => rewrite H; clear H end.
  reflexivity.
Qed.

(** C3. [classify_crd_changes] returns, for every list of changes, the
    annotation of each change, one per change and in the order of the
    changes: the i-th annotation is that of the i-th change and carries
    its path.  Every annotation is a row of the rule table, and a change
    that matches no specific rule (here [spec.group]) gets the catch-all
    WARNING [crd_unknown_change]. *)
Theorem classify_crd_changes_total (changes : list FieldChange) :
  classify_crd_changes changes = map _classify_single changes /\
  length (classify_crd_changes changes) = length changes /\
  map ra_path (classify_crd_changes changes) = map path changes /\
  Forall (fun a => In (rule a, level a) crd_rules) (classify_crd_changes changes) /\
  (forall o n ct,
     _classify_single (mkFieldChange "spec.group" o n ct)
     = _annotation WARNING "crd_unknown_change"
         "Unknown CRD change at 'spec.group'" "spec.group").
Proof.
  assert (classify_crd_changes changes = map _classify_single changes) as E.
  { unfold classify_crd_changes. now rewrite classify_loop_spec. }
  rewrite E. split; [reflexivity|]. split; [|split; [|split]].
  - now rewrite length_map.
  - rewrite map_map. apply map_ext. intros fc. apply classify_single_path.
  - apply Forall_forall. intros a Ha. apply in_map_iff in Ha as (fc & <- & _).
    apply classify_single_in_table.
  - intros o n ct. apply classify_single_fallthrough; reflexivity.
Qed.


(** ** C5: a removed version is caught by its own rule *)

Lemma lang_cat_inv r s w :
  lang (Cat r s) w -> exists u v, w = u ++ v /\ lang r u /\ lang s v.
Proof. intros H. inversion H; subst. eauto. Qed.

Lemma lang_alt_inv r s w : lang (Alt r s) w -> lang r w \/ lang s w.
Proof. intros H. inversion H; subst; auto. Qed.

Lemma lang_eps_inv w : lang Eps w -> w = [].
Proof. intros H. now inversion H. Qed.

Lemma lang_cls_inv p w : lang (Cls p) w -> exists c, w = [c] /\ p c = true.
Proof. intros H. inversion H; subst. eauto. Qed.

Lemma lang_plus_cls p w :
  lang (plus (Cls p)) w -> Forall (fun c => p c = true) w.
Proof.
  intros H. apply lang_cat_inv in H as (u & v & -> & Hu & Hv).
  apply lang_cls_inv in Hu as (c & -> & Hc).
  apply lang_star_cls in Hv. simpl. constructor; auto.
Qed.

Lemma re_match_lang p s :
  re_match p s = true <-> lang (Cat (body p) (end_of p)) (chars s).
Proof. unfold re_match. apply accepts_lang. Qed.

Lemma re_search_lang p s :
  re_search p s = true <->
  lang (if bol p then Cat (body p) (end_of p)
        else Cat anything (Cat (body p) (end_of p))) (chars s).
Proof.
  unfold re_search. destruct (bol p).
  - apply re_match_lang.
  - apply accepts_lang.
Qed.

Ltac open_pattern H :=
  cbv [pat_metadata pat_printer_columns pat_version_entry
       body end_of eol bol seq] in H.

(** What a path that matches [^spec\.versions\[\d+\]$] looks like. *)
Lemma version_entry_shape s :
  re_match pat_version_entry s = true ->
  exists ds tail,
    chars s = chars "spec.versions[" ++ ds ++ chars "]" ++ tail /\
    Forall (fun c => is_digit c = true) ds /\
    (tail = [] \/ tail = [newline]).
Proof.
  intros H. apply re_match_lang in H. open_pattern H.
  apply lang_cat_inv in H as (u & tail & E & Hu & Ht).
  apply lang_cat_inv in Hu as (u1 & u' & -> & H1 & Hu).
  apply lang_cat_inv in Hu as (ds & u3 & -> & Hds & H3).
  apply lang_lit in H1. apply lang_lit in H3. subst u1 u3.
  apply lang_plus_cls in Hds.
  exists ds, tail. split; [|split]; auto.
  - rewrite E. now rewrite <- !app_assoc.
  - apply lang_alt_inv in Ht as [Ht|Ht].
    + left. now apply lang_eps_inv.
    + right. apply lang_cls_inv in Ht as (c & -> & Hc).
      unfold is_newline in Hc. apply Ascii.eqb_eq in Hc. now subst.
Qed.

Lemma version_entry_not_metadata s :
  re_match pat_version_entry s = true -> re_match pat_metadata s = false.
Proof.
  intros H. apply version_entry_shape in H as (ds & tail & E & _ & _).
  destruct (re_match pat_metadata s) eqn:M; auto.
  apply re_match_lang in M. open_pattern M.
  apply lang_cat_inv in M as (u & v & E' & Hu & _).
  apply lang_cat_inv in Hu as (u1 & u2 & -> & H1 & _).
  apply lang_lit in H1. subst u1.
  rewrite E in E'. simpl in E'. discriminate.
Qed.

Lemma version_entry_no_a s :
  re_match pat_version_entry s = true -> ~ In "a"%char (chars s).
Proof.
  intros H Hin. apply version_entry_shape in H as (ds & tail & E & Hds & Ht).
  rewrite E in Hin.
  apply in_app_or in Hin as [Hin|Hin].
  { simpl in Hin. repeat destruct Hin as [Hin|Hin]; try discriminate Hin; auto. }
  apply in_app_or in Hin as [Hin|Hin].
  { rewrite Forall_forall in Hds. apply Hds in Hin. discriminate Hin. }
  apply in_app_or in Hin as [Hin|Hin].
  { simpl in Hin. repeat destruct Hin as [Hin|Hin]; try discriminate Hin; auto. }
  destruct Ht as [-> | ->]; simpl in Hin.
  - auto.
  - destruct Hin as [Hin|Hin]; [discriminate Hin | auto].
Qed.

Lemma version_entry_not_printer_columns s :
  re_match pat_version_entry s = true ->
  re_search pat_printer_columns s = false.
Proof.
  intros H. destruct (re_search pat_printer_columns s) eqn:M; auto.
  exfalso. apply (version_entry_no_a _ H).
  apply re_search_lang in M. open_pattern M.
  apply lang_cat_inv in M as (u0 & v0 & -> & _ & M).
  apply lang_cat_inv in M as (u & v & -> & Hu & _).
  apply lang_cat_inv in Hu as (u1 & u' & -> & _ & Hu).
  apply lang_cat_inv in Hu as (u2 & u3 & -> & _ & H3).
  apply lang_lit in H3. subst u3.
  apply in_or_app. right. apply in_or_app. left.
  apply in_or_app. right. apply in_or_app. right.
  simpl. do 2 right. left. reflexivity.
Qed.

(** C5. A change whose path matches [^spec\.versions\[\d+\]$] and whose
    type is [item_removed] is annotated DANGER [crd_version_removed], not
    [crd_property_removed]: the test for a removed version stands before
    the test for a removed property, which asks for [item_removed] too (it
    is what a removed schema property gets). *)
Theorem removed_version_is_crd_version_removed (fc : FieldChange) :
  re_match pat_version_entry (path fc) = true ->
  change_type fc = "item_removed" ->
  _classify_single fc
  = _annotation DANGER "crd_version_removed" "CRD version removed" (path fc) /\
  rule (_classify_single fc) <> "crd_property_removed" /\
  (forall o n,
     rule (_classify_single
             (mkFieldChange
                "spec.versions[0].schema.openAPIV3Schema.properties.size"
                o n "item_removed"))
     = "crd_property_removed").
Proof.
  intros Hpath Hct.
  assert (_classify_single fc
          = _annotation DANGER "crd_version_removed" "CRD version removed"
              (path fc)) as E.
  { unfold _classify_single. cbv zeta.
    rewrite (version_entry_not_metadata _ Hpath).
    rewrite (version_entry_not_printer_columns _ Hpath).
    rewrite Hpath, Hct. simpl.
    rewrite andb_false_r. reflexivity. }
  rewrite E. split; [reflexivity|]. split.
  - simpl. discriminate.
  - intros o n. vm_compute. reflexivity.
Qed.


(** ** C7: the type check *)

(** C7. In [_check_type] a null value passes whatever the declared type
    is, and a boolean does not pass for ['integer'], although the host
    counts [bool] among the instances of [int]; the walker reports the
    boolean as a type mismatch. *)
Theorem check_type_null_passes_bool_not_integer :
  (forall schema_type, _check_type Null schema_type = Ok true) /\
  (forall b, _check_type (Bool b) (Str "integer") = Ok false) /\
  (forall b, isinstance_of (Bool b) "integer" = Some true) /\
  (forall self b path,
     validate_body self (Bool b) (Map [("type", Str "integer")]) path
     = Ok [fstr ["At '"; path; "': expected type 'integer', got 'bool'"]]).
Proof.
  split; [|split; [|split]].
  - intros t. reflexivity.
  - intros b. reflexivity.
  - intros b. reflexivity.
  - intros self b path. reflexivity.
Qed.

(** ** C4: stored versions *)

Lemma py_eq_Str_iff s v : py_eq (Str s) v = true <-> v = Str s.
Proof.
  destruct v; simpl; split; try discriminate; intros H.
  - apply String.eqb_eq in H. now subst.
  - injection H as ->. apply String.eqb_refl.
Qed.

Lemma list_contains_Str_iff s names :
  list_contains (Str s) names = true <-> In (Str s) names.
Proof.
  unfold list_contains. rewrite existsb_exists. split.
  - intros (y & Hin & Hy). apply py_eq_Str_iff in Hy. now subst.
  - intros Hin. exists (Str s). split; auto. now apply py_eq_Str_iff.
Qed.

Lemma orphaned_nonempty_iff svs names :
  orphaned svs names <> [] <-> exists sv, In sv svs /\ ~ In (Str sv) names.
Proof.
  unfold orphaned. rewrite filter_nonempty_iff. split.
  - intros (sv & Hin & Hc). exists sv. split; auto.
    rewrite <- list_contains_Str_iff.
    destruct (list_contains (Str sv) names); [discriminate | congruence].
  - intros (sv & Hin & Hc). exists sv. split; auto.
    rewrite <- list_contains_Str_iff in Hc.
    destruct (list_contains (Str sv) names); [congruence | reflexivity].
Qed.

Lemma stored_version_loop names svs : forall warnings,
  for_each (map Str svs) warnings (fun warnings sv =>
      present <- set_contains sv names ;;
      if negb present then Ok (warnings ++ [stored_version_warning sv])
      else Ok warnings)
  = Ok (warnings
        ++ map (fun sv => stored_version_warning (Str sv)) (orphaned svs names)).
Proof.
  induction svs as [|sv rest IH]; intros acc; simpl.
  - now rewrite app_nil_r.
  - destruct (list_contains (Str sv) names); simpl.
    + apply IH.
    + rewrite IH. now rewrite <- app_assoc.
Qed.

(** An absent [status] or [storedVersions] reads as the empty list. *)
Lemma stored_versions_absent old_crd m :
  res_body old_crd = Map m ->
  lookup "status" m = None \/
  (exists st, lookup "status" m = Some (Map st)
              /\ lookup "storedVersions" st = None) ->
  stored_versions_of old_crd = Ok (Seq (map Str [])).
Proof.
  intros Hb H. unfold stored_versions_of. rewrite Hb. simpl.
  destruct H as [-> | (st & -> & Hst)]; simpl.
  - reflexivity.
  - now rewrite Hst.
Qed.

(** C4. Let the installed CRD list the stored versions [svs] (the empty
    list when [status.storedVersions] is absent).  With none listed the
    check returns no warning, whatever the proposed CRD is.  Otherwise,
    with [names] the names of the proposed [spec.versions], it returns one
    warning per listed version that is not among [names], in the order of
    the list; so it warns if and only if some stored version is missing
    from the proposed names. *)
Theorem stored_version_warning_iff_orphaned
    (old_crd new_crd : Resource) (svs : list string) :
  stored_versions_of old_crd = Ok (Seq (map Str svs)) ->
  (svs = [] -> check_stored_version_safety old_crd new_crd = Ok []) /\
  (forall names,
     version_names_of new_crd = Ok names ->
     exists warnings,
       check_stored_version_safety old_crd new_crd = Ok warnings /\
       warnings = map (fun sv => stored_version_warning (Str sv))
                      (orphaned svs names) /\
       length warnings = length (orphaned svs names) /\
       (warnings <> [] <->
        exists sv, In sv svs /\ ~ In (Str sv) names)).
Proof.
  intros Hold. split.
  - intros ->. unfold check_stored_version_safety. rewrite Hold. reflexivity.
  - intros names Hnew.
    exists (map (fun sv => stored_version_warning (Str sv)) (orphaned svs names)).
    split; [|split; [reflexivity|split]].
    + unfold check_stored_version_safety. rewrite Hold. simpl.
      destruct svs as [|sv rest]; [reflexivity|].
      cbn [map py_truthy negb]. rewrite Hnew. cbn [bind py_iter].
      apply (stored_version_loop names (sv :: rest) []).
    + now rewrite length_map.
    + rewrite <- orphaned_nonempty_iff. split.
      * intros H E. rewrite E in H. now apply H.
      * intros H E. apply map_eq_nil in E. now apply H.
Qed.


(** ** C9: ownership conflicts *)

Ltac ok_inv H :=
  let a := fresh "v" in
  let Ha := fresh "Hv" in
  apply bind_ok_inv in H as (a & Ha & H).

Lemma check_crd_ownership_not_empty crd expected_release c :
  check_crd_ownership crd expected_release = Some c ->
  String.eqb c "" = false.
Proof.
  unfold check_crd_ownership. cbv zeta.
  split_ifs; intros H; try discriminate H; injection H as <-; reflexivity.
Qed.

Lemma process_pair_ownership release_name kube_opts p chs detail old_crd :
  old p = Some old_crd ->
  process_pair release_name kube_opts (p, chs) = Ok detail ->
  ownership_conflict detail = check_crd_ownership old_crd release_name.
Proof.
  intros Hold H. unfold process_pair in H. rewrite Hold in H.
  ok_inv H. ok_inv H. ok_inv H. injection H as <-. simpl.
  destruct (check_crd_ownership old_crd release_name) as [c|] eqn:E; auto.
  now rewrite (check_crd_ownership_not_empty _ _ E).
Qed.

(** C9. For every CRD [crd], so for every CRD that is both installed and
    proposed, and the release name of the run, the ownership check gives:
    - manager [unknown]: no conflict;
    - a manager that is neither [unknown] nor [helm]: the conflict says
      that the CRD is managed by that manager, not Helm;
    - manager [helm], with a detected release that differs from the
      release name of the run (a release and a release name are strings
      that are not empty): the conflict names both.
    Besides, manager [helm] without a detected release, without a release
    name of the run, or with the two equal gives no conflict; and the
    pipeline records the result of the check for every entry it processes
    that has an installed copy. *)
Theorem crd_ownership_conflict_cases
    (crd : Resource) (expected_release : option string) :
  let o := detect_ownership crd in
  (manager o = "unknown" ->
   check_crd_ownership crd expected_release = None) /\
  (manager o <> "unknown" -> manager o <> "helm" ->
   check_crd_ownership crd expected_release
   = Some (fstr ["CRD '"; name crd; "' is managed by "; manager o;
                 app_note o; ", not Helm"])) /\
  (manager o = "helm" ->
   forall rel exp,
     release o = Some rel -> expected_release = Some exp ->
     rel <> "" -> exp <> "" -> rel <> exp ->
     check_crd_ownership crd expected_release
     = Some (fstr ["CRD '"; name crd; "' is owned by Helm release '"; rel;
                   "', not the current release '"; exp; "'"])) /\
  (manager o = "helm" ->
   str_truthy (release o) = false \/ str_truthy expected_release = false
   \/ release o = expected_release ->
   check_crd_ownership crd expected_release = None) /\
  (forall kube_opts p chs detail,
     old p = Some crd ->
     process_pair expected_release kube_opts (p, chs) = Ok detail ->
     ownership_conflict detail = check_crd_ownership crd expected_release).
Proof.
  intros o. subst o. unfold check_crd_ownership. cbv zeta.
  split; [|split; [|split; [|split]]].
  - intros ->. reflexivity.
  - intros Hu Hh.
    apply String.eqb_neq in Hu. apply String.eqb_neq in Hh.
    rewrite Hu, Hh. reflexivity.
  - intros Hm rel exp Hrel Hexp Hr He Hne.
    rewrite Hm, Hrel, Hexp. simpl.
    apply String.eqb_neq in Hr. apply String.eqb_neq in He.
    apply String.eqb_neq in Hne. rewrite Hr, He, Hne. reflexivity.
  - intros Hm H. rewrite Hm. simpl.
    destruct H as [H|[H|H]].
    + rewrite H. now rewrite andb_false_r.
    + now rewrite H.
    + rewrite H.
      assert (option_str_eqb expected_release expected_release = true) as ->.
      { destruct expected_release; simpl; auto using String.eqb_refl. }
      simpl. now rewrite andb_false_r.
  - intros kube_opts p chs detail Hold H.
    apply (process_pair_ownership _ _ _ _ Hold H).
Qed.

(** ** C8: unreadable files of the [crds/] folder *)

Lemma Forall_insert_sorted {A} (P : string * A -> Prop) e l :
  P e -> Forall P l -> Forall P (insert_sorted e l).
Proof.
  intros He Hl. induction Hl as [|x l Hx Hl IH]; simpl.
  - auto.
  - destruct (String.leb (fst e) (fst x)); auto.
Qed.

Lemma Forall_sorted {A} (P : string * A -> Prop) (l : list (string * A)) :
  Forall P l -> Forall P (sorted l).
Proof.
  unfold sorted. induction 1; simpl; auto using Forall_insert_sorted.
Qed.

Lemma Forall_glob {A} (P : string * A -> Prop) suffix (l : list (string * A)) :
  Forall P l -> Forall P (glob suffix l).
Proof.
  unfold glob. rewrite !Forall_forall. intros H x Hx.
  apply filter_In in Hx as [Hx _]. auto.
Qed.

Lemma read_crd_file_spec resources yaml_file :
  reads_or_skips yaml_file = true ->
  read_crd_file resources yaml_file = Ok (resources ++ crds_of_file yaml_file).
Proof.
  unfold reads_or_skips, read_crd_file, crds_of_file.
  destruct (snd yaml_file) as [text|e]; simpl.
  - destruct (parse_multi_doc text "") as [parsed|e]; simpl.
    + reflexivity.
    + destruct e; intros H; try discriminate H; now rewrite app_nil_r.
  - destruct e; intros H; try discriminate H; now rewrite app_nil_r.
Qed.

Lemma read_crd_files_spec files : forall resources,
  Forall (fun f => reads_or_skips f = true) files ->
  for_each files resources read_crd_file
  = Ok (resources ++ flat_map crds_of_file files).
Proof.
  induction files as [|f rest IH]; intros acc H; simpl.
  - now rewrite app_nil_r.
  - inversion H; subst.
    rewrite read_crd_file_spec by assumption. simpl.
    rewrite IH by assumption. now rewrite <- app_assoc.
Qed.

Lemma pipeline_warnings upgrade chart_path policy_mode release_name kube_opts report :
  run_crd_pipeline upgrade chart_path policy_mode release_name kube_opts
  = Ok report ->
  warnings report = [] \/ warnings report = [could_not_retrieve].
Proof.
  unfold run_crd_pipeline. cbv zeta. intros H.
  ok_inv H. destruct v as [|c cs].
  - injection H as <-. now left.
  - ok_inv H. ok_inv H. ok_inv H. ok_inv H. injection H as <-.
    unfold set_policy. cbn [warnings].
    match goal with
    | |- context [match ?l with [] => _ | _ :: _ => _ end] => destruct l
    end; simpl; auto.
Qed.

(** C8 (amended). Let the files of the chart's [crds/] folder each read
    and parse, or fail with an IO or YAML error.  Then the extraction
    returns the CRDs of the files that read and parse, the [*.yaml] files
    first and the [*.yml] files after them, each group by name: a failing
    file adds nothing and stops nothing.  The failure is not reported:
    whatever the folder holds, the warnings of a report are empty or the
    one message about installed CRDs that could not be retrieved. *)
Theorem crd_file_errors_are_skipped_silently
    (chart_path : string) (entries : list (string * result string)) :
  crds_dir chart_path = Some entries ->
  Forall (fun f => reads_or_skips f = true) entries ->
  extract_crds_from_chart_dir chart_path
  = Ok (flat_map crds_of_file (sorted (glob ".yaml" entries))
        ++ flat_map crds_of_file (sorted (glob ".yml" entries))) /\
  (forall resources f,
     In f entries -> crds_of_file f = [] ->
     read_crd_file resources f = Ok resources) /\
  (forall upgrade policy_mode release_name kube_opts report,
     run_crd_pipeline upgrade (Some chart_path) policy_mode release_name
       kube_opts = Ok report ->
     warnings report = [] \/ warnings report = [could_not_retrieve]).
Proof.
  intros Hdir Hall. split; [|split].
  - unfold extract_crds_from_chart_dir. rewrite Hdir.
    rewrite read_crd_files_spec by auto using Forall_sorted, Forall_glob.
    simpl.
    rewrite read_crd_files_spec by auto using Forall_sorted, Forall_glob.
    reflexivity.
  - intros resources f Hin Hnone.
    rewrite Forall_forall in Hall.
    rewrite read_crd_file_spec by auto. rewrite Hnone. now rewrite app_nil_r.
  - intros. eapply pipeline_warnings; eauto.
Qed.


(** ** C10: what the report holds *)

Lemma diff_crds_loop pairs : forall acc results,
  for_each pairs acc (fun results pair =>
    if String.eqb (pair_status pair) "added"
       || String.eqb (pair_status pair) "removed" then
      Ok (results ++ [(pair, [])])
    else if String.eqb (pair_status pair) "unchanged" then
      Ok results
    else
      match old pair, new pair with
      | Some o, Some n =>
          let old_body := strip_noise (res_body o) CRD_NOISE_PATHS in
          let new_body := strip_noise (res_body n) CRD_NOISE_PATHS in
          let old_body := normalize_body old_body in
          let new_body := normalize_body new_body in
          if is_semantically_equal old_body new_body then Ok results
          else
            let changes := extract_changes old_body new_body in
            match changes with
            | _ :: _ => Ok (results ++ [(pair, changes)])
            | [] => Ok results
            end
      | _, _ => Raise AssertionError
      end) = Ok results ->
  forall e, In e results ->
    In e acc \/ (In (fst e) pairs /\ kept (fst e) (snd e)).
Proof.
  induction pairs as [|p rest IH]; intros acc results H e He; simpl in H.
  - injection H as <-. auto.
  - ok_inv H. specialize (IH _ _ H e He) as [Hin | [Hin Hk]].
    2:{ right. split; [now right | exact Hk]. }
    clear H.
    destruct (String.eqb (pair_status p) "added") eqn:Ea.
    { simpl in Hv. injection Hv as <-.
      apply in_app_or in Hin as [Hin|[<-|[]]]; auto.
      right. split; [now left|]. left. apply String.eqb_eq in Ea. auto. }
    destruct (String.eqb (pair_status p) "removed") eqn:Er.
    { simpl in Hv. injection Hv as <-.
      apply in_app_or in Hin as [Hin|[<-|[]]]; auto.
      right. split; [now left|]. left. apply String.eqb_eq in Er. auto. }
    simpl in Hv.
    destruct (String.eqb (pair_status p) "unchanged") eqn:Eu.
    { injection Hv as <-. auto. }
    destruct (old p) as [o|] eqn:Eo; [|discriminate Hv].
    destruct (new p) as [n|] eqn:En; [|discriminate Hv].
    cbv zeta in Hv.
    destruct (is_semantically_equal _ _) eqn:Es.
    { injection Hv as <-. auto. }
    destruct (extract_changes _ _) as [|c cs] eqn:Ec.
    { injection Hv as <-. auto. }
    injection Hv as <-.
    apply in_app_or in Hin as [Hin|[<-|[]]]; auto.
    right. split; [now left|]. right. simpl.
    apply String.eqb_neq in Ea, Er, Eu.
    repeat split; auto. exists o, n. repeat split; auto. discriminate.
Qed.

Lemma diff_crds_kept pairs results :
  diff_crds pairs = Ok results ->
  forall p chs, In (p, chs) results -> In p pairs /\ kept p chs.
Proof.
  intros H p chs Hin.
  destruct (diff_crds_loop _ _ H _ Hin) as [[]|Hk]. exact Hk.
Qed.

Lemma collect_loop {A B} (f : A -> result B) (l : list A) : forall acc res,
  for_each l acc (fun acc x => y <- f x ;; Ok (acc ++ [y])) = Ok res ->
  forall y, In y res -> In y acc \/ exists x, In x l /\ f x = Ok y.
Proof.
  induction l as [|x rest IH]; intros acc res H y Hy; simpl in H.
  - injection H as <-. auto.
  - ok_inv H. ok_inv Hv. injection Hv as <-.
    destruct (IH _ _ H y Hy) as [Hin | (x' & Hx' & Hf)].
    + apply in_app_or in Hin as [Hin|[<-|[]]]; auto.
      right. exists x. split; [now left | assumption].
    + right. exists x'. split; [now right | assumption].
Qed.

Lemma process_pair_fields release_name kube_opts p chs detail :
  process_pair release_name kube_opts (p, chs) = Ok detail ->
  cd_status detail = pair_status p /\ changes detail = chs /\
  pair_named p (cd_name detail).
Proof.
  intros H. unfold process_pair in H.
  ok_inv H. ok_inv H. ok_inv H. injection H as <-. simpl.
  repeat split. unfold pair_named.
  destruct (new p); [now injection Hv as -> |].
  destruct (old p); [now injection Hv as -> | discriminate].
Qed.

Lemma dict_get_set {V} k k' (v : V) d :
  dict_get k (dict_set k' v d)
  = if String.eqb k k' then Some v else dict_get k d.
Proof.
  induction d as [|[k0 v0] rest IH]; simpl.
  - reflexivity.
  - destruct (String.eqb k' k0) eqn:E0; simpl.
    + apply String.eqb_eq in E0. subst k0.
      destruct (String.eqb k k'); reflexivity.
    + rewrite IH. destruct (String.eqb k k0) eqn:E1; auto.
      apply String.eqb_eq in E1. subst k0.
      destruct (String.eqb k k') eqn:E2; auto.
      apply String.eqb_eq in E2. subst k'.
      rewrite String.eqb_refl in E0. discriminate.
Qed.

Lemma by_name_keys resources k r :
  dict_get k (by_name resources) = Some r -> name r = k.
Proof.
  unfold by_name.
  assert (forall l d,
            (forall k r, dict_get k d = Some r -> name r = k) ->
            forall k r,
              dict_get k (fold_left (fun d r => dict_set (name r) r d) l d)
              = Some r -> name r = k) as G.
  { induction l as [|x l IH]; intros d Hd k0 r0; simpl; [apply Hd|].
    apply IH. intros k1 r1. rewrite dict_get_set.
    destruct (String.eqb k1 (name x)) eqn:E.
    - intros [= <-]. apply String.eqb_eq in E. auto.
    - apply Hd. }
  apply G. intros k0 r0 H. discriminate H.
Qed.

Lemma pair_of_name_named installed proposed k nm :
  pair_named (pair_of_name (by_name installed) (by_name proposed) k) nm ->
  nm = k.
Proof.
  unfold pair_of_name, pair_named. cbv zeta.
  destruct (dict_get k (by_name installed)) as [o|] eqn:Eo;
    destruct (dict_get k (by_name proposed)) as [n|] eqn:En; simpl.
  - destruct (py_eq _ _); simpl; intros <-; eapply by_name_keys; eassumption.
  - intros <-. eapply by_name_keys; eassumption.
  - intros <-. eapply by_name_keys; eassumption.
  - intros [].
Qed.

(** C10. In a report of [run_crd_pipeline], a detail with status
    [changed] has at least one change, and no detail has status
    [unchanged].  A CRD that is paired (installed under the name it is
    proposed under) with bodies that differ but are semantically equal
    after CRD noise stripping and normalization has no detail in the
    report. *)
Theorem report_details_changed_or_absent
    (upgrade : list Resource) (chart_path : option string)
    (policy_mode : CrdPolicyMode) (release_name : option string)
    (kube_opts : KubeOpts) (report : CrdReport) :
  run_crd_pipeline upgrade chart_path policy_mode release_name kube_opts
  = Ok report ->
  (forall d, In d (crds report) ->
     (cd_status d = "changed" -> changes d <> []) /\
     cd_status d <> "unchanged") /\
  (forall proposed installed nm o n,
     proposed_crds_of upgrade chart_path = Ok proposed ->
     discover_cluster_crds kube_opts = Ok installed ->
     dict_get nm (by_name (relevant proposed installed)) = Some o ->
     dict_get nm (by_name proposed) = Some n ->
     py_eq (res_body o) (res_body n) = false ->
     is_semantically_equal (crd_view o) (crd_view n) = true ->
     forall d, In d (crds report) -> cd_name d <> nm).
Proof.
  unfold run_crd_pipeline. cbv zeta. intros H.
  ok_inv H. rename v into proposed, Hv into Hprop.
  destruct proposed as [|c cs].
  { injection H as <-. simpl. split; [intros d []|].
    intros; auto. }
  ok_inv H. rename v into installed, Hv into Hinst.
  ok_inv H. rename v into results, Hv into Hdiff.
  ok_inv H. rename v into details, Hv into Hloop.
  ok_inv H. injection H as <-. unfold set_policy. cbn [crds].
  assert (forall d, In d details ->
            exists p chs, In p (pair_crds (relevant (c :: cs) installed) (c :: cs))
                          /\ kept p chs
                          /\ cd_status d = pair_status p
                          /\ changes d = chs
                          /\ pair_named p (cd_name d)) as Hd.
  { intros d Hin.
    destruct (collect_loop _ _ _ Hloop d Hin) as [Hin0 | ([p chs] & Hx & Hp)].
    - destruct installed; destruct Hin0.
    - destruct (diff_crds_kept _ Hdiff _ _ Hx) as [Hpairs Hkept].
      destruct (process_pair_fields _ _ _ _ Hp) as (Hs & Hc & Hn).
      exists p, chs. auto. }
  split.
  - intros d Hin. destruct (Hd d Hin) as (p & chs & _ & Hk & Hs & Hc & _).
    rewrite Hs, Hc. destruct Hk as [[Hk ->] | (Ha & Hr & Hu & _ & _ & _ & _ & _ & Hne)].
    + split; [|destruct Hk as [-> | ->]; discriminate].
      intros E. rewrite E in Hk. destruct Hk; discriminate.
    + auto.
  - intros proposed0 installed0 nm o n Hp0 Hi0 Ho Hn Hne Hsem d Hin Hname.
    rewrite Hprop in Hp0. injection Hp0 as <-.
    rewrite Hinst in Hi0. injection Hi0 as <-.
    destruct (Hd d Hin) as (p & chs & Hpairs & Hk & Hs & Hc & Hnamed).
    unfold pair_crds in Hpairs. cbv zeta in Hpairs.
    apply in_map_iff in Hpairs as (k & <- & _).
    apply pair_of_name_named in Hnamed. rewrite Hname in Hnamed. subst k.
    unfold pair_of_name in Hk. cbv zeta in Hk.
    rewrite Ho, Hn, Hne in Hk.
    destruct Hk as [[[Hk|Hk] _] | (_ & _ & _ & o' & n' & Eo & En & Hs' & _)].
    + discriminate Hk.
    + discriminate Hk.
    + simpl in Eo, En. injection Eo as <-. injection En as <-.
      rewrite Hsem in Hs'. discriminate.
Qed.

(** ** C2: the exit status of [diff] *)

Lemma analyse_cases a :
  (primary_run_error a /\ exists msg, analyse a = ThrowRun msg) \/
  (~ primary_run_error a /\
   ((exists e, analyse a = Throw e) \/ (exists an, analyse a = Go an))).
Proof.
  unfold primary_run_error, analyse. cbv zeta.
  destruct (get_manifest _ _ _) as [live_yaml|msg] eqn:Eg; simpl.
  2:{ left. split; eauto. }
  destruct (parse_multi_doc live_yaml _) as [live|e] eqn:Ep; simpl.
  2:{ right. split; [|eauto].
      intros [(m & Hm)|(ly & l & m & H1 & H2 & _)]; [discriminate|].
      injection H1 as <-. rewrite Ep in H2. discriminate. }
  destruct (dry_run_upgrade _ _ _ _ _ _ _) as [upgrade_yaml|msg] eqn:Ed; simpl.
  2:{ left. split; [|eauto]. right. exists live_yaml, live, msg. auto. }
  right. split.
  { intros [(m & Hm)|(ly & l & m & _ & _ & H3)]; discriminate. }
  destruct (parse_multi_doc upgrade_yaml _) as [up|e]; simpl; [|eauto].
  destruct (a_server_side a); simpl.
  - destruct (_apply_server_side _ _ _) as [up'|e]; simpl; [|eauto].
    destruct (a_check_crds a); [|eauto].
    destruct (_run_crd_analysis _ _ _ _ _) as [r|e]; simpl; eauto.
  - destruct (a_check_crds a); [|eauto].
    destruct (_run_crd_analysis _ _ _ _ _) as [r|e]; simpl; eauto.
Qed.

Lemma blocked_by_policy_iff a an :
  analyse a = Go an ->
  blocked_by_policy a <-> policy_blocks (crd_report an) = true.
Proof.
  intros Han. unfold blocked_by_policy, policy_blocks. split.
  - intros (an' & report & pr & H1 & H2 & H3 & H4).
    rewrite Han in H1. injection H1 as <-. now rewrite H2, H3.
  - destruct (crd_report an) as [report|] eqn:Er; [|discriminate].
    destruct (policy_result report) as [pr|] eqn:Ep; [|discriminate].
    intros Hb. exists an, report, pr. auto.
Qed.



(** ** C6: the errors of the schema walker *)

Lemma for_each_inv {A S} (P : S -> Prop) (body : S -> A -> result S) l :
  forall acc res,
    P acc ->
    (forall acc x acc', In x l -> P acc -> body acc x = Ok acc' -> P acc') ->
    for_each l acc body = Ok res -> P res.
Proof.
  induction l as [|x rest IH]; intros acc res Hacc Hstep H; simpl in H.
  - now injection H as <-.
  - ok_inv H. apply (IH v res); auto.
    + apply (Hstep acc x); auto. now left.
    + intros a y a' Hy. apply Hstep. now right.
Qed.

Lemma for_each_total {A S} (body : S -> A -> result S) l :
  (forall acc x, In x l -> exists acc', body acc x = Ok acc') ->
  forall acc, exists res, for_each l acc body = Ok res.
Proof.
  induction l as [|x rest IH]; intros Hstep acc; simpl.
  - eauto.
  - destruct (Hstep acc x) as (acc' & ->); [now left|]. simpl.
    apply IH. intros a y Hy. apply Hstep. now right.
Qed.

Ltac located_now :=
  match goal with
  | |- located (fstr ("At '" :: ?p :: _)) =>
      unfold located, fstr; simpl; eexists p, _; reflexivity
  end.

Ltac grow_located :=
  apply Forall_app; split; [assumption | constructor; [located_now | constructor]].

Lemma enum_block_located value sch path errors errors' :
  Forall located errors ->
  enum_block value sch path errors = Ok errors' -> Forall located errors'.
Proof.
  unfold enum_block. intros He H.
  destruct (lookup "enum" sch); [|now injection H as <-].
  ok_inv H. destruct (negb v); injection H as <-; [grow_located | assumption].
Qed.

Lemma pattern_block_located value sch path errors errors' :
  Forall located errors ->
  pattern_block value sch path errors = Ok errors' -> Forall located errors'.
Proof.
  unfold pattern_block. intros He H.
  destruct (lookup "pattern" sch) as [pat|]; destruct value;
    try (now injection H as <-).
  destruct pat; try discriminate H.
  destruct (py_re_match _ _) as [[|]|]; injection H as <-;
    [assumption | grow_located | assumption].
Qed.

Lemma minimum_block_located value sch path errors errors' :
  Forall located errors ->
  minimum_block value sch path errors = Ok errors' -> Forall located errors'.
Proof.
  unfold minimum_block. intros He H.
  destruct (lookup "minimum" sch); [|now injection H as <-].
  destruct (is_number value); [|now injection H as <-].
  ok_inv H. destruct v; injection H as <-; [grow_located | assumption].
Qed.

Lemma maximum_block_located value sch path errors errors' :
  Forall located errors ->
  maximum_block value sch path errors = Ok errors' -> Forall located errors'.
Proof.
  unfold maximum_block. intros He H.
  destruct (lookup "maximum" sch); [|now injection H as <-].
  destruct (is_number value); [|now injection H as <-].
  ok_inv H. destruct v; injection H as <-; [grow_located | assumption].
Qed.

Section Walker.
Variable self : Node -> Node -> string -> result (list string).
Hypothesis self_located :
  forall v s p errs, self v s p = Ok errs -> Forall located errs.

Lemma required_loop_located val path reqs errors errors' :
  Forall located errors ->
  required_loop val path reqs errors = Ok errors' -> Forall located errors'.
Proof.
  unfold required_loop. intros He H.
  revert H. apply (@for_each_inv _ _ (Forall located) _ _ _ _ He).
  clear. intros acc req acc' _ Ha H.
  ok_inv H. destruct (negb v); injection H as <-; [grow_located | assumption].
Qed.

Lemma properties_loop_located val path props errors errors' :
  Forall located errors ->
  properties_loop self val path props errors = Ok errors' ->
  Forall located errors'.
Proof using self_located.
  unfold properties_loop. intros He H.
  revert H. apply (@for_each_inv _ _ (Forall located) _ _ _ _ He).
  intros acc prop acc' _ Ha Hb.
  destruct (lookup (fst prop) val); [|now injection Hb as <-].
  ok_inv Hb. injection Hb as <-. apply Forall_app. eauto.
Qed.

Lemma additional_block_located val path props additional errors errors' :
  Forall located errors ->
  additional_block self val path props additional errors = Ok errors' ->
  Forall located errors'.
Proof using self_located.
  unfold additional_block. intros He H.
  destruct additional as [ |[|]| | | | | ]; try (now injection H as <-).
  - revert H. apply (@for_each_inv _ _ (Forall located) _ _ _ _ He).
    intros acc kv acc' _ Ha Hb.
    destruct (_ && _); injection Hb as <-; [grow_located | assumption].
  - revert H. apply (@for_each_inv _ _ (Forall located) _ _ _ _ He).
    intros acc kv acc' _ Ha Hb.
    destruct (negb _); [|now injection Hb as <-].
    ok_inv Hb. injection Hb as <-. apply Forall_app. eauto.
Qed.

Lemma object_block_located value sch path errors errors' :
  Forall located errors ->
  object_block self value sch path errors = Ok errors' ->
  Forall located errors'.
Proof using self_located.
  unfold object_block. intros He H.
  destruct value; try (now injection H as <-).
  destruct (py_eq _ _); [|now injection H as <-].
  cbv zeta in H. ok_inv H. ok_inv H.
  destruct (properties_of sch); try discriminate H.
  ok_inv H.
  eauto using required_loop_located, properties_loop_located,
    additional_block_located.
Qed.

Lemma array_block_located value sch path errors errors' :
  Forall located errors ->
  array_block self value sch path errors = Ok errors' ->
  Forall located errors'.
Proof using self_located.
  unfold array_block, items_loop. intros He H.
  destruct value; try (now injection H as <-).
  destruct (py_eq _ _); [|now injection H as <-].
  ok_inv H. injection H as <-.
  revert Hv.
  apply (@for_each_inv _ _ (fun st => Forall located (snd st)) _ _
           (0%nat, errors) _ He).
  intros acc item acc' _ Ha Hb.
  ok_inv Hb. injection Hb as <-. simpl. apply Forall_app. eauto.
Qed.

Lemma validate_body_located value schema path errs :
  validate_body self value schema path = Ok errs -> Forall located errs.
Proof using self_located.
  unfold validate_body. cbv zeta. intros H.
  destruct schema; try (injection H as <-; constructor).
  ok_inv H. destruct (negb v).
  - injection H as <-. simpl. constructor; [|constructor].
    unfold type_mismatch. located_now.
  - ok_inv H. ok_inv H. ok_inv H. ok_inv H. ok_inv H.
    assert (Forall located (@nil string)) as H0 by constructor.
    match goal with
    | E : enum_block _ _ _ _ = Ok _ |- _ =>
        apply (enum_block_located _ _ _ H0) in E
    end.
    match goal with
    | E : pattern_block _ _ _ _ = Ok _, F : Forall located _ |- _ =>
        apply (pattern_block_located _ _ _ F) in E
    end.
    match goal with
    | E : minimum_block _ _ _ _ = Ok _, F : Forall located _ |- _ =>
        apply (minimum_block_located _ _ _ F) in E
    end.
    match goal with
    | E : maximum_block _ _ _ _ = Ok _, F : Forall located _ |- _ =>
        apply (maximum_block_located _ _ _ F) in E
    end.
    match goal with
    | E : object_block _ _ _ _ _ = Ok _, F : Forall located _ |- _ =>
        apply (object_block_located _ _ _ F) in E
    end.
    match goal with
    | F : Forall located _ |- _ =>
        apply (array_block_located _ _ _ F H)
    end.
Qed.
End Walker.

Lemma validate_within_located limit : forall value schema path errs,
  validate_within limit value schema path = Ok errs -> Forall located errs.
Proof.
  induction limit as [|n IH]; simpl; intros value schema path errs H.
  - discriminate H.
  - eapply validate_body_located; eauto.
Qed.


(** *** A well-formed schema is walked without an exception *)

Lemma check_type_total value t :
  type_decl_ok t = true ->
  exists b, (if py_truthy t then _check_type value t else Ok true) = Ok b.
Proof.
  intros Ht. destruct (py_truthy t) eqn:Et; [|eauto].
  unfold _check_type.
  destruct value; [eauto|..];
    (destruct t as [ | | | |ty|[|]|[|]];
     try discriminate Ht; try discriminate Et; eauto;
     destruct (isinstance_of _ ty); eauto; destruct (_ && _); eauto).
Qed.

Lemma enum_block_total value sch path errors :
  local_ok sch = true -> exists res, enum_block value sch path errors = Ok res.
Proof.
  unfold local_ok, enum_block. intros H.
  repeat (apply andb_true_iff in H as [H ?]).
  destruct (lookup "enum" sch) as [e|]; [|eauto].
  destruct e; try discriminate. simpl. destruct (negb _); eauto.
Qed.

Lemma pattern_block_total value sch path errors :
  local_ok sch = true -> exists res, pattern_block value sch path errors = Ok res.
Proof.
  unfold local_ok, pattern_block. intros H.
  repeat (apply andb_true_iff in H as [H ?]).
  destruct (lookup "pattern" sch) as [pat|]; [|eauto].
  destruct value; eauto.
  destruct pat; try discriminate.
  destruct (py_re_match _ _) as [[|]|]; eauto.
Qed.

Lemma py_lt_total value bound :
  is_number value = true -> bound_ok (Some bound) = true ->
  (exists b, py_lt value bound = Ok b) /\ (exists b, py_gt value bound = Ok b).
Proof.
  unfold bound_ok, py_gt, py_lt. intros Hv Hb.
  destruct (as_number bound); [|discriminate].
  assert (exists x, as_number value = Some x) as (x & ->).
  { destruct value; try discriminate Hv; simpl; eauto. destruct f; eauto. }
  split; eauto.
Qed.

Lemma minimum_block_total value sch path errors :
  local_ok sch = true ->
  exists res, minimum_block value sch path errors = Ok res.
Proof.
  unfold local_ok, minimum_block. intros H.
  repeat (apply andb_true_iff in H as [H ?]).
  destruct (lookup "minimum" sch) as [m|]; [|eauto].
  destruct (is_number value) eqn:Ev; [|eauto].
  destruct (py_lt_total value m) as [(b & ->) _]; auto.
  simpl. destruct b; eauto.
Qed.

Lemma maximum_block_total value sch path errors :
  local_ok sch = true ->
  exists res, maximum_block value sch path errors = Ok res.
Proof.
  unfold local_ok, maximum_block. intros H.
  repeat (apply andb_true_iff in H as [H ?]).
  destruct (lookup "maximum" sch) as [m|]; [|eauto].
  destruct (is_number value) eqn:Ev; [|eauto].
  destruct (py_lt_total value m) as [_ (b & ->)]; auto.
  simpl. destruct b; eauto.
Qed.

Lemma dict_contains_total req val :
  hashable req = true -> exists b, dict_contains req val = Ok b.
Proof. destruct req; simpl; intros H; try discriminate H; eauto. Qed.

Lemma required_loop_total val path reqs errors :
  forallb hashable reqs = true ->
  exists res, required_loop val path reqs errors = Ok res.
Proof.
  intros H. unfold required_loop. apply for_each_total.
  intros acc req Hin. rewrite forallb_forall in H.
  destruct (dict_contains_total req val (H _ Hin)) as (b & ->).
  simpl. destruct (negb b); eauto.
Qed.

Section WalkerTotal.
Variable self : Node -> Node -> string -> result (list string).

Lemma properties_loop_total val path props errors :
  Forall (fun kv => walks self (snd kv)) props ->
  exists res, properties_loop self val path props errors = Ok res.
Proof.
  intros H. unfold properties_loop. apply for_each_total.
  intros acc prop Hin. rewrite Forall_forall in H.
  destruct (lookup (fst prop) val) as [sub|]; [|eauto].
  destruct (H _ Hin sub (child_path path (fst prop))) as (e & ->).
  simpl. eauto.
Qed.

Lemma additional_block_total val path props additional errors :
  (is_dict additional = true -> walks self additional) ->
  exists res,
    additional_block self val path props additional errors = Ok res.
Proof.
  intros H. unfold additional_block.
  destruct additional as [ |[|]| | | | |a]; eauto.
  - apply for_each_total. intros acc kv _. destruct (_ && _); eauto.
  - apply for_each_total. intros acc kv _.
    destruct (negb _); [|eauto].
    destruct (H eq_refl (snd kv) (child_path path (fst kv))) as (e & ->).
    simpl. eauto.
Qed.

Lemma items_loop_total items_schema path items : forall st,
  walks self items_schema ->
  exists res,
    for_each items st (fun st item =>
      sub_errors <- self item items_schema
                      (fstr [path; "["; str_of_nat (fst st); "]"]) ;;
      Ok (S (fst st), snd st ++ sub_errors)) = Ok res.
Proof.
  intros st H. apply for_each_total. intros acc item _.
  destruct (H item (fstr [path; "["; str_of_nat (fst acc); "]"])) as (e & ->).
  simpl. eauto.
Qed.
End WalkerTotal.


Lemma object_block_total self value sch path errors :
  (py_eq (schema_type_of sch) (Str "object") = true ->
   required_ok sch = true /\
   exists props,
     properties_of sch = Map props /\
     Forall (fun kv => walks self (snd kv)) props /\
     (is_dict (additional_of sch) = true -> walks self (additional_of sch))) ->
  exists res, object_block self value sch path errors = Ok res.
Proof.
  intros H. unfold object_block.
  destruct value; eauto.
  destruct (py_eq _ _); [|eauto].
  destruct (H eq_refl) as (Hreq & props & Hprops & Hwalk & Hadd).
  cbv zeta. unfold required_ok in Hreq.
  destruct (py_iter (required_of sch)) as [reqs|]; [|discriminate]. simpl.
  destruct (required_loop_total entries path reqs errors Hreq) as (e1 & ->).
  simpl. rewrite Hprops.
  destruct (@properties_loop_total self entries path props e1 Hwalk) as (e2 & ->).
  simpl. apply additional_block_total. exact Hadd.
Qed.

Lemma array_block_total self value sch path errors :
  (py_eq (schema_type_of sch) (Str "array") = true ->
   walks self (items_of sch)) ->
  exists res, array_block self value sch path errors = Ok res.
Proof.
  intros H. unfold array_block, items_loop.
  destruct value; eauto.
  destruct (py_eq _ _); [|eauto].
  destruct (@items_loop_total self (items_of sch) path items (0%nat, errors)
              (H eq_refl)) as (r & ->).
  simpl. eauto.
Qed.

Lemma validate_within_empty_schema n v p :
  validate_within (S n) v (Map []) p = Ok [].
Proof. simpl. unfold validate_body. simpl. destruct v; reflexivity. Qed.

Lemma validate_total n : forall schema,
  schema_ok_within n schema = true -> walks (validate_within (S n)) schema.
Proof.
  induction n as [|n IH]; intros schema H v p.
  - destruct schema; try solve [simpl; eauto]. discriminate H.
  - destruct schema as [ | | | | | |sch]; try solve [simpl; eauto].
    change (validate_within (S (S n)) v (Map sch) p)
      with (validate_body (validate_within (S n)) v (Map sch) p).
    cbn [schema_ok_within] in H.
    apply andb_true_iff in H as [H Harr].
    apply andb_true_iff in H as [Hloc Hobj].
    unfold validate_body. cbv zeta.
    assert (type_decl_ok (schema_type_of sch) = true) as Hty.
    { unfold local_ok in Hloc.
      repeat (apply andb_true_iff in Hloc as [Hloc ?]). exact Hloc. }
    destruct (check_type_total v _ Hty) as (b & ->). cbn [bind].
    destruct (negb b); [eauto|].
    destruct (enum_block_total v sch p [] Hloc) as (e1 & ->). cbn [bind].
    destruct (pattern_block_total v sch p e1 Hloc) as (e2 & ->). cbn [bind].
    destruct (minimum_block_total v sch p e2 Hloc) as (e3 & ->). cbn [bind].
    destruct (maximum_block_total v sch p e3 Hloc) as (e4 & ->). cbn [bind].
    destruct (@object_block_total (validate_within (S n)) v sch p e4)
      as (e5 & ->).
    { intros Eo. rewrite Eo in Hobj.
      apply andb_true_iff in Hobj as [Hobj Hadd].
      apply andb_true_iff in Hobj as [Hreq Hprops].
      split; [exact Hreq|].
      destruct (properties_of sch) as [ | | | | | |props]; try discriminate.
      exists props. split; [reflexivity|]. split.
      - apply Forall_forall. intros kv Hin.
        rewrite forallb_forall in Hprops. apply IH. auto.
      - intros Hd. destruct (additional_of sch); try discriminate Hd.
        apply IH. exact Hadd. }
    cbn [bind]. apply array_block_total.
    intros Ea. rewrite Ea in Harr. unfold items_of.
    destruct (lookup "items" sch) as [i|].
    + apply IH. exact Harr.
    + intros v' p'. rewrite validate_within_empty_schema. eauto.
Qed.

Lemma validate_object_total schema value path :
  schema_ok schema = true ->
  exists errs, _validate_object value schema path = Ok errs.
Proof. intros H. apply (validate_total _ _ H). Qed.

(** *** The frame limit of [_validate_object] is never met *)

Lemma for_each_ext {A S} (f g : S -> A -> result S) l :
  (forall acc x, In x l -> f acc x = g acc x) ->
  forall acc, for_each l acc f = for_each l acc g.
Proof.
  induction l as [|x rest IH]; intros H acc; simpl; [reflexivity|].
  rewrite (H acc x) by now left.
  destruct (g acc x) as [acc'|]; simpl; [|reflexivity].
  apply IH. intros acc0 y Hy. apply H. now right.
Qed.

Lemma depth_lookup k sch v :
  lookup k sch = Some v -> (depth v < depth (Map sch))%nat.
Proof.
  simpl. induction sch as [|[k' v'] rest IH]; simpl; [discriminate|].
  destruct (String.eqb k k').
  - intros [= ->]. lia.
  - intros H. specialize (IH H). lia.
Qed.

Lemma depth_entry kv m : In kv m -> (depth (snd kv) < depth (Map m))%nat.
Proof.
  simpl. induction m as [|e rest IH]; simpl; [intros []|].
  intros [->|H].
  - lia.
  - specialize (IH H). lia.
Qed.

Lemma validate_body_ext self1 self2 value sch path :
  (forall props kv v p,
     properties_of sch = Map props -> In kv props ->
     self1 v (snd kv) p = self2 v (snd kv) p) ->
  (forall v p, is_dict (additional_of sch) = true ->
               self1 v (additional_of sch) p = self2 v (additional_of sch) p) ->
  (forall v p, self1 v (items_of sch) p = self2 v (items_of sch) p) ->
  validate_body self1 value (Map sch) path
  = validate_body self2 value (Map sch) path.
Proof.
  intros Hprops Hadd Hitems. unfold validate_body. cbv zeta.
  destruct (if py_truthy _ then _ else _) as [b|]; cbn [bind]; [|reflexivity].
  destruct (negb b); [reflexivity|].
  destruct (enum_block _ _ _ _); cbn [bind]; [|reflexivity].
  destruct (pattern_block _ _ _ _); cbn [bind]; [|reflexivity].
  destruct (minimum_block _ _ _ _); cbn [bind]; [|reflexivity].
  destruct (maximum_block _ _ _ _) as [e4|]; cbn [bind]; [|reflexivity].
  assert (object_block self1 value sch path e4
          = object_block self2 value sch path e4) as ->.
  { unfold object_block. destruct value; try reflexivity.
    destruct (py_eq _ _); [|reflexivity]. cbv zeta.
    destruct (py_iter _); cbn [bind]; [|reflexivity].
    destruct (required_loop _ _ _ _) as [e5|]; cbn [bind]; [|reflexivity].
    destruct (properties_of sch) as [ | | | | | |props] eqn:Ep; try reflexivity.
    assert (properties_loop self1 entries path props e5
            = properties_loop self2 entries path props e5) as ->.
    { unfold properties_loop. apply for_each_ext. intros acc kv Hin.
      destruct (lookup (fst kv) entries) as [sub|]; [|reflexivity].
      now rewrite (Hprops props kv sub _ eq_refl Hin). }
    destruct (properties_loop self2 _ _ _ _) as [e6|]; cbn [bind];
      [|reflexivity].
    unfold additional_block.
    destruct (additional_of sch) as [ |[|]| | | | |ad] eqn:Ea; try reflexivity.
    apply for_each_ext. intros acc kv _.
    destruct (negb _); [|reflexivity].
    now rewrite (Hadd (snd kv) _ eq_refl). }
  destruct (object_block self2 _ _ _ _) as [e7|]; cbn [bind]; [|reflexivity].
  unfold array_block, items_loop. destruct value; try reflexivity.
  destruct (py_eq _ _); [|reflexivity].
  assert (forall st,
            for_each items st (fun st item =>
              sub_errors <- self1 item (items_of sch)
                              (fstr [path; "["; str_of_nat (fst st); "]"]) ;;
              Ok (S (fst st), snd st ++ sub_errors))
            = for_each items st (fun st item =>
              sub_errors <- self2 item (items_of sch)
                              (fstr [path; "["; str_of_nat (fst st); "]"]) ;;
              Ok (S (fst st), snd st ++ sub_errors))) as E.
  { intros st. apply for_each_ext. intros acc item _. now rewrite Hitems. }
  now rewrite E.
Qed.

(** With [depth schema] frames and one, or more, the walk is the same:
    the result of [_validate_object] does not depend on the limit. *)
Lemma validate_within_enough n : forall m schema value path,
  (depth schema < n)%nat -> (depth schema < m)%nat ->
  validate_within n value schema path = validate_within m value schema path.
Proof.
  induction n as [|n IH]; intros m schema value path Hn Hm; [lia|].
  destruct m as [|m]; [lia|].
  destruct schema as [ | | | | | |sch]; try reflexivity.
  cbn [validate_within]. apply validate_body_ext.
  - intros props kv v p Ep Hin. unfold properties_of in Ep.
    destruct (lookup "properties" sch) as [pr|] eqn:El.
    + subst pr. apply depth_lookup in El. apply depth_entry in Hin.
      apply IH; lia.
    + injection Ep as <-. destruct Hin.
  - intros v p Hd. unfold additional_of in *.
    destruct (lookup "additionalProperties" sch) as [ad|] eqn:El;
      [|discriminate Hd].
    apply depth_lookup in El. apply IH; lia.
  - intros v p. unfold items_of.
    destruct (lookup "items" sch) as [i|] eqn:El.
    + apply depth_lookup in El. apply IH; lia.
    + assert (1 <= depth (Map sch))%nat as Hd by (simpl; lia).
      destruct n as [|n']; [lia|]. destruct m as [|m']; [lia|].
      now rewrite !validate_within_empty_schema.
Qed.

(** *** Missing required fields are reported *)

Lemma required_loop_spec val path reqs : forall errors res,
  required_loop val path reqs errors = Ok res ->
  incl errors res /\
  forall req, In req reqs -> dict_contains req val = Ok false ->
              In (missing_required path req) res.
Proof.
  unfold required_loop.
  induction reqs as [|r rest IH]; intros errors res H; simpl in H.
  - injection H as <-. split; [apply incl_refl | intros req []].
  - ok_inv H. ok_inv Hv. destruct (IH _ _ H) as [Hincl Hrest].
    destruct v0; simpl in Hv; injection Hv as <-.
    + split; [exact Hincl|].
      intros req [<-|Hin] Hc; [congruence | auto].
    + split.
      * intros e He. apply Hincl. apply in_or_app. now left.
      * intros req [<-|Hin] Hc; [|auto].
        apply Hincl. apply in_or_app. right. now left.
Qed.

Lemma for_each_incl {A} (body : list string -> A -> result (list string)) l :
  (forall acc x acc', body acc x = Ok acc' -> incl acc acc') ->
  forall acc res, for_each l acc body = Ok res -> incl acc res.
Proof.
  intros Hstep. induction l as [|x rest IH]; intros acc res H; simpl in H.
  - injection H as <-. apply incl_refl.
  - ok_inv H. eapply incl_tran; eauto.
Qed.

Lemma properties_loop_incl self val path props errors res :
  properties_loop self val path props errors = Ok res -> incl errors res.
Proof.
  unfold properties_loop. apply for_each_incl.
  intros acc prop acc' H.
  destruct (lookup (fst prop) val); [|injection H as <-; apply incl_refl].
  ok_inv H. injection H as <-. apply incl_appl, incl_refl.
Qed.

Lemma additional_block_incl self val path props additional errors res :
  additional_block self val path props additional errors = Ok res ->
  incl errors res.
Proof.
  unfold additional_block.
  destruct additional as [ |[|]| | | | |a];
    try (intros H; injection H as <-; apply incl_refl).
  - apply for_each_incl. intros acc kv acc' H.
    destruct (_ && _); injection H as <-;
      [apply incl_appl, incl_refl | apply incl_refl].
  - apply for_each_incl. intros acc kv acc' H.
    destruct (negb _); [|injection H as <-; apply incl_refl].
    ok_inv H. injection H as <-. apply incl_appl, incl_refl.
Qed.

Lemma validate_body_required self val sch path reqs errs :
  schema_type_of sch = Str "object" ->
  py_iter (required_of sch) = Ok reqs ->
  validate_body self (Map val) (Map sch) path = Ok errs ->
  forall req, In req reqs -> dict_contains req val = Ok false ->
              In (missing_required path req) errs.
Proof.
  intros Hty Hreqs H req Hin Hc.
  unfold validate_body in H. cbv zeta in H. rewrite Hty in H.
  cbn [py_truthy String.eqb Ascii.eqb Bool.eqb negb _check_type] in H.
  change (isinstance_of (Map val) "object") with (Some true) in H.
  cbn [bind andb negb] in H.
  ok_inv H. ok_inv H. ok_inv H. ok_inv H. ok_inv H.
  unfold array_block in H. injection H as <-.
  match goal with
  | E : object_block _ _ _ _ _ = Ok _ |- _ =>
      unfold object_block in E; rewrite Hty in E;
      change (py_eq (Str "object") (Str "object")) with true in E;
      cbv zeta in E; rewrite Hreqs in E; cbn [bind] in E; ok_inv E
  end.
  match goal with
  | E : required_loop _ _ _ _ = Ok _ |- _ =>
      apply required_loop_spec in E as [_ E]; specialize (E req Hin Hc)
  end.
  match goal with
  | E : match properties_of sch with _ => _ end = Ok _ |- _ =>
      destruct (properties_of sch); try discriminate E; ok_inv E;
      apply additional_block_incl in E
  end.
  match goal with
  | E : properties_loop _ _ _ _ _ = Ok _ |- _ =>
      apply properties_loop_incl in E
  end.
  auto.
Qed.


Lemma validate_body_object_inv self val sch path errs :
  schema_type_of sch = Str "object" ->
  validate_body self (Map val) (Map sch) path = Ok errs ->
  exists errors, object_block self (Map val) sch path errors = Ok errs.
Proof.
  intros Hty H. unfold validate_body in H. cbv zeta in H. rewrite Hty in H.
  cbn [py_truthy String.eqb Ascii.eqb Bool.eqb negb _check_type] in H.
  change (isinstance_of (Map val) "object") with (Some true) in H.
  cbn [bind andb negb] in H.
  ok_inv H. ok_inv H. ok_inv H. ok_inv H. ok_inv H.
  unfold array_block in H. injection H as <-. eauto.
Qed.

Lemma validate_body_array_inv self items sch path errs :
  schema_type_of sch = Str "array" ->
  validate_body self (Seq items) (Map sch) path = Ok errs ->
  exists errors indexed,
    items_loop self (items_of sch) path items errors = Ok indexed /\
    errs = snd indexed.
Proof.
  intros Hty H. unfold validate_body in H. cbv zeta in H. rewrite Hty in H.
  cbn [py_truthy String.eqb Ascii.eqb Bool.eqb negb _check_type] in H.
  change (isinstance_of (Seq items) "array") with (Some true) in H.
  cbn [bind andb negb] in H.
  ok_inv H. ok_inv H. ok_inv H. ok_inv H. ok_inv H.
  unfold object_block in Hv3. injection Hv3 as <-.
  unfold array_block in H. rewrite Hty in H.
  change (py_eq (Str "array") (Str "array")) with true in H.
  apply bind_ok_inv in H as (indexed & Hi & H). injection H as <-. eauto.
Qed.

(** *** The errors of a node are errors of the walk that comes to it *)

Lemma properties_loop_sub self val path k sub_schema sub props :
  forall errors res,
    properties_loop self val path props errors = Ok res ->
    In (k, sub_schema) props -> lookup k val = Some sub ->
    exists sub_errs,
      self sub sub_schema (child_path path k) = Ok sub_errs /\
      incl sub_errs res.
Proof.
  induction props as [|prop rest IH]; intros errors res H Hin Hl;
    [destruct Hin|].
  unfold properties_loop in H. cbn [for_each] in H.
  apply bind_ok_inv in H as (acc & Hprop & H).
  pose proof (properties_loop_incl self val path rest acc H) as Hincl.
  destruct Hin as [->|Hin].
  - cbn [fst snd] in Hprop. rewrite Hl in Hprop.
    apply bind_ok_inv in Hprop as (sub_errs & Hs & Hprop).
    injection Hprop as <-. exists sub_errs. split; [exact Hs|].
    intros e He. apply Hincl. apply in_or_app. now right.
  - exact (IH acc res H Hin Hl).
Qed.

Lemma additional_loop_sub self val path props a k sub :
  forall errors res,
    additional_block self val path props (Map a) errors = Ok res ->
    In (k, sub) val -> has_key k props = false ->
    exists sub_errs,
      self sub (Map a) (child_path path k) = Ok sub_errs /\
      incl sub_errs res.
Proof.
  induction val as [|kv rest IH]; intros errors res H Hin Hk; [destruct Hin|].
  unfold additional_block in H. cbn [for_each] in H.
  apply bind_ok_inv in H as (acc & Hkv & H).
  pose proof (@additional_block_incl self rest path props (Map a) acc res H)
    as Hincl.
  destruct Hin as [->|Hin].
  - cbn [fst snd] in Hkv. rewrite Hk in Hkv. cbn [negb] in Hkv.
    apply bind_ok_inv in Hkv as (sub_errs & Hs & Hkv).
    injection Hkv as <-. exists sub_errs. split; [exact Hs|].
    intros e He. apply Hincl. apply in_or_app. now right.
  - exact (IH acc res H Hin Hk).
Qed.

Lemma items_loop_sub
    (self : Node -> Node -> string -> result (list string))
    (items_schema : Node) (path : string) (items : list Node) :
  forall st res,
    for_each items st (fun st item =>
      sub_errors <- self item items_schema
                      (fstr [path; "["; str_of_nat (fst st); "]"]) ;;
      Ok (S (fst st), snd st ++ sub_errors)) = Ok res ->
    incl (snd st) (snd res) /\
    forall i item,
      nth_error items i = Some item ->
      exists sub_errs,
        self item items_schema
          (fstr [path; "["; str_of_nat (fst st + i); "]"]) = Ok sub_errs /\
        incl sub_errs (snd res).
Proof.
  induction items as [|x rest IH]; intros st res H; cbn [for_each] in H.
  - injection H as <-. split; [apply incl_refl|].
    intros i item Hn. destruct i; discriminate Hn.
  - apply bind_ok_inv in H as (st' & Hx & H).
    apply bind_ok_inv in Hx as (sub_errs & Hs & Hx). injection Hx as <-.
    destruct (IH _ _ H) as (Hincl & Hrest). cbn [fst snd] in Hincl, Hrest.
    split.
    + intros e He. apply Hincl. apply in_or_app. now left.
    + intros i item Hn. destruct i as [|i]; cbn [nth_error] in Hn.
      * injection Hn as <-. rewrite Nat.add_0_r. exists sub_errs.
        split; [exact Hs|]. intros e He. apply Hincl. apply in_or_app.
        now right.
      * destruct (Hrest i item Hn) as (se & Hse & Hi).
        exists se. split; [|exact Hi].
        replace (fst st + S i)%nat with (S (fst st) + i)%nat by lia.
        exact Hse.
Qed.

Lemma descends_incl v s p v' s' p' errs :
  descends v s p v' s' p' ->
  _validate_object v s p = Ok errs ->
  exists errs', _validate_object v' s' p' = Ok errs' /\ incl errs' errs.
Proof.
  intros Hd H. unfold _validate_object in H. cbn [validate_within] in H.
  destruct Hd as [val sch path props k sub_schema sub Hty Hprops Hin Hl
                 |val sch path props a k sub Hty Hprops Hadd Hin Hk
                 |items sch path i item Hty Hn].
  - assert (depth sub_schema < depth (Map sch))%nat as Hdepth.
    { unfold properties_of in Hprops.
      destruct (lookup "properties" sch) as [pr|] eqn:El.
      - subst pr. apply depth_lookup in El.
        apply (depth_entry (k, sub_schema)) in Hin. cbn [snd] in Hin. lia.
      - injection Hprops as <-. destruct Hin. }
    apply (validate_body_object_inv _ _ _ _ Hty) in H as (e & H).
    unfold object_block in H. rewrite Hty in H.
    change (py_eq (Str "object") (Str "object")) with true in H.
    cbv zeta in H. ok_inv H. ok_inv H. rewrite Hprops in H. ok_inv H.
    apply additional_block_incl in H.
    match goal with
    | E : properties_loop _ _ _ _ _ = Ok _ |- _ =>
        destruct (@properties_loop_sub _ _ _ _ _ _ _ _ _ E Hin Hl)
          as (se & Hse & Hi)
    end.
    exists se. split.
    + unfold _validate_object. rewrite <- Hse.
      apply validate_within_enough; lia.
    + eapply incl_tran; eassumption.
  - assert (depth (Map a) < depth (Map sch))%nat as Hdepth.
    { unfold additional_of in Hadd.
      destruct (lookup "additionalProperties" sch) as [ad|] eqn:El;
        [|discriminate Hadd].
      subst ad. now apply depth_lookup in El. }
    apply (validate_body_object_inv _ _ _ _ Hty) in H as (e & H).
    unfold object_block in H. rewrite Hty in H.
    change (py_eq (Str "object") (Str "object")) with true in H.
    cbv zeta in H. ok_inv H. ok_inv H. rewrite Hprops in H. ok_inv H.
    rewrite Hadd in H.
    destruct (@additional_loop_sub _ _ _ _ _ _ _ _ _ H Hin Hk)
      as (se & Hse & Hi).
    exists se. split; [|exact Hi].
    unfold _validate_object. rewrite <- Hse.
    apply validate_within_enough; lia.
  - apply (@validate_body_array_inv _ _ _ _ _ Hty) in H
      as (e & indexed & H & ->).
    unfold items_loop in H.
    destruct (@items_loop_sub _ _ _ _ _ _ H) as (_ & Hsub).
    destruct (Hsub i item Hn) as (se & Hse & Hi). cbn [fst] in Hse.
    unfold items_of in *.
    destruct (lookup "items" sch) as [items_schema|] eqn:El.
    + exists se. split; [|exact Hi].
      apply depth_lookup in El.
      unfold _validate_object. rewrite <- Hse.
      apply validate_within_enough; lia.
    + exists []. split; [|intros x []].
      unfold _validate_object. apply validate_within_empty_schema.
Qed.

Lemma reaches_incl v s p v' s' p' :
  reaches v s p v' s' p' ->
  forall errs,
    _validate_object v s p = Ok errs ->
    exists errs', _validate_object v' s' p' = Ok errs' /\ incl errs' errs.
Proof.
  induction 1 as [v s p | v s p v1 s1 p1 v2 s2 p2 Hd Hr IH]; intros errs H.
  - exists errs. split; [exact H | apply incl_refl].
  - destruct (descends_incl Hd H) as (e1 & H1 & Hi1).
    destruct (IH _ H1) as (e2 & H2 & Hi2).
    exists e2. split; [exact H2 | eapply incl_tran; eassumption].
Qed.

(** *** The errors of a list of objects *)

Lemma metadata_field_total cr k default :
  cr_ok cr = true -> exists v, metadata_field cr k default = Ok v.
Proof.
  unfold cr_ok, metadata_field. intros H.
  destruct cr as [ | | | | | |m]; try discriminate H. simpl.
  destruct (lookup "metadata" m) as [md|]; simpl; [|eauto].
  destruct md; try discriminate H. simpl. eauto.
Qed.

Lemma crs_loop schema crs :
  schema_ok schema = true ->
  Forall (fun cr => cr_ok cr = true) crs ->
  forall acc, exists res,
    for_each crs acc (fun errors cr =>
      name <- metadata_field cr "name" (Str "<unknown>") ;;
      namespace <- metadata_field cr "namespace" (Str "") ;;
      let prefix := cr_prefix name namespace in
      cr_errors <- _validate_object cr schema "" ;;
      Ok (errors ++ map (fun err => fstr [prefix; ": "; err]) cr_errors))
    = Ok res /\
    incl acc res /\
    (forall e, In e res ->
       In e acc \/
       exists cr name namespace err,
         In cr crs /\ cr_called cr name namespace /\ located err /\
         e = reported name namespace err) /\
    (forall cr name namespace cr_errors err,
       In cr crs -> cr_called cr name namespace ->
       _validate_object cr schema "" = Ok cr_errors -> In err cr_errors ->
       In (reported name namespace err) res).
Proof.
  intros Hs Hcrs. induction Hcrs as [|cr rest Hcr Hrest IH]; intros acc.
  - exists acc. simpl. split; [reflexivity|]. split; [apply incl_refl|].
    split; [auto | intros ? ? ? ? ? []].
  - simpl.
    destruct (metadata_field_total cr "name" (Str "<unknown>") Hcr) as (nm & En).
    destruct (metadata_field_total cr "namespace" (Str "") Hcr) as (ns & Es).
    destruct (validate_object_total schema cr "" Hs) as (errs & Ev).
    rewrite En, Es, Ev. cbn [bind].
    destruct (IH (acc ++ map (fun err => fstr [cr_prefix nm ns; ": "; err]) errs))
      as (res & Hres & Hincl & Hfmt & Hall).
    exists res. split; [exact Hres|]. split; [|split].
    + intros e He. apply Hincl. apply in_or_app. now left.
    + intros e He. destruct (Hfmt e He) as [Hacc | (c & n & s0 & err & Hc & H1 & H2 & H3)].
      * apply in_app_or in Hacc as [Hacc | Hnew]; [now left|].
        right. apply in_map_iff in Hnew as (err & <- & Herr).
        exists cr, nm, ns, err. split; [now left|]. split; [split; auto|].
        split; [|reflexivity].
        unfold _validate_object in Ev.
        apply validate_within_located in Ev.
        rewrite Forall_forall in Ev. auto.
      * right. exists c, n, s0, err. split; [now right | auto].
    + intros c n s0 ce err [<-|Hc] [H1 H2] Hv Hin.
      * rewrite En in H1. injection H1 as <-.
        rewrite Es in H2. injection H2 as <-.
        rewrite Ev in Hv. injection Hv as <-.
        apply Hincl. apply in_or_app. right.
        apply in_map_iff. exists err. auto.
      * apply (Hall c n s0 ce err); auto. split; auto.
Qed.

(** C6 (amended). For a well-formed schema and a list of objects as the
    cluster lists them, [validate_crs_against_schema] returns; every error
    it returns is [prefix: At 'path': reason], where the prefix of an
    object is [namespace/name] when the object has a non-empty namespace
    and [name] alone otherwise; and for every schema node of type [object]
    that the walk of an object comes to, at whatever depth, every name in
    the [required] list of the node that the object at that node lacks
    yields the error [At 'path': missing required field 'name'] in the
    result, under the prefix of its object.  For the schema that requires
    [color] under [spec] and the live object [my-widget] in [default]
    without [spec.color], the result is the one error of scenario 6; for
    the same object without a namespace the error carries the name
    alone. *)
Theorem schema_errors_prefixed_located_and_complete
    (crs : list Node) (schema : Node) :
  schema_ok schema = true ->
  Forall (fun cr => cr_ok cr = true) crs ->
  exists errs,
    validate_crs_against_schema (Seq crs) schema = Ok errs /\
    (forall e, In e errs ->
       exists cr name namespace p reason,
         In cr crs /\ cr_called cr name namespace /\
         e = fstr [if py_truthy namespace
                   then fstr [py_str namespace; "/"; py_str name]
                   else py_str name;
                   ": At '"; p; "': "; reason]) /\
    (forall cr name namespace val sch path reqs req,
       In cr crs -> cr_called cr name namespace ->
       reaches cr schema "" (Map val) (Map sch) path ->
       schema_type_of sch = Str "object" ->
       py_iter (required_of sch) = Ok reqs ->
       In req reqs -> dict_contains req val = Ok false ->
       In (reported name namespace (missing_required path req)) errs) /\
    (forall val sch path reqs,
       schema_ok (Map sch) = true ->
       schema_type_of sch = Str "object" ->
       py_iter (required_of sch) = Ok reqs ->
       exists node_errs,
         _validate_object (Map val) (Map sch) path = Ok node_errs /\
         forall req, In req reqs -> dict_contains req val = Ok false ->
                     In (missing_required path req) node_errs) /\
    validate_crs_against_schema (Seq [Fixture.my_widget]) Fixture.widget_schema
    = Ok ["default/my-widget: At 'spec': missing required field 'color'"] /\
    validate_crs_against_schema (Seq [Fixture.cluster_widget])
      Fixture.widget_schema
    = Ok ["my-widget: At 'spec': missing required field 'color'"].
Proof.
  intros Hs Hcrs.
  destruct (crs_loop schema Hs Hcrs []) as (errs & Hres & _ & Hfmt & Hall).
  exists errs. split; [exact Hres|]. split; [|split; [|split; [|split]]].
  - intros e He.
    destruct (Hfmt e He) as [[] | (cr & nm & ns & err & Hc & Hn & (p & reason & ->) & ->)].
    exists cr, nm, ns, p, reason. split; [exact Hc|]. split; [exact Hn|].
    unfold reported, cr_prefix.
    destruct (py_truthy ns); reflexivity.
  - intros cr nm ns val sch path reqs req Hin Hcalled Hreach Hty Hreqs Hreq
      Hmiss.
    destruct (validate_object_total schema cr "" Hs) as (ce & Hce).
    destruct (reaches_incl Hreach Hce) as (ne & Hne & Hincl).
    apply (Hall cr nm ns ce); auto.
    apply Hincl. unfold _validate_object in Hne.
    eapply validate_body_required;
      [exact Hty | exact Hreqs | exact Hne | exact Hreq | exact Hmiss].
  - intros val sch path reqs Hok Hty Hreqs.
    destruct (validate_object_total (Map sch) (Map val) path Hok) as (ne & Hne).
    exists ne. split; [exact Hne|].
    intros req Hreq Hmiss. unfold _validate_object in Hne.
    eapply validate_body_required;
      [exact Hty | exact Hreqs | exact Hne | exact Hreq | exact Hmiss].
  - vm_compute. reflexivity.
  - vm_compute. reflexivity.
Qed.


(* ================================================================== *)
(** * Further properties of the code *)
(* ================================================================== *)

(** ** [crd/report.py]: [max_risk] *)

Lemma max_by_spec {A} (key : A -> nat) xs : forall best,
  In (max_by key best xs) (best :: xs) /\
  (key best <= key (max_by key best xs))%nat /\
  forall x, In x xs -> (key x <= key (max_by key best xs))%nat.
Proof.
  induction xs as [|x rest IH]; intros best; simpl.
  - split; [now left|]. split; [lia | intros ? []].
  - destruct (IH (if Nat.ltb (key best) (key x) then x else best))
      as (Hin & Hbest & Hall).
    destruct (Nat.ltb (key best) (key x)) eqn:E.
    + apply Nat.ltb_lt in E. split; [|split].
      * destruct Hin as [<-|Hin]; auto.
      * lia.
      * intros y [<-|Hy]; auto.
    + apply Nat.ltb_ge in E. split; [|split].
      * destruct Hin as [<-|Hin]; auto.
      * exact Hbest.
      * intros y [<-|Hy]; [lia | auto].
Qed.

Lemma order_inj a b : order a = order b -> a = b.
Proof. destruct a, b; simpl; intros H; congruence. Qed.

Lemma max_risk_danger_iff c :
  max_risk c = DANGER <->
  exists a, In a (risk_annotations c) /\ level a = DANGER.
Proof.
  unfold max_risk. destruct (risk_annotations c) as [|a rest].
  - split; [discriminate | intros (x & [] & _)].
  - destruct (max_by_spec (fun a => order (level a)) rest a)
      as (Hin & Hbest & Hall).
    split.
    + intros E. eexists. split; [exact Hin | exact E].
    + intros (x & Hx & Hd). apply order_inj.
      assert (order (level x)
              <= order (level (max_by (fun a => order (level a)) a rest)))%nat
        as Hle by (destruct Hx as [<-|Hx]; auto).
      rewrite Hd in Hle. simpl in *.
      destruct (level (max_by _ a rest)); simpl in *; lia.
Qed.

(** X1. [max_risk] is the greatest level among the annotations of a
    detail, in the order SAFE < WARNING < DANGER: it is SAFE without
    annotations, no annotation lies above it, and with annotations one of
    them has it. *)
Theorem max_risk_is_greatest_level (c : CrdChangeDetail) :
  (risk_annotations c = [] -> max_risk c = SAFE) /\
  (forall a, In a (risk_annotations c) ->
             (order (level a) <= order (max_risk c))%nat) /\
  (risk_annotations c <> [] ->
   exists a, In a (risk_annotations c) /\ level a = max_risk c).
Proof.
  unfold max_risk. destruct (risk_annotations c) as [|a rest].
  - split; [reflexivity|]. split; [intros ? [] | congruence].
  - destruct (max_by_spec (fun a => order (level a)) rest a)
      as (Hin & Hbest & Hall).
    split; [discriminate|]. split.
    + intros x [<-|Hx]; auto.
    + intros _. eexists. split; [exact Hin | reflexivity].
Qed.

(** ** [crd/policy.py] with [crd/report.py] *)

Lemma existsb_filter_nil {A} (f : A -> bool) l :
  existsb f l = false <-> filter f l = [].
Proof.
  induction l as [|x rest IH]; simpl; [tauto|].
  destruct (f x); simpl; [split; discriminate | exact IH].
Qed.

Lemma evaluate_policy_crds_only r r' mode :
  crds r = crds r' -> evaluate_policy r mode = evaluate_policy r' mode.
Proof. intros E. unfold evaluate_policy. now rewrite E. Qed.

Lemma blocked_only_on_fail r mode :
  mode <> FAIL -> blocked (evaluate_policy r mode) = false.
Proof. destruct mode; [reflexivity | reflexivity | congruence]. Qed.

Lemma blocked_fail_has_dangers r :
  blocked (evaluate_policy r FAIL) = has_dangers r.
Proof.
  unfold has_dangers. simpl.
  destruct (filter (fun c => RiskLevel_eqb (max_risk c) DANGER) (crds r))
    as [|d ds] eqn:E.
  - apply existsb_filter_nil in E. rewrite E.
    destruct (filter (fun c => RiskLevel_eqb (max_risk c) WARNING) (crds r));
      reflexivity.
  - simpl. symmetry. destruct (existsb _ (crds r)) eqn:Ex; [reflexivity|].
    apply existsb_filter_nil in Ex. congruence.
Qed.

(** X2. The fields of a policy result agree with each other and with the
    report: the mode is the one asked for, the exit code is 1 when blocked
    and 0 otherwise, [fail] blocks exactly when [has_dangers] holds, that
    is when some annotation of some CRD is DANGER (stored-version
    warnings, schema errors and ownership conflicts do not count), and
    [warn] says "no issues found" exactly when [has_issues] is false. *)
Theorem policy_result_agrees_with_report (r : CrdReport) (mode : CrdPolicyMode) :
  pr_mode (evaluate_policy r mode) = mode_value mode /\
  exit_code (evaluate_policy r mode)
  = (if blocked (evaluate_policy r mode) then 1 else 0)%Z /\
  blocked (evaluate_policy r FAIL) = has_dangers r /\
  (blocked (evaluate_policy r mode) = true <->
   mode = FAIL /\
   exists d a, In d (crds r) /\ In a (risk_annotations d) /\ level a = DANGER) /\
  (pr_message (evaluate_policy r WARN) = "CRD policy: warn (no issues found)"
   <-> has_issues r = false).
Proof.
  split; [|split; [|split; [|split]]].
  - destruct mode; simpl; try reflexivity;
      destruct (filter (fun c => RiskLevel_eqb (max_risk c) DANGER) (crds r));
      destruct (filter (fun c => RiskLevel_eqb (max_risk c) WARNING) (crds r));
      reflexivity.
  - destruct mode; simpl; try reflexivity;
      destruct (filter (fun c => RiskLevel_eqb (max_risk c) DANGER) (crds r));
      destruct (filter (fun c => RiskLevel_eqb (max_risk c) WARNING) (crds r));
      reflexivity.
  - apply blocked_fail_has_dangers.
  - split.
    + intros Hb. destruct mode; try discriminate Hb. split; [reflexivity|].
      rewrite blocked_fail_has_dangers in Hb. unfold has_dangers in Hb.
      apply existsb_exists in Hb as (d & Hd & Hr).
      apply RiskLevel_eqb_eq in Hr. apply max_risk_danger_iff in Hr as (a & Ha & Hl).
      eauto.
    + intros [-> (d & a & Hd & Ha & Hl)].
      rewrite blocked_fail_has_dangers. unfold has_dangers.
      apply existsb_exists. exists d. split; [exact Hd|].
      apply RiskLevel_eqb_eq. apply max_risk_danger_iff. eauto.
  - assert (has_issues r = false <->
            filter (fun c => RiskLevel_eqb (max_risk c) DANGER) (crds r) = [] /\
            filter (fun c => RiskLevel_eqb (max_risk c) WARNING) (crds r) = [])
      as ->.
    { unfold has_issues. rewrite <- !existsb_filter_nil.
      induction (crds r) as [|c cs IH]; simpl; [tauto|].
      destruct (max_risk c); simpl; [exact IH | |]; split;
        try discriminate; intros [H1 H2]; discriminate. }
    simpl.
    destruct (filter (fun c => RiskLevel_eqb (max_risk c) DANGER) (crds r)),
      (filter (fun c => RiskLevel_eqb (max_risk c) WARNING) (crds r));
      cbn [app]; split; try tauto; try (intros [H1 H2]; discriminate);
      intros H; exfalso; unfold fstr in H; cbn [String.concat] in H;
      simpl in H; discriminate H.
Qed.

(** ** [crd/classifier.py]: what a verdict depends on *)

(** X18. The rule and the level of an annotation depend on the path and
    the change type alone: the classifier never looks at the old or the
    new value to grade a change. *)
Theorem classification_ignores_values (fc fc' : FieldChange) :
  path fc = path fc' -> change_type fc = change_type fc' ->
  rule (_classify_single fc) = rule (_classify_single fc') /\
  level (_classify_single fc) = level (_classify_single fc') /\
  ra_path (_classify_single fc) = ra_path (_classify_single fc').
Proof.
  intros Hp Hc. unfold _classify_single. cbv zeta. rewrite Hp, Hc.
  split_ifs; simpl; auto.
Qed.


(** ** [crd/schema_validator.py]: edges of the walk *)

Lemma isinstance_known value t b :
  isinstance_of value t = Some b ->
  In t ["string"; "integer"; "number"; "boolean"; "object"; "array"].
Proof.
  unfold isinstance_of. intros H.
  repeat match type of H with
         | (if String.eqb ?a ?b then _ else _) = _ =>
             let E := fresh "E" in
             destruct (String.eqb a b) eqn:E;
             [apply String.eqb_eq in E; subst; simpl; auto 10|]
         end.
  discriminate H.
Qed.

Lemma check_type_false_known value t :
  _check_type value t = Ok false ->
  In t (map Str ["string"; "integer"; "number"; "boolean"; "object"; "array"]).
Proof.
  unfold _check_type. intros H.
  destruct value; try discriminate H;
    (destruct t as [ | | | |ty| | ]; try discriminate H;
     match type of H with
     | match isinstance_of ?v ty with _ => _ end = _ =>
         destruct (isinstance_of v ty) as [inst|] eqn:E; [|discriminate H];
         apply in_map; exact (isinstance_known _ _ E)
     end).
Qed.

(** X12. A type mismatch ends the walk of a node: the result is the one
    error about the type, whatever else the schema node holds (an enum,
    required names, sub-schemas, even ill-formed ones).  Only the six
    known type names can mismatch; an unknown type name rejects
    nothing. *)
Theorem type_mismatch_short_circuits
    (value : Node) (sch : list (string * Node)) (path : string) :
  py_truthy (schema_type_of sch) = true ->
  _check_type value (schema_type_of sch) = Ok false ->
  _validate_object value (Map sch) path
  = Ok [type_mismatch value (schema_type_of sch) path] /\
  In (schema_type_of sch)
     (map Str ["string"; "integer"; "number"; "boolean"; "object"; "array"]).
Proof.
  intros Ht Hc. split; [|exact (check_type_false_known _ _ Hc)].
  unfold _validate_object. cbn [validate_within]. unfold validate_body.
  cbv zeta. rewrite Ht, Hc. reflexivity.
Qed.

(** X13. A null value passes every schema node that has no [enum]: the
    type, the pattern and the bounds do not apply to it, and neither the
    required names nor the properties of an object are looked at. *)
Theorem null_passes_without_enum (sch : list (string * Node)) (path : string) :
  lookup "enum" sch = None ->
  _validate_object Null (Map sch) path = Ok [].
Proof.
  intros He. unfold _validate_object. cbn [validate_within].
  unfold validate_body. cbv zeta.
  assert ((if py_truthy (schema_type_of sch)
           then _check_type Null (schema_type_of sch) else Ok true) = Ok true)
    as -> by (destruct (py_truthy _); reflexivity).
  cbn [bind negb]. unfold enum_block. rewrite He. cbn [bind].
  unfold pattern_block.
  assert (match lookup "pattern" sch with
          | Some _ | None => Ok (@nil string)
          end = Ok []) as Hp by (destruct (lookup "pattern" sch); reflexivity).
  destruct (lookup "pattern" sch); cbn [bind];
    unfold minimum_block, maximum_block;
    destruct (lookup "minimum" sch); destruct (lookup "maximum" sch);
    reflexivity.
Qed.

Lemma additional_false_loop self val path props : forall errors,
  additional_block self val path props (Bool false) errors
  = Ok (errors ++ map (fun kv => unknown_field path (fst kv))
                      (filter (is_unknown_key props) val)).
Proof.
  unfold additional_block.
  induction val as [|kv rest IH]; intros errors; cbn [for_each filter map].
  - now rewrite app_nil_r.
  - change (negb (has_key (fst kv) props)
            && negb (existsb (String.eqb (fst kv)) envelope_keys))
      with (is_unknown_key props kv).
    destruct (is_unknown_key props kv); cbn [bind map].
    + rewrite IH. unfold unknown_field. now rewrite <- app_assoc.
    + apply IH.
Qed.

(** X14. With [additionalProperties: false] an object node reports every
    key of the object that is neither a declared property nor one of
    [apiVersion], [kind], [metadata], [status]: the block adds exactly
    these errors, in key order, and they are among the errors of the
    node. *)
Theorem unknown_fields_are_reported
    (val sch props : list (string * Node)) (path : string) :
  schema_ok (Map sch) = true ->
  schema_type_of sch = Str "object" ->
  properties_of sch = Map props ->
  additional_of sch = Bool false ->
  (forall self errors,
     additional_block self val path props (Bool false) errors
     = Ok (errors ++ map (fun kv => unknown_field path (fst kv))
                         (filter (is_unknown_key props) val))) /\
  exists errs,
    _validate_object (Map val) (Map sch) path = Ok errs /\
    forall kv, In kv val -> is_unknown_key props kv = true ->
               In (unknown_field path (fst kv)) errs.
Proof.
  intros Hok Hty Hprops Hadd. split.
  - intros self errors. apply additional_false_loop.
  - destruct (validate_object_total (Map sch) (Map val) path Hok) as (errs & H).
    exists errs. split; [exact H|]. intros kv Hin Hu.
    unfold _validate_object in H. cbn [validate_within] in H.
    apply (validate_body_object_inv _ _ _ _ Hty) in H as (e & H).
    unfold object_block in H. rewrite Hty in H.
    change (py_eq (Str "object") (Str "object")) with true in H.
    cbv zeta in H. ok_inv H. ok_inv H. rewrite Hprops in H. ok_inv H.
    rewrite Hadd in H. rewrite additional_false_loop in H. injection H as <-.
    apply in_or_app. right. apply in_map_iff. exists kv. split; [reflexivity|].
    apply filter_In. auto.
Qed.

Lemma for_each_app {A S} (body : S -> A -> result S) l1 l2 : forall acc,
  for_each (l1 ++ l2) acc body
  = (acc' <- for_each l1 acc body ;; for_each l2 acc' body).
Proof.
  induction l1 as [|x rest IH]; intros acc; simpl; [reflexivity|].
  destruct (body acc x); simpl; [apply IH | reflexivity].
Qed.

Lemma crs_loop_shift schema crs : forall acc,
  for_each crs acc (fun errors cr =>
    name <- metadata_field cr "name" (Str "<unknown>") ;;
    namespace <- metadata_field cr "namespace" (Str "") ;;
    let prefix := cr_prefix name namespace in
    cr_errors <- _validate_object cr schema "" ;;
    Ok (errors ++ map (fun err => fstr [prefix; ": "; err]) cr_errors))
  = (errs <- for_each crs [] (fun errors cr =>
       name <- metadata_field cr "name" (Str "<unknown>") ;;
       namespace <- metadata_field cr "namespace" (Str "") ;;
       let prefix := cr_prefix name namespace in
       cr_errors <- _validate_object cr schema "" ;;
       Ok (errors ++ map (fun err => fstr [prefix; ": "; err]) cr_errors)) ;;
     Ok (acc ++ errs)).
Proof.
  induction crs as [|cr rest IH]; intros acc; simpl.
  - now rewrite app_nil_r.
  - destruct (metadata_field cr "name" _) as [nm|]; simpl; [|reflexivity].
    destruct (metadata_field cr "namespace" _) as [ns|]; simpl; [|reflexivity].
    destruct (_validate_object cr schema "") as [ce|]; simpl; [|reflexivity].
    rewrite IH. rewrite (IH (map _ ce)).
    destruct (for_each rest [] _) as [r|]; simpl; [|reflexivity].
    now rewrite app_assoc.
Qed.

(** X15. The errors of a list of objects are those of its objects, one
    object after the other: validating two lists in a row gives the errors
    of the first followed by those of the second, an exception in the
    first is the exception of the whole, and no object gives no error. *)
Theorem validate_crs_concatenates (xs ys : list Node) (schema : Node) :
  validate_crs_against_schema (Seq []) schema = Ok [] /\
  (forall ex ey,
     validate_crs_against_schema (Seq xs) schema = Ok ex ->
     validate_crs_against_schema (Seq ys) schema = Ok ey ->
     validate_crs_against_schema (Seq (xs ++ ys)) schema = Ok (ex ++ ey)) /\
  (forall e,
     validate_crs_against_schema (Seq xs) schema = Raise e ->
     validate_crs_against_schema (Seq (xs ++ ys)) schema = Raise e).
Proof.
  unfold validate_crs_against_schema. cbn [py_iter bind].
  split; [reflexivity|]. split.
  - intros ex ey Hx Hy. rewrite for_each_app, Hx. cbn [bind].
    rewrite crs_loop_shift. cbv zeta in *. rewrite Hy. reflexivity.
  - intros e Hx. rewrite for_each_app, Hx. reflexivity.
Qed.

(** ** [crd/stored_versions.py]: absent and null *)

(** X16. The defaults of [check_stored_version_safety] cover absent
    keys only.  Without a [status] the check returns no warning, whatever
    the proposed CRD is; a [status] that is present and no mapping (a
    null, say) raises [AttributeError], and so does, once a version is
    stored, a proposed [spec] that is present and no mapping. *)
Theorem stored_version_check_absent_or_null
    (old_crd new_crd : Resource) (m : list (string * Node)) :
  res_body old_crd = Map m ->
  (lookup "status" m = None ->
   check_stored_version_safety old_crd new_crd = Ok []) /\
  (forall v, lookup "status" m = Some v -> is_dict v = false ->
             check_stored_version_safety old_crd new_crd
             = Raise AttributeError) /\
  (forall sv svs m' v,
     stored_versions_of old_crd = Ok (Seq (sv :: svs)) ->
     res_body new_crd = Map m' ->
     lookup "spec" m' = Some v -> is_dict v = false ->
     check_stored_version_safety old_crd new_crd = Raise AttributeError).
Proof.
  intros Hb. split; [|split].
  - intros Hl. unfold check_stored_version_safety, stored_versions_of.
    rewrite Hb. cbn [py_get bind]. rewrite Hl. reflexivity.
  - intros v Hl Hv. unfold check_stored_version_safety, stored_versions_of.
    rewrite Hb. cbn [py_get bind]. rewrite Hl.
    destruct v; try discriminate Hv; reflexivity.
  - intros sv svs m' v Hs Hn Hl Hv. unfold check_stored_version_safety.
    rewrite Hs. cbn [bind py_truthy negb].
    unfold version_names_of. rewrite Hn. cbn [py_get bind]. rewrite Hl.
    destruct v; try discriminate Hv; reflexivity.
Qed.


(** ** [crd/differ.py]: pairing by name *)

Lemma dict_set_keys {V} k (v : V) d k' :
  In k' (map fst (dict_set k v d)) <-> k' = k \/ In k' (map fst d).
Proof.
  induction d as [|[k0 v0] rest IH]; simpl.
  - split; [intros [H|[]]; auto | intros [H|[]]; auto].
  - destruct (String.eqb k k0) eqn:E; simpl.
    + apply String.eqb_eq in E. subst k0.
      split; [intros [H|H]; auto | intros [H|[H|H]]; auto].
    + rewrite IH.
      split; [intros [H|[H|H]]; auto | intros [H|[H|H]]; auto].
Qed.

Lemma dict_set_nodup {V} k (v : V) d :
  NoDup (map fst d) -> NoDup (map fst (dict_set k v d)).
Proof.
  induction d as [|[k0 v0] rest IH]; simpl; intros H.
  - constructor; [intros [] | constructor].
  - inversion H as [|? ? Hn Hr]; subst.
    destruct (String.eqb k k0) eqn:E; simpl.
    + apply String.eqb_eq in E. subst k0. now constructor.
    + constructor; [|auto]. rewrite dict_set_keys. intros [Hk|Hin]; [|auto].
      subst k0. rewrite String.eqb_refl in E. discriminate.
Qed.

Lemma dict_get_none {V} k (d : list (string * V)) :
  dict_get k d = None <-> ~ In k (map fst d).
Proof.
  induction d as [|[k0 v0] rest IH]; simpl.
  - split; auto.
  - destruct (String.eqb k k0) eqn:E.
    + apply String.eqb_eq in E. subst k0.
      split; [discriminate | intros H; exfalso; apply H; now left].
    + rewrite IH. apply String.eqb_neq in E.
      split; [intros H [H'|H']; [congruence | auto]
             | intros H H'; apply H; now right].
Qed.

Lemma by_name_fold l : forall d,
  NoDup (map fst d) ->
  NoDup (map fst (fold_left (fun d r => dict_set (name r) r d) l d)) /\
  (forall k, In k (map fst (fold_left (fun d r => dict_set (name r) r d) l d))
             <-> In k (map fst d) \/ In k (map name l)) /\
  (forall k r, dict_get k (fold_left (fun d r => dict_set (name r) r d) l d)
               = Some r -> dict_get k d = Some r \/ In r l).
Proof.
  induction l as [|x rest IH]; intros d Hd; simpl.
  - split; [assumption|]. split; [|auto].
    intros k. split; [auto | intros [H|[]]; exact H].
  - destruct (IH (dict_set (name x) x d) (dict_set_nodup _ _ _ Hd))
      as (Hn & Hk & Hg).
    split; [exact Hn|]. split.
    + intros k. rewrite Hk, dict_set_keys.
      split; [intros [[H|H]|H]; auto | intros [H|[H|H]]; auto].
    + intros k r H. apply Hg in H as [H|H]; [|auto].
      rewrite dict_get_set in H. destruct (String.eqb k (name x)); [|auto].
      injection H as <-. auto.
Qed.

Lemma by_name_nodup l : NoDup (map fst (by_name l)).
Proof. apply (by_name_fold l []). constructor. Qed.

Lemma by_name_names l k : In k (map fst (by_name l)) <-> In k (map name l).
Proof.
  unfold by_name. destruct (by_name_fold l [] (NoDup_nil _)) as (_ & H & _).
  rewrite H. simpl. split; [intros [[]|H']; exact H' | auto].
Qed.

Lemma by_name_in l k r : dict_get k (by_name l) = Some r -> In r l.
Proof.
  unfold by_name. destruct (by_name_fold l [] (NoDup_nil _)) as (_ & _ & H).
  intros E. apply H in E as [E|E]; [discriminate E | exact E].
Qed.

Lemma unique_fold ks : forall d : list (string * unit),
  NoDup (map fst d) ->
  NoDup (map fst (fold_left (fun d k => dict_set k tt d) ks d)) /\
  (forall k, In k (map fst (fold_left (fun d k => dict_set k tt d) ks d))
             <-> In k (map fst d) \/ In k ks).
Proof.
  induction ks as [|x rest IH]; intros d Hd; simpl.
  - split; [assumption|]. intros k. split; [auto | intros [H|[]]; exact H].
  - destruct (IH (dict_set x tt d) (dict_set_nodup _ _ _ Hd)) as (Hn & Hk).
    split; [exact Hn|]. intros k. rewrite Hk, dict_set_keys.
    split; [intros [[H|H]|H]; auto | intros [H|[H|H]]; auto].
Qed.

Lemma unique_keys_nodup ks : NoDup (unique_keys ks).
Proof. apply (unique_fold ks []). constructor. Qed.

Lemma unique_keys_in ks k : In k (unique_keys ks) <-> In k ks.
Proof.
  unfold unique_keys. destruct (unique_fold ks [] (NoDup_nil _)) as (_ & H).
  rewrite H. simpl. split; [intros [[]|H']; exact H' | auto].
Qed.

Lemma pair_crds_name_in installed proposed k :
  In k (unique_keys (map fst (by_name installed) ++ map fst (by_name proposed)))
  <-> In k (map name installed) \/ In k (map name proposed).
Proof. now rewrite unique_keys_in, in_app_iff, !by_name_names. Qed.

(** What the loop of [pair_crds] builds for a name that one of the two
    sides has. *)
Lemma pair_of_name_spec installed proposed k :
  In k (map name installed) \/ In k (map name proposed) ->
  let p := pair_of_name (by_name installed) (by_name proposed) k in
  pair_key p = k /\
  (forall o, old p = Some o -> In o installed /\ name o = k) /\
  (forall n, new p = Some n -> In n proposed /\ name n = k) /\
  (old p = None <-> ~ In k (map name installed)) /\
  (new p = None <-> ~ In k (map name proposed)) /\
  (pair_status p = "added" <-> old p = None) /\
  (pair_status p = "removed" <-> old p <> None /\ new p = None) /\
  (pair_status p = "unchanged" <->
   exists o n, old p = Some o /\ new p = Some n /\
               py_eq (res_body o) (res_body n) = true) /\
  (pair_status p = "changed" <->
   exists o n, old p = Some o /\ new p = Some n /\
               py_eq (res_body o) (res_body n) = false).
Proof.
  intros Hk. cbv zeta.
  rewrite <- (by_name_names installed), <- (by_name_names proposed).
  rewrite <- !dict_get_none.
  assert (dict_get k (by_name installed) <> None
          \/ dict_get k (by_name proposed) <> None) as Hsome.
  { rewrite !dict_get_none, !by_name_names.
    destruct Hk as [H|H]; [left | right]; intros H'; exact (H' H). }
  unfold pair_of_name, pair_key. cbv zeta.
  destruct (dict_get k (by_name installed)) as [o|] eqn:Eo;
    destruct (dict_get k (by_name proposed)) as [n|] eqn:En.
  - pose proof (by_name_keys _ _ Eo) as Ko. pose proof (by_name_keys _ _ En) as Kn.
    pose proof (by_name_in _ _ Eo) as Io. pose proof (by_name_in _ _ En) as In_.
    destruct (py_eq (res_body o) (res_body n)) eqn:Eq; cbn [old new pair_status];
      (split; [exact Kn|]);
      (split; [intros o' [= <-]; auto|]);
      (split; [intros n' [= <-]; auto|]);
      (split; [apply iff_refl|]);
      (split; [apply iff_refl|]);
      (split; [split; discriminate|]);
      (split; [split; [discriminate | intros [_ H]; discriminate H]|]).
    + split.
      * split; [intros _; exists o, n; auto | reflexivity].
      * split; [discriminate|].
        intros (o' & n' & [= <-] & [= <-] & H). congruence.
    + split.
      * split; [discriminate|].
        intros (o' & n' & [= <-] & [= <-] & H). congruence.
      * split; [intros _; exists o, n; auto | reflexivity].
  - pose proof (by_name_keys _ _ Eo) as Ko. pose proof (by_name_in _ _ Eo) as Io.
    cbn [old new pair_status].
    split; [exact Ko|].
    split; [intros o' [= <-]; auto|].
    split; [intros n' H; discriminate H|].
    split; [apply iff_refl|].
    split; [apply iff_refl|].
    split; [split; discriminate|].
    split; [split; [intros _; split; [discriminate | reflexivity] | reflexivity]|].
    split; (split; [discriminate | intros (o' & n' & _ & H & _); discriminate H]).
  - pose proof (by_name_keys _ _ En) as Kn. pose proof (by_name_in _ _ En) as In_.
    cbn [old new pair_status].
    split; [exact Kn|].
    split; [intros o' H; discriminate H|].
    split; [intros n' [= <-]; auto|].
    split; [apply iff_refl|].
    split; [apply iff_refl|].
    split; [split; reflexivity|].
    split; [split; [discriminate | intros [H _]; now exfalso]|].
    split; (split; [discriminate | intros (o' & n' & H & _); discriminate H]).
  - exfalso. destruct Hsome as [H|H]; now apply H.
Qed.

Lemma pair_crds_keys installed proposed :
  map pair_key (pair_crds installed proposed)
  = unique_keys (map fst (by_name installed) ++ map fst (by_name proposed)).
Proof.
  unfold pair_crds. cbv zeta. rewrite map_map.
  rewrite <- (map_id (unique_keys _)) at 2. apply map_ext_in.
  intros k Hk. apply pair_crds_name_in in Hk.
  exact (proj1 (pair_of_name_spec installed proposed k Hk)).
Qed.

Lemma pair_crds_in installed proposed p :
  In p (pair_crds installed proposed) ->
  p = pair_of_name (by_name installed) (by_name proposed) (pair_key p) /\
  (In (pair_key p) (map name installed) \/ In (pair_key p) (map name proposed)).
Proof.
  unfold pair_crds. cbv zeta. intros H.
  apply in_map_iff in H as (k & <- & Hk). apply pair_crds_name_in in Hk.
  rewrite (proj1 (pair_of_name_spec installed proposed k Hk)). auto.
Qed.

Lemma pair_keys_spec installed proposed :
  NoDup (map pair_key (pair_crds installed proposed)) /\
  (forall nm, In nm (map pair_key (pair_crds installed proposed))
              <-> In nm (map name installed) \/ In nm (map name proposed)).
Proof.
  rewrite pair_crds_keys. split; [apply unique_keys_nodup|].
  intros nm; apply pair_crds_name_in.
Qed.

(** X3. [pair_crds] pairs by name: each name of an installed or proposed
    CRD gets one pair, and no other name does.  The sides of a pair are
    CRDs of that name taken from the two lists; a side is missing exactly
    when its list has no CRD of the name; the status is [added] exactly
    when the installed side is missing, [removed] exactly when only the
    proposed side is, and [unchanged] or [changed] when both are there,
    by the equality of the two bodies. *)
Theorem pair_crds_pairs_each_name_once (installed proposed : list Resource) :
  NoDup (map pair_key (pair_crds installed proposed)) /\
  (forall nm, In nm (map pair_key (pair_crds installed proposed))
              <-> In nm (map name installed) \/ In nm (map name proposed)) /\
  (forall p, In p (pair_crds installed proposed) ->
     (forall o, old p = Some o -> In o installed /\ name o = pair_key p) /\
     (forall n, new p = Some n -> In n proposed /\ name n = pair_key p) /\
     (old p = None <-> ~ In (pair_key p) (map name installed)) /\
     (new p = None <-> ~ In (pair_key p) (map name proposed)) /\
     (pair_status p = "added" <-> old p = None) /\
     (pair_status p = "removed" <-> old p <> None /\ new p = None) /\
     (pair_status p = "unchanged" <->
      exists o n, old p = Some o /\ new p = Some n /\
                  py_eq (res_body o) (res_body n) = true) /\
     (pair_status p = "changed" <->
      exists o n, old p = Some o /\ new p = Some n /\
                  py_eq (res_body o) (res_body n) = false)).
Proof.
  rewrite pair_crds_keys. split; [apply unique_keys_nodup|].
  split; [intros nm; apply pair_crds_name_in|].
  intros p Hp. apply pair_crds_in in Hp as (Ep & Hk).
  pose proof (pair_of_name_spec installed proposed (pair_key p) Hk) as H.
  cbv zeta in H. rewrite <- Ep in H. exact (proj2 H).
Qed.

(** ** [crd/differ.py]: the loop of [diff_crds] *)

Lemma for_each_flat {A B} (body : list B -> A -> result (list B))
    (g : A -> list B) l :
  (forall acc x, In x l -> body acc x = Ok (acc ++ g x)) ->
  forall acc, for_each l acc body = Ok (acc ++ flat_map g l).
Proof.
  induction l as [|x rest IH]; intros H acc; simpl.
  - now rewrite app_nil_r.
  - rewrite (H acc x) by now left. simpl.
    rewrite IH by (intros a y Hy; apply H; now right).
    now rewrite <- app_assoc.
Qed.

Lemma flat_map_filter {A B} (f : A -> bool) (h : A -> B) l :
  flat_map (fun x => if f x then [h x] else []) l = map h (filter f l).
Proof.
  induction l as [|x rest IH]; simpl; [reflexivity|].
  destruct (f x); simpl; now rewrite IH.
Qed.

Lemma diff_crds_step results p :
  (if String.eqb (pair_status p) "added"
      || String.eqb (pair_status p) "removed" then
     Ok (results ++ [(p, [])])
   else if String.eqb (pair_status p) "unchanged" then
     Ok results
   else
     match old p, new p with
     | Some o, Some n =>
         let old_body := strip_noise (res_body o) CRD_NOISE_PATHS in
         let new_body := strip_noise (res_body n) CRD_NOISE_PATHS in
         let old_body := normalize_body old_body in
         let new_body := normalize_body new_body in
         if is_semantically_equal old_body new_body then Ok results
         else
           let changes := extract_changes old_body new_body in
           match changes with
           | _ :: _ => Ok (results ++ [(p, changes)])
           | [] => Ok results
           end
     | _, _ => Raise AssertionError
     end)
  = if well_paired p
    then Ok (results ++ (if kept_pair p then [(p, changes_of p)] else []))
    else Raise AssertionError.
Proof.
  unfold well_paired, kept_pair, changes_of, crd_view. cbv zeta.
  destruct (String.eqb (pair_status p) "added"
            || String.eqb (pair_status p) "removed"); cbn [orb]; [reflexivity|].
  destruct (String.eqb (pair_status p) "unchanged"); cbn [orb].
  { now rewrite app_nil_r. }
  destruct (old p) as [o|]; [|reflexivity].
  destruct (new p) as [n|]; [|reflexivity].
  destruct (is_semantically_equal _ _); cbn [negb andb].
  { now rewrite app_nil_r. }
  destruct (extract_changes _ _); [now rewrite app_nil_r | reflexivity].
Qed.

Lemma diff_crds_well_paired pairs :
  Forall (fun p => well_paired p = true) pairs ->
  diff_crds pairs
  = Ok (map (fun p => (p, changes_of p)) (filter kept_pair pairs)).
Proof.
  intros H. unfold diff_crds.
  rewrite (for_each_flat _
             (fun p => if kept_pair p then [(p, changes_of p)] else [])).
  - now rewrite flat_map_filter.
  - intros acc p Hp. rewrite diff_crds_step.
    rewrite Forall_forall in H. now rewrite (H p Hp).
Qed.

Lemma pair_of_name_well_paired old_map new_map k :
  well_paired (pair_of_name old_map new_map k) = true.
Proof.
  unfold pair_of_name, well_paired. cbv zeta.
  destruct (dict_get k old_map) as [o|]; [|reflexivity].
  destruct (dict_get k new_map) as [n|]; [|reflexivity].
  destruct (py_eq _ _); reflexivity.
Qed.

Lemma pair_crds_well_paired installed proposed :
  Forall (fun p => well_paired p = true) (pair_crds installed proposed).
Proof.
  unfold pair_crds. cbv zeta. apply Forall_forall. intros p Hp.
  apply in_map_iff in Hp as (k & <- & _). apply pair_of_name_well_paired.
Qed.

(** X4. On the pairs of [pair_crds] the loop of [diff_crds] is a filter:
    it returns, in the order of the pairs, every added or removed pair
    with no change and every other pair that is not [unchanged], whose
    views differ semantically and have a change between them, with these
    changes; the assertion never fails there.  It fails on the first pair
    of another status that lacks a side, whatever comes after it. *)
Theorem diff_crds_filters_the_pairs (installed proposed : list Resource) :
  diff_crds (pair_crds installed proposed)
  = Ok (map (fun p => (p, changes_of p))
            (filter kept_pair (pair_crds installed proposed))) /\
  (forall before p after,
     Forall (fun q => well_paired q = true) before ->
     well_paired p = false ->
     diff_crds (before ++ p :: after) = Raise AssertionError).
Proof.
  split.
  - apply diff_crds_well_paired, pair_crds_well_paired.
  - intros before p after Hb Hp. unfold diff_crds.
    rewrite for_each_app.
    change (for_each before [] _) with (diff_crds before).
    rewrite (diff_crds_well_paired Hb). cbn [bind for_each].
    rewrite diff_crds_step, Hp. reflexivity.
Qed.


(** ** [crd/pipeline.py]: what a report holds *)

Lemma collect_forall2 {A B} (f : A -> result B) l : forall acc res,
  for_each l acc (fun acc x => y <- f x ;; Ok (acc ++ [y])) = Ok res ->
  exists ys, res = acc ++ ys /\ Forall2 (fun x y => f x = Ok y) l ys.
Proof.
  induction l as [|x rest IH]; intros acc res H; cbn [for_each] in H.
  - injection H as <-. exists []. split; [now rewrite app_nil_r | constructor].
  - apply bind_ok_inv in H as (acc' & Hx & H).
    apply bind_ok_inv in Hx as (y & Hy & Hx). injection Hx as <-.
    destruct (IH _ _ H) as (ys & -> & HF).
    exists (y :: ys). split; [now rewrite <- app_assoc | now constructor].
Qed.

Lemma Forall2_of_map {A B C} (R : B -> C -> Prop) (g : A -> B) l : forall ys,
  Forall2 R (map g l) ys -> Forall2 (fun x y => R (g x) y) l ys.
Proof.
  induction l as [|x rest IH]; intros ys H; inversion H; subst;
    constructor; auto.
Qed.

Lemma Forall2_in_right {A B} (R : A -> B -> Prop) l ys y :
  Forall2 R l ys -> In y ys -> exists x, In x l /\ R x y.
Proof.
  induction 1 as [|x y' l' ys' HR HF IH]; intros Hin; [destruct Hin|].
  destruct Hin as [<-|Hin].
  - exists x. split; [now left | assumption].
  - destruct (IH Hin) as (x' & Hx' & HR'). exists x'. split; [now right | assumption].
Qed.

Lemma Forall2_in_left {A B} (R : A -> B -> Prop) l ys x :
  Forall2 R l ys -> In x l -> exists y, In y ys /\ R x y.
Proof.
  induction 1 as [|x' y l' ys' HR HF IH]; intros Hin; [destruct Hin|].
  destruct Hin as [<-|Hin].
  - exists y. split; [now left | assumption].
  - destruct (IH Hin) as (y' & Hy' & HR'). exists y'. split; [now right | assumption].
Qed.

Lemma Forall2_map_eq {A B C} (R : A -> B -> Prop) (f : A -> C) (g : B -> C) l ys :
  Forall2 R l ys -> (forall x y, R x y -> f x = g y) -> map f l = map g ys.
Proof.
  intros H Hfg. induction H as [|x y l' ys' HR HF IH]; simpl; [reflexivity|].
  now rewrite (Hfg _ _ HR), IH.
Qed.

Lemma NoDup_map_filter {A B} (f : A -> B) (g : A -> bool) l :
  NoDup (map f l) -> NoDup (map f (filter g l)).
Proof.
  induction l as [|x rest IH]; simpl; intros H; [constructor|].
  inversion H as [|? ? Hn Hr]; subst.
  destruct (g x); simpl; [|auto]. constructor; [|auto].
  intros Hin. apply Hn. apply in_map_iff in Hin as (y & Hy & Hin).
  apply filter_In in Hin as [Hin _]. apply in_map_iff. eauto.
Qed.

Lemma name_in_iff n names : name_in n names = true <-> In n names.
Proof.
  unfold name_in. rewrite existsb_exists. split.
  - intros (x & Hx & E). apply String.eqb_eq in E. now subst.
  - intros H. exists n. split; [assumption | apply String.eqb_refl].
Qed.

Lemma relevant_names proposed installed k :
  In k (map name (relevant proposed installed)) ->
  In k (map name proposed) /\ In k (map name installed).
Proof.
  unfold relevant. cbv zeta. intros H.
  apply in_map_iff in H as (r & <- & Hr). apply filter_In in Hr as [Hr Hn].
  split; [now apply name_in_iff | now apply in_map].
Qed.

Lemma run_crd_pipeline_inv
    upgrade chart_path policy_mode release_name kube_opts report :
  run_crd_pipeline upgrade chart_path policy_mode release_name kube_opts
  = Ok report ->
  exists proposed,
    proposed_crds_of upgrade chart_path = Ok proposed /\
    ((proposed = [] /\ report = set_policy empty_report policy_mode) \/
     (proposed <> [] /\
      exists installed details news,
        discover_cluster_crds kube_opts = Ok installed /\
        Forall2 (fun p d =>
                   process_pair release_name kube_opts (p, changes_of p) = Ok d)
          (filter kept_pair (pair_crds (relevant proposed installed) proposed))
          details /\
        detect_new_crds (relevant proposed installed) proposed = Ok news /\
        report = set_policy
                   (mkCrdReport details news None
                      (match installed with
                       | [] => [could_not_retrieve]
                       | _ :: _ => []
                       end)) policy_mode)).
Proof.
  unfold run_crd_pipeline. cbv zeta. intros H.
  apply bind_ok_inv in H as (proposed & Hp & H).
  exists proposed. split; [exact Hp|].
  destruct proposed as [|c cs].
  - left. injection H as <-. auto.
  - right. split; [discriminate|].
    apply bind_ok_inv in H as (installed & Hi & H).
    apply bind_ok_inv in H as (diffs & Hd & H).
    rewrite (diff_crds_well_paired (pair_crds_well_paired _ _)) in Hd.
    injection Hd as <-.
    apply bind_ok_inv in H as (details & Hde & H).
    apply bind_ok_inv in H as (news & Hn & H).
    injection H as <-.
    exists installed, details, news.
    split; [exact Hi|]. split; [|split; [exact Hn|]].
    + assert (for_each
                (map (fun p => (p, changes_of p))
                   (filter kept_pair
                      (pair_crds (relevant (c :: cs) installed) (c :: cs))))
                [] (fun crds entry =>
                      detail <- process_pair release_name kube_opts entry ;;
                      Ok (crds ++ [detail])) = Ok details) as Hde'
        by (destruct installed; exact Hde).
      apply collect_forall2 in Hde' as (ys & -> & HF).
      apply Forall2_of_map in HF. exact HF.
    + destruct installed; reflexivity.
Qed.

Lemma process_pair_key release_name kube_opts p chs d :
  process_pair release_name kube_opts (p, chs) = Ok d ->
  cd_name d = pair_key p /\ cd_status d = pair_status p /\ changes d = chs.
Proof.
  intros H. destruct (process_pair_fields _ _ _ _ H) as (Hs & Hc & Hn).
  split; [|auto]. unfold pair_named in Hn. unfold pair_key.
  destruct (new p); [now symmetry|]. destruct (old p); [now symmetry | destruct Hn].
Qed.

Lemma process_pair_added release_name kube_opts p d :
  pair_status p = "added" -> old p = None ->
  process_pair release_name kube_opts (p, changes_of p) = Ok d ->
  d = mkCrdChangeDetail (pair_key p) "added" [] [] [] [] None.
Proof.
  intros Hs Ho H. unfold changes_of in H. rewrite Hs in H.
  cbn [String.eqb Ascii.eqb Bool.eqb orb] in H.
  unfold process_pair, pair_key in *. rewrite Hs, Ho in *.
  destruct (new p) as [n|]; [|discriminate H].
  cbn [bind String.eqb Ascii.eqb Bool.eqb] in H. now injection H as <-.
Qed.

(** The pairs the pipeline keeps: the name is a proposed one, the
    proposed side is there, and the status is [added], without an
    installed side, or [changed]. *)
Lemma pipeline_pair proposed installed p :
  In p (filter kept_pair (pair_crds (relevant proposed installed) proposed)) ->
  In (pair_key p) (map name proposed) /\
  ((pair_status p = "added" /\ old p = None) \/ pair_status p = "changed").
Proof.
  intros Hp. apply filter_In in Hp as [Hp Hk].
  pose proof (pair_crds_in _ _ _ Hp) as (Ep & Hin).
  assert (In (pair_key p) (map name proposed)) as Hprop.
  { destruct Hin as [Hin|Hin]; [|exact Hin]. now apply relevant_names in Hin. }
  split; [exact Hprop|].
  pose proof (pair_of_name_spec _ _ _ Hin) as Hspec. cbv zeta in Hspec.
  rewrite <- Ep in Hspec.
  destruct Hspec as (_ & _ & _ & _ & Hnew & Hadd & _ & _ & Hch).
  destruct (old p) as [o|] eqn:Eo.
  - right. destruct (new p) as [n|] eqn:En.
    + destruct (py_eq (res_body o) (res_body n)) eqn:Eq.
      * exfalso. rewrite Ep in Hk, Eo, En. unfold pair_of_name in *.
        cbv zeta in *.
        destruct (dict_get (pair_key p) (by_name (relevant proposed installed)));
          [|discriminate Eo].
        destruct (dict_get (pair_key p) (by_name proposed)); [|discriminate En].
        cbn [old new] in *.
        destruct (py_eq (res_body r) (res_body r0)) eqn:Eq'.
        -- discriminate Hk.
        -- cbn [old new] in Eo, En. injection Eo as ->. injection En as ->.
           congruence.
      * apply Hch. eauto.
    + exfalso. now apply (proj1 Hnew).
  - left. split; [now apply Hadd | reflexivity].
Qed.

(** X5. The details of a report are about proposed CRDs, one detail per
    name at most, and their status is [added] or [changed]: the pipeline
    looks at the installed CRDs of proposed names only, so that nothing is
    ever reported as removed.  A detail of status [added] carries nothing
    but the name. *)
Theorem report_details_are_added_or_changed
    (upgrade : list Resource) (chart_path : option string)
    (policy_mode : CrdPolicyMode) (release_name : option string)
    (kube_opts : KubeOpts) (report : CrdReport) (proposed : list Resource) :
  run_crd_pipeline upgrade chart_path policy_mode release_name kube_opts
  = Ok report ->
  proposed_crds_of upgrade chart_path = Ok proposed ->
  NoDup (map cd_name (crds report)) /\
  (forall d, In d (crds report) ->
     In (cd_name d) (map name proposed) /\
     (cd_status d = "added" \/ cd_status d = "changed")) /\
  (forall d, In d (crds report) -> cd_status d = "added" ->
     d = mkCrdChangeDetail (cd_name d) "added" [] [] [] [] None).
Proof.
  intros H Hp.
  apply run_crd_pipeline_inv in H as (proposed' & Hp' & H).
  rewrite Hp in Hp'. injection Hp' as <-.
  destruct H as [[-> ->] | (_ & installed & details & news & _ & HF & _ & ->)].
  { cbn [set_policy crds empty_report map].
    split; [constructor|]. split; intros d []. }
  cbn [set_policy crds].
  assert (forall d, In d details ->
            exists p,
              In p (filter kept_pair
                      (pair_crds (relevant proposed installed) proposed)) /\
              process_pair release_name kube_opts (p, changes_of p) = Ok d)
    as Hd by (intros d Hin; exact (@Forall2_in_right _ _ _ _ _ d HF Hin)).
  split; [|split].
  - rewrite <- (@Forall2_map_eq _ _ _ _ pair_key cd_name _ _ HF).
    + apply NoDup_map_filter.
      exact (proj1 (pair_keys_spec _ _)).
    + intros p d Hpd. symmetry. exact (proj1 (process_pair_key _ _ _ _ Hpd)).
  - intros d Hin. destruct (Hd d Hin) as (p & Hp' & Hpd).
    destruct (process_pair_key _ _ _ _ Hpd) as (-> & -> & _).
    destruct (pipeline_pair _ _ _ Hp') as (Hn & [[Hs _]|Hs]); auto.
  - intros d Hin Hs. destruct (Hd d Hin) as (p & Hp' & Hpd).
    destruct (process_pair_key _ _ _ _ Hpd) as (Hn & Hst & _).
    rewrite Hn. apply (process_pair_added release_name kube_opts); [congruence| |exact Hpd].
    destruct (pipeline_pair _ _ _ Hp') as (_ & [[_ Ho]|Hc]); [exact Ho|].
    congruence.
Qed.


Lemma no_annotation_no_block r mode :
  (forall d, In d (crds r) -> risk_annotations d = []) ->
  has_issues r = false /\ has_dangers r = false /\
  blocked (evaluate_policy r mode) = false.
Proof.
  intros H.
  assert (forall d, In d (crds r) -> max_risk d = SAFE) as Hs.
  { intros d Hd. unfold max_risk. now rewrite (H d Hd). }
  assert (has_dangers r = false) as Hd.
  { unfold has_dangers. destruct (existsb _ (crds r)) eqn:E; [|reflexivity].
    apply existsb_exists in E as (d & Hin & E). rewrite (Hs d Hin) in E.
    discriminate E. }
  split; [|split; [exact Hd|]].
  - unfold has_issues. destruct (existsb _ (crds r)) eqn:E; [|reflexivity].
    apply existsb_exists in E as (d & Hin & E). rewrite (Hs d Hin) in E.
    discriminate E.
  - destruct mode; [reflexivity | reflexivity|].
    now rewrite blocked_fail_has_dangers.
Qed.

(** X6. When there are proposed CRDs and the discovery returns nothing
    (it does so when [kubectl] fails), the report of the pipeline has the
    one warning that the installed CRDs could not be retrieved, a detail
    of status [added] for each proposed name and for nothing else, no
    issue, and a policy result that does not block, in any mode.  When the
    discovery returns a CRD, of whatever name, the report has no
    warning. *)
Theorem empty_discovery_reports_every_crd_as_added
    (upgrade : list Resource) (chart_path : option string)
    (policy_mode : CrdPolicyMode) (release_name : option string)
    (kube_opts : KubeOpts) (report : CrdReport) (proposed : list Resource) :
  run_crd_pipeline upgrade chart_path policy_mode release_name kube_opts
  = Ok report ->
  proposed_crds_of upgrade chart_path = Ok proposed ->
  proposed <> [] ->
  (discover_cluster_crds kube_opts = Ok [] ->
   warnings report = [could_not_retrieve] /\
   (forall d, In d (crds report) -> cd_status d = "added") /\
   (forall nm, In nm (map cd_name (crds report)) <-> In nm (map name proposed)) /\
   has_issues report = false /\
   policy_blocks (Some report) = false) /\
  (forall c rest, discover_cluster_crds kube_opts = Ok (c :: rest) ->
                  warnings report = []).
Proof.
  intros H Hp Hne.
  apply run_crd_pipeline_inv in H as (proposed' & Hp' & H).
  rewrite Hp in Hp'. injection Hp' as <-.
  destruct H as [[-> _] | (_ & installed & details & news & Hi & HF & _ & ->)];
    [now exfalso|].
  split.
  2:{ intros c rest Hc. rewrite Hc in Hi. injection Hi as <-. reflexivity. }
  intros Hc. rewrite Hc in Hi. injection Hi as <-.
  change (relevant proposed []) with (@nil Resource) in HF.
  assert (forall p, In p (pair_crds [] proposed) ->
                    pair_status p = "added" /\ old p = None) as Hadd.
  { intros p Hin. pose proof (pair_crds_in _ _ _ Hin) as (Ep & Hk).
    pose proof (pair_of_name_spec _ _ _ Hk) as Hs. cbv zeta in Hs.
    rewrite <- Ep in Hs. destruct Hs as (_ & _ & _ & Hold & _ & Hst & _).
    assert (old p = None) as Ho by (apply Hold; intros []).
    split; [now apply Hst | exact Ho]. }
  assert (filter kept_pair (pair_crds [] proposed) = pair_crds [] proposed)
    as Hall.
  { apply forallb_filter_id. apply forallb_forall. intros p Hin.
    unfold kept_pair. now rewrite (proj1 (Hadd p Hin)). }
  rewrite Hall in HF.
  assert (forall d, In d details ->
                    d = mkCrdChangeDetail (cd_name d) "added" [] [] [] [] None)
    as Hd.
  { intros d Hin.
    destruct (@Forall2_in_right _ _ _ _ _ d HF Hin) as (p & Hin' & Hpd).
    destruct (Hadd p Hin') as (Hs & Ho).
    rewrite (proj1 (process_pair_key _ _ _ _ Hpd)).
    exact (process_pair_added _ _ _ Hs Ho Hpd). }
  cbn [set_policy crds warnings policy_blocks policy_result].
  split; [reflexivity|]. split; [|split; [|split]].
  - intros d Hin. rewrite (Hd d Hin). reflexivity.
  - intros nm.
    rewrite <- (@Forall2_map_eq _ _ _ _ pair_key cd_name _ _ HF)
      by (intros p d Hpd; symmetry; exact (proj1 (process_pair_key _ _ _ _ Hpd))).
    rewrite (proj2 (pair_keys_spec [] proposed) nm). simpl.
    split; [intros [[]|Hn]; exact Hn | auto].
  - apply (no_annotation_no_block _ policy_mode). cbn [crds].
    intros d Hin. rewrite (Hd d Hin). reflexivity.
  - apply no_annotation_no_block. cbn [crds].
    intros d Hin. rewrite (Hd d Hin). reflexivity.
Qed.

(** X7. The policy result of a report is the policy evaluated on the
    report it is stored in, in the mode of the run: every report has one,
    and it blocks exactly in mode [fail] when the report has a danger. *)
Theorem report_policy_is_policy_of_report
    (upgrade : list Resource) (chart_path : option string)
    (policy_mode : CrdPolicyMode) (release_name : option string)
    (kube_opts : KubeOpts) (report : CrdReport) :
  run_crd_pipeline upgrade chart_path policy_mode release_name kube_opts
  = Ok report ->
  policy_result report = Some (evaluate_policy report policy_mode) /\
  (policy_blocks (Some report) = true
   <-> policy_mode = FAIL /\ has_dangers report = true).
Proof.
  intros H.
  assert (exists r, report = set_policy r policy_mode) as (r & ->).
  { apply run_crd_pipeline_inv in H as (proposed & _ & H).
    destruct H as [[_ ->] | (_ & installed & details & news & _ & _ & _ & ->)];
      eauto. }
  assert (policy_result (set_policy r policy_mode)
          = Some (evaluate_policy (set_policy r policy_mode) policy_mode)) as E.
  { reflexivity. }
  split; [exact E|].
  unfold policy_blocks. rewrite E. destruct policy_mode.
  - split; [discriminate | intros [H' _]; discriminate H'].
  - split; [discriminate | intros [H' _]; discriminate H'].
  - rewrite blocked_fail_has_dangers. split; [auto | intros [_ H']; exact H'].
Qed.

(** ** [crd/detect_new.py] *)

Lemma detect_new_loop installed_names proposed : forall acc news,
  for_each proposed acc (fun new_crds r =>
    if negb (name_in (name r) installed_names) then
      spec <- py_get (res_body r) "spec" (Map []) ;;
      group <- py_get spec "group" (Str "") ;;
      names <- py_get spec "names" (Map []) ;;
      kind <- py_get names "kind" (Str "") ;;
      versions <- py_get spec "versions" (Seq []) ;;
      vs <- py_iter versions ;;
      version_names <- for_each vs [] (fun acc v =>
        n <- py_get v "name" (Str "") ;; Ok (acc ++ [n])) ;;
      Ok (new_crds ++ [mkNewCrdInfo (name r) group kind version_names])
    else Ok new_crds) = Ok news ->
  map nc_name news
  = map nc_name acc
    ++ map name (filter (fun r => negb (name_in (name r) installed_names))
                   proposed).
Proof.
  induction proposed as [|r rest IH]; intros acc news H; cbn [for_each] in H.
  - injection H as <-. cbn [filter map]. now rewrite app_nil_r.
  - apply bind_ok_inv in H as (acc' & Hb & H).
    rewrite (IH _ _ H). cbn [filter].
    destruct (negb (name_in (name r) installed_names)).
    + do 7 (apply bind_ok_inv in Hb as (? & _ & Hb)). injection Hb as <-.
      rewrite map_app. cbn [map nc_name]. now rewrite <- app_assoc.
    + injection Hb as <-. reflexivity.
Qed.

(** X17. The new CRDs of a report and its details of status [added] are
    about the same names: a proposed CRD is listed as new exactly when
    the report has an [added] detail under its name. *)
Theorem new_crds_are_the_added_details
    (upgrade : list Resource) (chart_path : option string)
    (policy_mode : CrdPolicyMode) (release_name : option string)
    (kube_opts : KubeOpts) (report : CrdReport) :
  run_crd_pipeline upgrade chart_path policy_mode release_name kube_opts
  = Ok report ->
  forall nm,
    In nm (map nc_name (new_crds report))
    <-> exists d, In d (crds report) /\ cd_name d = nm /\ cd_status d = "added".
Proof.
  intros H nm.
  apply run_crd_pipeline_inv in H as (proposed & _ & H).
  destruct H as [[_ ->] | (_ & installed & details & news & _ & HF & Hn & ->)].
  { cbn [set_policy crds new_crds empty_report map].
    split; [intros [] | intros (d & [] & _)]. }
  cbn [set_policy crds new_crds].
  unfold detect_new_crds in Hn. cbv zeta in Hn.
  apply detect_new_loop in Hn. rewrite Hn. clear Hn.
  change (map nc_name (@nil NewCrdInfo)) with (@nil string). rewrite app_nil_l.
  rewrite in_map_iff. split.
  - intros (r & <- & Hr). apply filter_In in Hr as [Hr Hnot].
    assert (~ In (name r) (map name (relevant proposed installed))) as Hni.
    { intros Hin. apply name_in_iff in Hin. rewrite Hin in Hnot.
      discriminate Hnot. }
    assert (In (name r) (map pair_key
                           (pair_crds (relevant proposed installed) proposed)))
      as Hk by (apply pair_keys_spec; right; now apply in_map).
    apply in_map_iff in Hk as (p & Hkey & Hp).
    pose proof (pair_crds_in _ _ _ Hp) as (Ep & Hin).
    pose proof (pair_of_name_spec _ _ _ Hin) as Hs. cbv zeta in Hs.
    rewrite <- Ep in Hs. destruct Hs as (_ & _ & _ & Hold & _ & Hst & _).
    rewrite Hkey in Hold.
    assert (pair_status p = "added") as Hadd by (apply Hst, Hold, Hni).
    assert (In p (filter kept_pair
                    (pair_crds (relevant proposed installed) proposed))) as Hf.
    { apply filter_In. split; [exact Hp|]. unfold kept_pair. now rewrite Hadd. }
    destruct (@Forall2_in_left _ _ _ _ _ p HF Hf) as (d & Hd & Hpd).
    destruct (process_pair_key _ _ _ _ Hpd) as (Hn & Hs' & _).
    exists d. split; [exact Hd|]. split; congruence.
  - intros (d & Hd & <- & Hs).
    destruct (@Forall2_in_right _ _ _ _ _ d HF Hd) as (p & Hp & Hpd).
    destruct (process_pair_key _ _ _ _ Hpd) as (Hn & Hs' & _).
    destruct (pipeline_pair _ _ _ Hp) as (Hin & Hcase).
    assert (old p = None) as Ho.
    { destruct Hcase as [[_ Ho]|Hc]; [exact Ho | congruence]. }
    apply filter_In in Hp as [Hp _].
    pose proof (pair_crds_in _ _ _ Hp) as (Ep & Hin').
    pose proof (pair_of_name_spec _ _ _ Hin') as Hspec. cbv zeta in Hspec.
    rewrite <- Ep in Hspec. destruct Hspec as (_ & _ & _ & Hold & _).
    apply Hold in Ho.
    apply in_map_iff in Hin as (r & Hr & Hin).
    exists r. split; [congruence|]. apply filter_In. split; [exact Hin|].
    destruct (name_in (name r) (map name (relevant proposed installed))) eqn:E;
      [|reflexivity].
    apply name_in_iff in E. rewrite Hr in E. now exfalso.
Qed.


(** ** [cli.py] *)

Lemma mode_of_value_inv s m : mode_of_value s = Some m -> s = mode_value m.
Proof.
  unfold mode_of_value.
  destruct (String.eqb s "ignore") eqn:E1;
    [apply String.eqb_eq in E1; now intros [= <-]|].
  destruct (String.eqb s "warn") eqn:E2;
    [apply String.eqb_eq in E2; now intros [= <-]|].
  destruct (String.eqb s "fail") eqn:E3;
    [apply String.eqb_eq in E3; now intros [= <-]|].
  discriminate.
Qed.

Lemma pipeline_report_policy
    upgrade chart_path policy_mode release_name kube_opts report :
  run_crd_pipeline upgrade chart_path policy_mode release_name kube_opts
  = Ok report ->
  policy_result report = Some (evaluate_policy report policy_mode).
Proof.
  intros H. apply run_crd_pipeline_inv in H as (proposed & _ & H).
  destruct H as [[_ ->] | (_ & installed & details & news & _ & _ & _ & ->)];
    reflexivity.
Qed.

Lemma analyse_report a an :
  analyse a = Go an ->
  (a_check_crds a = false /\ crd_report an = None) \/
  (a_check_crds a = true /\
   exists upgrade r,
     _run_crd_analysis upgrade (a_chart a) (a_crd_policy a) (a_release a)
       (kube_opts_of a) = Ok r /\
     crd_report an = Some r).
Proof.
  unfold analyse. cbv zeta.
  destruct (get_manifest _ _ _) as [live_yaml|msg]; simpl; [|discriminate].
  destruct (parse_multi_doc live_yaml _) as [live|e]; simpl; [|discriminate].
  destruct (dry_run_upgrade _ _ _ _ _ _ _) as [upgrade_yaml|msg]; simpl;
    [|discriminate].
  destruct (parse_multi_doc upgrade_yaml _) as [up|e]; simpl; [|discriminate].
  destruct (a_server_side a); simpl.
  - destruct (_apply_server_side _ _ _) as [up'|e]; simpl; [|discriminate].
    destruct (a_check_crds a).
    + destruct (_run_crd_analysis _ _ _ _ _) as [r|e] eqn:E; simpl;
        [|discriminate].
      intros [= <-]. right. split; [reflexivity|]. eauto.
    + intros [= <-]. left. auto.
  - destruct (a_check_crds a).
    + destruct (_run_crd_analysis _ _ _ _ _) as [r|e] eqn:E; simpl;
        [|discriminate].
      intros [= <-]. right. split; [reflexivity|]. eauto.
    + intros [= <-]. left. auto.
Qed.

Lemma not_fail_never_blocks a an :
  a_check_crds a = false \/ a_crd_policy a <> "fail" ->
  analyse a = Go an -> policy_blocks (crd_report an) = false.
Proof.
  intros Hflag Han.
  destruct (analyse_report _ Han) as [[_ ->] | (Hc & up & r & Hr & ->)];
    [reflexivity|].
  destruct Hflag as [Hf|Hp]; [congruence|].
  unfold _run_crd_analysis in Hr.
  destruct (mode_of_value (a_crd_policy a)) as [mode|] eqn:Em; [|discriminate].
  unfold policy_blocks. rewrite (pipeline_report_policy _ _ _ _ _ Hr).
  apply blocked_only_on_fail. intros ->. apply mode_of_value_inv in Em.
  now apply Hp.
Qed.

(** X8. Without [--check-crds], or with a CRD policy other than [fail],
    the command is never blocked by the policy: a run whose analysis and
    rendering return completes with what was rendered, [sys.exit] is
    reached only after a [RunError] of the primary path, and the exit
    status is 1 exactly when a [RunError] is raised in the primary path
    or an exception is caught by nothing. *)
Theorem only_fail_policy_blocks (a : DiffArgs) :
  a_check_crds a = false \/ a_crd_policy a <> "fail" ->
  ~ blocked_by_policy a /\
  (forall an printed,
     analyse a = Go an -> render a an = Ok printed ->
     diff a = Completed printed) /\
  (forall code printed err,
     diff a = Exited code printed err -> primary_run_error a) /\
  (exit_status (diff a) = 1%Z <->
   primary_run_error a \/ exists e, uncaught_exception a e).
Proof.
  intros Hflag.
  assert (forall an printed,
            analyse a = Go an -> render a an = Ok printed ->
            diff a = Completed printed) as Hgo.
  { intros an printed Han Hr. unfold diff, diff_body. rewrite Han.
    cbn [flow_bind]. rewrite Hr. cbn [of_result flow_bind].
    now rewrite (not_fail_never_blocks _ Hflag Han). }
  split; [|split; [exact Hgo|]].
  - intros Hb. pose proof Hb as (an & report & pr & Han & _).
    apply (blocked_by_policy_iff _ Han) in Hb.
    rewrite (not_fail_never_blocks _ Hflag Han) in Hb. discriminate Hb.
  - destruct (analyse_cases a)
      as [(Hp & msg & Hm) | (Hp & [(e & He) | (an & Han)])].
    + split; [auto|]. unfold diff, diff_body. rewrite Hm.
      cbn [flow_bind exit_status]. split; auto.
    + unfold diff, diff_body. rewrite He. cbn [flow_bind exit_status].
      split; [discriminate|]. split; [|reflexivity].
      intros _. right. exists e. now left.
    + destruct (render a an) as [printed|e] eqn:Er.
      * rewrite (Hgo an printed Han Er). cbn [exit_status].
        split; [discriminate|]. split; [discriminate|].
        intros [H|(e & [H|(an' & H & Hr)])]; [now exfalso | |].
        -- rewrite Han in H. discriminate H.
        -- rewrite Han in H. injection H as <-. rewrite Er in Hr.
           discriminate Hr.
      * unfold diff, diff_body. rewrite Han. cbn [flow_bind]. rewrite Er.
        cbn [of_result flow_bind exit_status].
        split; [discriminate|]. split; [|reflexivity].
        intros _. right. exists e. right. exists an. auto.
Qed.

Lemma server_side_loop ns kube_opts l : forall acc out,
  for_each l acc (server_side_one ns kube_opts) = Ok out ->
  exists ys,
    out = acc ++ ys /\
    Forall2 (fun res o =>
               o = res \/
               exists mutated_yaml rest,
                 server_side_dry_run (yaml_dump (res_body res)) ns kube_opts
                 = Done mutated_yaml /\
                 parse_multi_doc mutated_yaml ns = Ok (o :: rest)) l ys.
Proof.
  induction l as [|res rest IH]; intros acc out H; cbn [for_each] in H.
  - injection H as <-. exists []. split; [now rewrite app_nil_r | constructor].
  - apply bind_ok_inv in H as (acc' & Hone & H).
    destruct (IH _ _ H) as (ys & -> & HF).
    unfold server_side_one in Hone.
    destruct (server_side_dry_run _ ns kube_opts) as [mutated_yaml|msg] eqn:Es.
    + apply bind_ok_inv in Hone as (mutated & Hm & Hone).
      destruct mutated as [|first others]; injection Hone as <-.
      * exists (res :: ys). split; [now rewrite <- app_assoc|].
        constructor; [now left | exact HF].
      * exists (first :: ys). split; [now rewrite <- app_assoc|].
        constructor; [right; eauto | exact HF].
    + injection Hone as <-.
      exists (res :: ys). split; [now rewrite <- app_assoc|].
      constructor; [now left | exact HF].
Qed.

Lemma server_side_all_fail ns kube_opts l : forall acc,
  (forall res, In res l ->
     exists msg, server_side_dry_run (yaml_dump (res_body res)) ns kube_opts
                 = RunError msg) ->
  for_each l acc (server_side_one ns kube_opts) = Ok (acc ++ l).
Proof.
  induction l as [|res rest IH]; intros acc H; cbn [for_each].
  - now rewrite app_nil_r.
  - unfold server_side_one at 1.
    destruct (H res (or_introl eq_refl)) as (msg & ->). cbn [bind].
    rewrite IH by (intros r Hr; apply H; now right).
    now rewrite <- app_assoc.
Qed.

(** X9. The server-side pass returns one resource per rendered resource,
    in the same order: the rendered resource itself, or the first document
    of what the server returned for it.  When the dry-run fails for every
    resource, the pass returns the rendered resources as they are. *)
Theorem server_side_keeps_or_replaces
    (resources : list Resource) (ns : string) (kube_opts : KubeOpts) :
  (forall out,
     _apply_server_side resources ns kube_opts = Ok out ->
     length out = length resources /\
     Forall2 (fun res o =>
                o = res \/
                exists mutated_yaml rest,
                  server_side_dry_run (yaml_dump (res_body res)) ns kube_opts
                  = Done mutated_yaml /\
                  parse_multi_doc mutated_yaml ns = Ok (o :: rest))
       resources out) /\
  ((forall res, In res resources ->
      exists msg, server_side_dry_run (yaml_dump (res_body res)) ns kube_opts
                  = RunError msg) ->
   _apply_server_side resources ns kube_opts = Ok resources).
Proof.
  unfold _apply_server_side. split.
  - intros out H. apply server_side_loop in H as (ys & -> & HF).
    split; [|exact HF]. symmetry. exact (Forall2_length HF).
  - intros H. now rewrite (@server_side_all_fail ns kube_opts resources [] H).
Qed.

Lemma find_by_key_some k l r :
  find_by_key k l = Some r -> In r l /\ key r = k.
Proof.
  induction l as [|x rest IH]; simpl; [discriminate|].
  destruct (String.eqb (key x) k) eqn:E.
  - intros [= <-]. apply String.eqb_eq in E. auto.
  - intros H. destruct (IH H). auto.
Qed.

Lemma find_by_key_none k l :
  find_by_key k l = None <-> forall r, In r l -> key r <> k.
Proof.
  induction l as [|x rest IH]; simpl.
  - split; [intros _ r [] | reflexivity].
  - destruct (String.eqb (key x) k) eqn:E.
    + apply String.eqb_eq in E.
      split; [discriminate | intros H; exfalso; exact (H x (or_introl eq_refl) E)].
    + apply String.eqb_neq in E. rewrite IH.
      split; [intros H r [<-|Hr]; auto | intros H r Hr; apply H; now right].
Qed.

(** X20. The resource a change is shown with has the key of the change
    and comes from the rendered resources when one of them has that key,
    from the live resources only when none has; there is none exactly
    when no resource of either list has the key. *)
Theorem find_resource_prefers_the_rendered
    (change : ChangeRecord) (old_resources new_resources : list Resource) :
  (forall r, _find_resource change old_resources new_resources = Some r ->
     key r = resource_key change /\
     (In r new_resources \/
      (In r old_resources /\
       forall r', In r' new_resources -> key r' <> resource_key change))) /\
  (_find_resource change old_resources new_resources = None <->
   forall r, In r (new_resources ++ old_resources) ->
             key r <> resource_key change).
Proof.
  unfold _find_resource. split.
  - intros r. destruct (find_by_key _ new_resources) as [x|] eqn:En.
    + intros [= <-]. apply find_by_key_some in En as [Hin Hk]. auto.
    + intros Ho. apply find_by_key_some in Ho as [Hin Hk].
      split; [exact Hk|]. right. split; [exact Hin|].
      now apply find_by_key_none.
  - destruct (find_by_key _ new_resources) as [x|] eqn:En.
    + apply find_by_key_some in En as [Hin Hk].
      split; [discriminate|]. intros H. exfalso.
      apply (H x); [apply in_or_app; now left | exact Hk].
    + rewrite find_by_key_none.
      pose proof (proj1 (find_by_key_none _ _) En) as Hn.
      split.
      * intros H r Hr. apply in_app_or in Hr as [Hr|Hr]; auto.
      * intros H r Hr. apply H, in_or_app. now right.
Qed.


(** ** [crd/extraction.py] and step 1 of the pipeline *)

Lemma read_crd_file_crds acc yaml_file res :
  Forall (fun r => is_crd r = true) acc ->
  read_crd_file acc yaml_file = Ok res ->
  Forall (fun r => is_crd r = true) res.
Proof.
  intros Hacc. unfold read_crd_file. cbv zeta.
  destruct (snd yaml_file) as [text|e]; cbn [bind].
  - destruct (parse_multi_doc text "") as [parsed|e]; cbn [bind].
    + intros [= <-]. apply Forall_app. split; [exact Hacc|].
      apply Forall_forall. intros r Hr. apply filter_In in Hr. exact (proj2 Hr).
    + destruct e; intros E; try discriminate E; injection E as <-; exact Hacc.
  - destruct e; intros E; try discriminate E; injection E as <-; exact Hacc.
Qed.

Lemma chart_dir_crds chart_path rs :
  extract_crds_from_chart_dir chart_path = Ok rs ->
  Forall (fun r => is_crd r = true) rs.
Proof.
  unfold extract_crds_from_chart_dir.
  destruct (crds_dir chart_path) as [entries|]; [|intros [= <-]; constructor].
  intros H. apply bind_ok_inv in H as (first & H1 & H2).
  assert (Forall (fun r => is_crd r = true) first) as Hfirst.
  { revert H1.
    apply (@for_each_inv _ _ (Forall (fun r => is_crd r = true))); [constructor|].
    intros acc x acc' _ Hacc Hx. exact (read_crd_file_crds _ Hacc Hx). }
  revert H2.
  apply (@for_each_inv _ _ (Forall (fun r => is_crd r = true))); [exact Hfirst|].
  intros acc x acc' _ Hacc Hx. exact (read_crd_file_crds _ Hacc Hx).
Qed.

(** X10. The proposed CRDs of the pipeline are CRDs, every one of them:
    those of the rendered manifest, in their order, and after them CRDs
    of the chart's [crds/] folder, of which none has the name of a CRD of
    the manifest.  Without a chart path the folder is not read. *)
Theorem proposed_crds_manifest_first
    (upgrade : list Resource) (chart_path : option string)
    (proposed : list Resource) :
  proposed_crds_of upgrade chart_path = Ok proposed ->
  Forall (fun r => kind r = "CustomResourceDefinition") proposed /\
  (exists extra,
     proposed = extract_crds_from_resources upgrade ++ extra /\
     forall r, In r extra ->
       ~ In (name r) (map name (extract_crds_from_resources upgrade)) /\
       exists chart rs,
         chart_path = Some chart /\
         extract_crds_from_chart_dir chart = Ok rs /\ In r rs) /\
  (str_truthy chart_path = false ->
   proposed = extract_crds_from_resources upgrade).
Proof.
  unfold proposed_crds_of. cbv zeta. intros H.
  assert (Forall (fun r => is_crd r = true)
            (extract_crds_from_resources upgrade)) as Hman.
  { apply Forall_forall. intros r Hr. apply filter_In in Hr. exact (proj2 Hr). }
  assert (forall l, Forall (fun r => is_crd r = true) l ->
                    Forall (fun r => kind r = "CustomResourceDefinition") l)
    as Hkind.
  { intros l Hl. eapply Forall_impl; [|exact Hl].
    intros r Hr. now apply String.eqb_eq. }
  destruct (str_truthy chart_path) eqn:Et.
  - apply bind_ok_inv in H as (chart_crds & Hc & H). injection H as <-.
    pose proof (chart_dir_crds _ Hc) as Hcrds.
    split; [|split; [|discriminate]].
    + apply Hkind, Forall_app. split; [exact Hman|].
      apply Forall_forall. intros r Hr. apply filter_In in Hr as [Hr _].
      rewrite Forall_forall in Hcrds. auto.
    + eexists. split; [reflexivity|].
      intros r Hr. apply filter_In in Hr as [Hr Hn]. split.
      * intros Hin. apply name_in_iff in Hin. rewrite Hin in Hn. discriminate Hn.
      * destruct chart_path as [chart|]; [|discriminate Et]. eauto.
  - injection H as <-. split; [|split; [|reflexivity]].
    + now apply Hkind.
    + exists []. split; [now rewrite app_nil_r | intros r []].
Qed.

(** ** [crd/discovery.py] *)

Lemma discover_items_loop items : forall acc rs,
  for_each items acc (fun resources item =>
    if negb (is_dict item) then Ok resources
    else
      metadata <- py_get item "metadata" (Map []) ;;
      api_version <- (v <- py_get item "apiVersion"
                             (Str "apiextensions.k8s.io/v1") ;;
                      as_str v) ;;
      namespace <- (v <- py_get metadata "namespace" (Str "") ;;
                    as_str v) ;;
      name <- (v <- py_get metadata "name" (Str "") ;; as_str v) ;;
      Ok (resources ++
          [mkResource api_version "CustomResourceDefinition"
             namespace name item (yaml_dump item)])) = Ok rs ->
  Forall (fun r => kind r = "CustomResourceDefinition") acc ->
  Forall (fun r => kind r = "CustomResourceDefinition") rs /\
  map res_body rs = map res_body acc ++ filter is_dict items.
Proof.
  induction items as [|item rest IH]; intros acc rs H Hacc; cbn [for_each] in H.
  - injection H as <-. split; [exact Hacc|]. cbn [filter]. now rewrite app_nil_r.
  - apply bind_ok_inv in H as (acc' & Hb & H). cbn [filter].
    destruct (is_dict item); cbn [negb] in Hb.
    + do 4 (apply bind_ok_inv in Hb as (? & _ & Hb)). injection Hb as <-.
      destruct (IH _ _ H) as (Hk & Hm).
      { apply Forall_app. split; [exact Hacc|]. now constructor. }
      split; [exact Hk|]. rewrite Hm, map_app. cbn [map res_body].
      now rewrite <- app_assoc.
    + injection Hb as <-. exact (IH _ _ H Hacc).
Qed.

(** X11. The discovery returns CRDs only.  It returns nothing, and raises
    nothing, when [kubectl] fails, when its output is no YAML, and when
    the output is no mapping; from a [CustomResourceDefinitionList] it
    returns the items that are mappings, in their order, each with its
    body. *)
Theorem discovery_returns_crds_or_nothing (kube_opts : KubeOpts) :
  (forall rs, discover_cluster_crds kube_opts = Ok rs ->
     Forall (fun r => kind r = "CustomResourceDefinition") rs) /\
  (forall msg,
     run (["kubectl"; "get"; "crds"; "-o"; "yaml"] ++ _kube_flags kube_opts)
     = RunError msg ->
     discover_cluster_crds kube_opts = Ok []) /\
  (forall output,
     run (["kubectl"; "get"; "crds"; "-o"; "yaml"] ++ _kube_flags kube_opts)
     = Done output ->
     (yaml_safe_load output = Raise YAMLError ->
      discover_cluster_crds kube_opts = Ok []) /\
     (forall data, yaml_safe_load output = Ok data -> is_dict data = false ->
        discover_cluster_crds kube_opts = Ok []) /\
     (forall m items rs,
        yaml_safe_load output = Ok (Map m) ->
        lookup "kind" m = Some (Str "CustomResourceDefinitionList") ->
        lookup "items" m = Some (Seq items) ->
        discover_cluster_crds kube_opts = Ok rs ->
        map res_body rs = filter is_dict items)).
Proof.
  unfold discover_cluster_crds. cbv zeta. split; [|split].
  - intros rs.
    destruct (run _) as [output|msg]; [|intros [= <-]; constructor].
    destruct (yaml_safe_load output) as [data|e].
    2:{ destruct e; intros E; try discriminate E; injection E as <-; constructor. }
    destruct (negb (is_dict data)); [intros [= <-]; constructor|].
    intros H. apply bind_ok_inv in H as (data_kind & _ & H).
    destruct (py_eq data_kind _).
    + apply bind_ok_inv in H as (items & _ & H).
      apply bind_ok_inv in H as (item_list & _ & H).
      apply discover_items_loop in H as [H _]; [exact H | constructor].
    + apply bind_ok_inv in H as (parsed & _ & H). injection H as <-.
      apply Forall_forall. intros r Hr. apply filter_In in Hr as [_ Hr].
      now apply String.eqb_eq.
  - intros msg ->. reflexivity.
  - intros output ->. split; [|split].
    + intros ->. reflexivity.
    + intros data -> ->. reflexivity.
    + intros m items rs -> Hk Hi. cbn [is_dict negb py_get bind].
      rewrite Hk, Hi.
      change (py_eq (Str "CustomResourceDefinitionList")
                (Str "CustomResourceDefinitionList")) with true.
      cbn [py_iter bind]. intros H.
      apply discover_items_loop in H as [_ H]; [exact H | constructor].
Qed.

(** X19. Fetching custom resources raises nothing when [kubectl] fails:
    the list is empty then, and the validation of the live resources of a
    CRD returns no error, whatever the proposed schema is. *)
Theorem failed_fetch_gives_no_validation_error
    (new_crd : Resource) (kube_opts : KubeOpts) :
  (forall plural group msg,
     run (["kubectl"; "get"; fstr [py_str plural; "."; py_str group];
           "-A"; "-o"; "yaml"] ++ _kube_flags kube_opts) = RunError msg ->
     fetch_custom_resources plural group kube_opts = Ok (Seq [])) /\
  ((forall cmd, exists msg, run cmd = RunError msg) ->
   forall errs, _validate_live_crs new_crd kube_opts = Ok errs -> errs = []).
Proof.
  split.
  - intros plural group msg H. unfold fetch_custom_resources. cbv zeta.
    now rewrite H.
  - intros Hrun errs H. unfold _validate_live_crs in H.
    apply bind_ok_inv in H as (spec & _ & H).
    apply bind_ok_inv in H as (names & _ & H).
    apply bind_ok_inv in H as (plural & _ & H).
    apply bind_ok_inv in H as (group & _ & H).
    destruct (negb (py_truthy plural) || negb (py_truthy group));
      [now injection H as <-|].
    unfold fetch_custom_resources in H. cbv zeta in H.
    destruct (Hrun (["kubectl"; "get"; fstr [py_str plural; "."; py_str group];
                     "-A"; "-o"; "yaml"] ++ _kube_flags kube_opts))
      as (msg & Hm).
    rewrite Hm in H. cbn [bind py_truthy negb] in H. now injection H as <-.
Qed.


(** ** [crd/classifier.py]: what can be a danger *)

(** X21. A change is graded DANGER only when its change type is
    [item_added], [item_removed] or [value_changed]: a change of any other
    type is SAFE or WARNING, wherever it is. *)
Theorem danger_needs_a_known_change_type (fc : FieldChange) :
  level (_classify_single fc) = DANGER ->
  In (change_type fc) ["item_added"; "item_removed"; "value_changed"].
Proof.
  intros H. unfold _classify_single in H. cbv zeta in H.
  repeat match type of H with
         | context [if ?c then _ else _] =>
             let E := fresh "E" in
             destruct c eqn:E; cbn [level _annotation] in H;
             try discriminate H
         end;
    repeat match goal with
           | E : (_ && _)%bool = true |- _ => apply andb_true_iff in E as [_ E]
           end;
    match goal with
    | E : String.eqb (change_type fc) _ = true |- _ =>
        apply String.eqb_eq in E; rewrite E; simpl; auto 6
    end.
Qed.

(** ** [crd/pipeline.py]: the annotations of a detail *)

Lemma process_pair_annotations release_name kube_opts p chs d :
  process_pair release_name kube_opts (p, chs) = Ok d ->
  risk_annotations d = map _classify_single chs /\
  ownership_conflict d <> Some "".
Proof.
  intros H. unfold process_pair in H.
  apply bind_ok_inv in H as (nm & _ & H).
  apply bind_ok_inv in H as (ve & _ & H).
  apply bind_ok_inv in H as (sv & _ & H).
  injection H as <-. cbn [risk_annotations ownership_conflict]. split.
  - destruct chs as [|fc rest]; [reflexivity|].
    unfold classify_crd_changes. now rewrite classify_loop_spec.
  - destruct (old p) as [old_crd|]; [|discriminate].
    destruct (check_crd_ownership old_crd release_name) as [c|]; [|discriminate].
    destruct (String.eqb c "") eqn:E; cbn [negb]; [discriminate|].
    intros [= ->]. discriminate E.
Qed.

(** X22. In a report, the annotations of a detail are the verdicts of the
    classifier on the changes of that detail, one per change and in their
    order; so a detail is a danger exactly when one of its changes is
    graded DANGER.  An ownership conflict is never the empty string. *)
Theorem report_annotations_follow_the_changes
    (upgrade : list Resource) (chart_path : option string)
    (policy_mode : CrdPolicyMode) (release_name : option string)
    (kube_opts : KubeOpts) (report : CrdReport) :
  run_crd_pipeline upgrade chart_path policy_mode release_name kube_opts
  = Ok report ->
  forall d, In d (crds report) ->
    risk_annotations d = map _classify_single (changes d) /\
    (max_risk d = DANGER <->
     exists fc, In fc (changes d) /\ level (_classify_single fc) = DANGER) /\
    ownership_conflict d <> Some "".
Proof.
  intros H d Hd.
  apply run_crd_pipeline_inv in H as (proposed & _ & H).
  destruct H as [[_ ->] | (_ & installed & details & news & _ & HF & _ & ->)];
    [destruct Hd|].
  cbn [set_policy crds] in Hd.
  destruct (@Forall2_in_right _ _ _ _ _ d HF Hd) as (p & _ & Hpd).
  destruct (process_pair_annotations _ _ _ _ Hpd) as (Ha & Hc).
  destruct (process_pair_key _ _ _ _ Hpd) as (_ & _ & Hch).
  rewrite Hch. split; [exact Ha|]. split; [|exact Hc].
  rewrite max_risk_danger_iff, Ha. split.
  - intros (a & Hin & Hl). apply in_map_iff in Hin as (fc & <- & Hin). eauto.
  - intros (fc & Hin & Hl). exists (_classify_single fc).
    split; [now apply in_map | exact Hl].
Qed.

(** ** [cli.py]: step 4b *)

Lemma analyse_pairs a an :
  analyse a = Go an ->
  non_crd_pairs an
  = (if a_check_crds a
     then filter (fun p => negb (_is_crd_pair p))
            (pair_resources (live_resources an) (upgrade_resources an))
     else pair_resources (live_resources an) (upgrade_resources an)) /\
  (crd_report an = None <-> a_check_crds a = false).
Proof.
  unfold analyse. cbv zeta.
  destruct (get_manifest _ _ _) as [live_yaml|msg]; simpl; [|discriminate].
  destruct (parse_multi_doc live_yaml _) as [live|e]; simpl; [|discriminate].
  destruct (dry_run_upgrade _ _ _ _ _ _ _) as [upgrade_yaml|msg]; simpl;
    [|discriminate].
  destruct (parse_multi_doc upgrade_yaml _) as [up|e]; simpl; [|discriminate].
  destruct (a_server_side a); simpl.
  - destruct (_apply_server_side _ _ _) as [up'|e]; simpl; [|discriminate].
    destruct (a_check_crds a).
    + destruct (_run_crd_analysis _ _ _ _ _) as [r|e]; simpl; [|discriminate].
      intros [= <-]. cbn. split; [reflexivity | split; discriminate].
    + intros [= <-]. cbn. split; [reflexivity | split; reflexivity].
  - destruct (a_check_crds a).
    + destruct (_run_crd_analysis _ _ _ _ _) as [r|e]; simpl; [|discriminate].
      intros [= <-]. cbn. split; [reflexivity | split; discriminate].
    + intros [= <-]. cbn. split; [reflexivity | split; reflexivity].
Qed.

(** X23. With [--check-crds] the pairs that go to the general diff are
    the pairs of the live and the rendered resources that are not about a
    CRD, all of them and in their order: no resource of kind
    [CustomResourceDefinition] is shown there, and the run has a CRD
    report.  Without the flag every pair goes to the general diff and
    there is no CRD report. *)
Theorem crd_pairs_leave_the_general_diff (a : DiffArgs) (an : Analysis) :
  analyse a = Go an ->
  (a_check_crds a = true ->
   non_crd_pairs an
   = filter (fun p => negb (_is_crd_pair p))
       (pair_resources (live_resources an) (upgrade_resources an)) /\
   (forall p r, In p (non_crd_pairs an) ->
      new p = Some r \/ (new p = None /\ old p = Some r) ->
      kind r <> "CustomResourceDefinition") /\
   crd_report an <> None) /\
  (a_check_crds a = false ->
   non_crd_pairs an
   = pair_resources (live_resources an) (upgrade_resources an) /\
   crd_report an = None).
Proof.
  intros H. destruct (analyse_pairs _ H) as (Hp & Hr). split.
  - intros Hc. rewrite Hc in Hp. split; [exact Hp|]. split.
    + intros p r Hin Hside. rewrite Hp in Hin.
      apply filter_In in Hin as [_ Hn]. unfold _is_crd_pair in Hn.
      intros Hk. apply String.eqb_eq in Hk.
      destruct Hside as [Hnew | [Hnew Hold]].
      * rewrite Hnew in Hn. unfold is_crd in Hn. rewrite Hk in Hn.
        discriminate Hn.
      * rewrite Hnew, Hold in Hn. unfold is_crd in Hn. rewrite Hk in Hn.
        discriminate Hn.
    + intros E. apply Hr in E. congruence.
  - intros Hc. rewrite Hc in Hp. split; [exact Hp | now apply Hr].
Qed.


(** ** [crd/pipeline.py]: which schema the live objects meet *)

Lemma first_where_cons test x vs e :
  test x = Ok false -> first_where test vs e -> first_where test (x :: vs) e.
Proof.
  intros Hx (before & after & -> & Hb & He).
  exists (x :: before), after. split; [reflexivity|]. split; [|exact He].
  now constructor.
Qed.

Lemma first_where_head test x vs :
  test x = Ok true -> first_where test (x :: vs) x.
Proof.
  intros Hx. exists [], vs. split; [reflexivity|]. split; [constructor | exact Hx].
Qed.

Lemma find_storage_version_first vs v :
  find_storage_version vs = Ok v -> py_truthy v = true ->
  exists e, first_where has_storage vs e /\ py_get e "name" Null = Ok v.
Proof.
  induction vs as [|x rest IH]; cbn [find_storage_version]; intros H Hv.
  - injection H as <-. discriminate Hv.
  - apply bind_ok_inv in H as (storage & Hs & H).
    destruct (py_truthy storage) eqn:Et.
    + exists x. split; [|exact H]. apply first_where_head.
      unfold has_storage. rewrite Hs. cbn [bind]. now rewrite Et.
    + destruct (IH H Hv) as (e & He & Hn). exists e. split; [|exact Hn].
      apply first_where_cons; [|exact He].
      unfold has_storage. rewrite Hs. cbn [bind]. now rewrite Et.
Qed.

Lemma find_schema_first crd_body version schema :
  find_schema_for_version crd_body version = Ok schema ->
  py_truthy schema = true ->
  exists spec versions vs e holder,
    py_get crd_body "spec" (Map []) = Ok spec /\
    py_get spec "versions" (Seq []) = Ok versions /\
    py_iter versions = Ok vs /\
    first_where (is_named version) vs e /\
    py_get e "schema" (Map []) = Ok holder /\
    py_get holder "openAPIV3Schema" Null = Ok schema.
Proof.
  unfold find_schema_for_version. intros H Hs.
  apply bind_ok_inv in H as (spec & Hspec & H).
  apply bind_ok_inv in H as (versions & Hver & H).
  apply bind_ok_inv in H as (vs & Hvs & H).
  exists spec, versions, vs.
  assert (exists e holder,
            first_where (is_named version) vs e /\
            py_get e "schema" (Map []) = Ok holder /\
            py_get holder "openAPIV3Schema" Null = Ok schema)
    as (e & holder & He).
  { clear Hvs. induction vs as [|x rest IH]; cbn [bind] in H.
    - injection H as <-. discriminate Hs.
    - apply bind_ok_inv in H as (n & Hn & H).
      destruct (py_eq n version) eqn:Eq.
      + apply bind_ok_inv in H as (holder & Hh & H).
        exists x, holder. split; [|split; assumption].
        apply first_where_head. unfold is_named. rewrite Hn. cbn [bind].
        now rewrite Eq.
      + destruct (IH H) as (e & holder & He & Hrest).
        exists e, holder. split; [|exact Hrest].
        apply first_where_cons; [|exact He].
        unfold is_named. rewrite Hn. cbn [bind]. now rewrite Eq. }
  exists e, holder. destruct He as (He & Hh & Ho).
  repeat (split; [assumption|]). exact Ho.
Qed.

(** X24. Schema validation errors of a proposed CRD come from one place:
    when [_validate_live_crs] yields an error, the objects are those
    fetched for the plural and group of the proposed CRD, and the schema
    is the [openAPIV3Schema] of the first version entry of the proposed
    CRD that bears the name of its first entry with a truthy [storage];
    the errors are those of [validate_crs_against_schema] on the two. *)
Theorem live_validation_uses_the_storage_schema
    (new_crd : Resource) (kube_opts : KubeOpts) (errs : list string) :
  _validate_live_crs new_crd kube_opts = Ok errs ->
  errs <> [] ->
  exists spec versions vs storage_entry storage_version schema_entry holder
         schema names plural group crs,
    py_get (res_body new_crd) "spec" (Map []) = Ok spec /\
    py_get spec "versions" (Seq []) = Ok versions /\
    py_iter versions = Ok vs /\
    first_where has_storage vs storage_entry /\
    py_get storage_entry "name" Null = Ok storage_version /\
    first_where (is_named storage_version) vs schema_entry /\
    py_get schema_entry "schema" (Map []) = Ok holder /\
    py_get holder "openAPIV3Schema" Null = Ok schema /\
    py_get spec "names" (Map []) = Ok names /\
    py_get names "plural" (Str "") = Ok plural /\
    py_get spec "group" (Str "") = Ok group /\
    fetch_custom_resources plural group kube_opts = Ok crs /\
    validate_crs_against_schema crs schema = Ok errs.
Proof.
  intros H Hne. unfold _validate_live_crs in H.
  apply bind_ok_inv in H as (spec & Hspec & H).
  apply bind_ok_inv in H as (names & Hnames & H).
  apply bind_ok_inv in H as (plural & Hplural & H).
  apply bind_ok_inv in H as (group & Hgroup & H).
  destruct (negb (py_truthy plural) || negb (py_truthy group));
    [injection H as <-; now exfalso|].
  apply bind_ok_inv in H as (crs & Hcrs & H).
  destruct (negb (py_truthy crs)); [injection H as <-; now exfalso|].
  apply bind_ok_inv in H as (versions & Hver & H).
  apply bind_ok_inv in H as (vs & Hvs & H).
  apply bind_ok_inv in H as (storage_version & Hsv & H).
  destruct (py_truthy storage_version) eqn:Et; cbn [negb] in H;
    [|injection H as <-; now exfalso].
  apply bind_ok_inv in H as (schema & Hsch & H).
  destruct (py_truthy schema) eqn:Es; cbn [negb] in H;
    [|injection H as <-; now exfalso].
  destruct (find_storage_version_first _ Hsv Et) as (se & Hfirst & Hname).
  destruct (find_schema_first _ _ Hsch Es)
    as (spec' & versions' & vs' & e & holder & Hspec' & Hver' & Hvs' & He & Hh & Ho).
  rewrite Hspec in Hspec'. injection Hspec' as <-.
  rewrite Hver in Hver'. injection Hver' as <-.
  rewrite Hvs in Hvs'. injection Hvs' as <-.
  exists spec, versions, vs, se, storage_version, e, holder, schema, names,
    plural, group, crs.
  repeat (split; [assumption|]). exact H.
Qed.

End Embedding.

(* ================================================================== *)
(** * The widget scenario *)
(* ================================================================== *)

(** The theorems applied to the canned world of [Fixture], and the runs
    on which three sentences of the specification fail. *)

Local Abbreviation widget_pipeline :=
  (run_crd_pipeline Fixture.repr Fixture.literal_match Fixture.parse_multi_doc
     Fixture.yaml_safe_load Fixture.yaml_dump Fixture.detect_ownership
     Fixture.strip_noise Fixture.normalize_body Fixture.is_semantically_equal
     Fixture.extract_changes Fixture._kube_flags Fixture.run Fixture.crds_dir).

Local Abbreviation widget_diff :=
  (diff Fixture.repr Fixture.literal_match Fixture.parse_multi_doc
     Fixture.yaml_safe_load Fixture.yaml_dump Fixture.detect_ownership
     Fixture.strip_noise Fixture.normalize_body Fixture.is_semantically_equal
     Fixture.extract_changes Fixture._kube_flags Fixture.run Fixture.crds_dir
     Fixture.json_dumps Fixture.console
     Fixture.get_manifest Fixture.dry_run_upgrade Fixture.server_side_dry_run
     Fixture.pair_resources Fixture.diff_all Fixture.assess_risk).

Local Abbreviation widget_blocked :=
  (blocked_by_policy Fixture.repr Fixture.literal_match Fixture.parse_multi_doc
     Fixture.yaml_safe_load Fixture.yaml_dump Fixture.detect_ownership
     Fixture.strip_noise Fixture.normalize_body Fixture.is_semantically_equal
     Fixture.extract_changes Fixture._kube_flags Fixture.run Fixture.crds_dir
     Fixture.get_manifest Fixture.dry_run_upgrade Fixture.server_side_dry_run
     Fixture.pair_resources).

Local Abbreviation widget_primary_error :=
  (primary_run_error Fixture.parse_multi_doc Fixture.get_manifest
     Fixture.dry_run_upgrade).

Local Abbreviation widget_uncaught :=
  (uncaught_exception Fixture.repr Fixture.literal_match Fixture.parse_multi_doc
     Fixture.yaml_safe_load Fixture.yaml_dump Fixture.detect_ownership
     Fixture.strip_noise Fixture.normalize_body Fixture.is_semantically_equal
     Fixture.extract_changes Fixture._kube_flags Fixture.run Fixture.crds_dir
     Fixture.json_dumps Fixture.console
     Fixture.get_manifest Fixture.dry_run_upgrade Fixture.server_side_dry_run
     Fixture.pair_resources Fixture.diff_all Fixture.assess_risk).


(** Scenario 3: v1 is stored and no longer proposed. *)
Lemma stored_version_warning_witness :
  stored_versions_of Fixture.installed_widgets
  = Ok (Seq (map Str ["v1"; "v2"])) /\
  version_names_of Fixture.proposed_widgets = Ok [Str "v2"] /\
  exists warnings,
    check_stored_version_safety Fixture.repr Fixture.installed_widgets
      Fixture.proposed_widgets = Ok warnings /\
    length warnings = 1%nat /\ warnings <> [].
Proof.
  assert (stored_versions_of Fixture.installed_widgets
          = Ok (Seq (map Str ["v1"; "v2"]))) as H1 by reflexivity.
  assert (version_names_of Fixture.proposed_widgets = Ok [Str "v2"]) as H2
    by reflexivity.
  split; [exact H1|]. split; [exact H2|].
  destruct (stored_version_warning_iff_orphaned Fixture.repr
              Fixture.installed_widgets Fixture.proposed_widgets
              ["v1"; "v2"] H1) as [_ H].
  destruct (H _ H2) as (ws & Hws & _ & Hlen & Hiff).
  exists ws. split; [exact Hws|]. split; [rewrite Hlen; reflexivity|].
  apply Hiff. exists "v1". split; [now left|].
  intros [E|[]]. discriminate E.
Defined.

(** Scenario 3, the annotation. *)
Lemma removed_version_witness :
  re_match pat_version_entry (path Fixture.version_removed) = true /\
  _classify_single Fixture.repr Fixture.version_removed
  = _annotation DANGER "crd_version_removed" "CRD version removed"
      "spec.versions[0]".
Proof.
  split; [reflexivity|].
  apply (proj1 (removed_version_is_crd_version_removed Fixture.repr
                  Fixture.version_removed eq_refl eq_refl)).
Defined.

(** Scenario 6, with a second object that has no namespace: the walk of
    [my-widget] comes to the node [spec], which requires [color], and the
    error for it is in the result. *)
Lemma schema_errors_witness :
  schema_ok Fixture.widget_schema = true /\
  Forall (fun cr => cr_ok cr = true)
    [Fixture.my_widget; Fixture.cluster_widget] /\
  exists errs,
    validate_crs_against_schema Fixture.repr Fixture.literal_match
      (Seq [Fixture.my_widget; Fixture.cluster_widget]) Fixture.widget_schema
    = Ok errs /\
    In "default/my-widget: At 'spec': missing required field 'color'" errs.
Proof.
  assert (schema_ok Fixture.widget_schema = true) as H1 by reflexivity.
  assert (Forall (fun cr => cr_ok cr = true)
            [Fixture.my_widget; Fixture.cluster_widget]) as H2
    by (repeat constructor).
  split; [exact H1|]. split; [exact H2|].
  destruct (schema_errors_prefixed_located_and_complete Fixture.repr
              Fixture.literal_match Fixture.widget_schema H1 H2)
    as (errs & H & _ & Hreq & _).
  exists errs. split; [exact H|].
  apply (Hreq Fixture.my_widget (Str "my-widget") (Str "default")
           [("size", Int 3)]
           [("type", Str "object");
            ("required", Seq [Str "color"]);
            ("properties",
             Map [("color", Map [("type", Str "string")]);
                  ("size", Map [("type", Str "integer");
                                ("minimum", Int 1)])])]
           "spec" [Str "color"] (Str "color")).
  - now left.
  - split; reflexivity.
  - eapply reaches_down; [|apply reaches_here].
    apply (@descends_property
             [("apiVersion", Str "example.com/v2");
              ("kind", Str "Widget");
              ("metadata", Map [("name", Str "my-widget");
                                ("namespace", Str "default")]);
              ("spec", Map [("size", Int 3)])]
             [("type", Str "object");
              ("properties",
               Map [("spec",
                     Map [("type", Str "object");
                          ("required", Seq [Str "color"]);
                          ("properties",
                           Map [("color", Map [("type", Str "string")]);
                                ("size", Map [("type", Str "integer");
                                              ("minimum", Int 1)])])])])]
             "" _ "spec" _ _ eq_refl eq_refl (or_introl eq_refl) eq_refl).
  - reflexivity.
  - reflexivity.
  - now left.
  - reflexivity.
Defined.

(** The chart folder with a file that cannot be read and a file that is
    no YAML: the CRD of the third file is all that comes out. *)
Lemma crd_file_errors_witness :
  Fixture.crds_dir "charts/widgets"
  = Some [("widgets.yaml", Ok "widgets crd");
          ("broken.yaml", Raise OSError);
          ("notes.yml", Ok "{not: yaml")] /\
  extract_crds_from_chart_dir Fixture.parse_multi_doc Fixture.crds_dir
    "charts/widgets" = Ok [Fixture.proposed_widgets].
Proof.
  assert (Fixture.crds_dir "charts/widgets"
          = Some [("widgets.yaml", Ok "widgets crd");
                  ("broken.yaml", Raise OSError);
                  ("notes.yml", Ok "{not: yaml")]) as H1 by reflexivity.
  split; [exact H1|].
  assert (Forall (fun f => reads_or_skips Fixture.parse_multi_doc f = true)
            [("widgets.yaml", Ok "widgets crd");
             ("broken.yaml", Raise OSError);
             ("notes.yml", Ok "{not: yaml")]) as H2 by (repeat constructor).
  destruct (crd_file_errors_are_skipped_silently Fixture.repr
              Fixture.literal_match Fixture.parse_multi_doc
              Fixture.yaml_safe_load Fixture.yaml_dump
              Fixture.detect_ownership Fixture.strip_noise
              Fixture.normalize_body Fixture.is_semantically_equal
              Fixture.extract_changes Fixture._kube_flags Fixture.run
              Fixture.crds_dir "charts/widgets" H1 H2) as [H _].
  rewrite H. reflexivity.
Defined.

(** The report of the scenario: one detail, changed, with its change. *)
Lemma report_details_witness :
  exists report,
    widget_pipeline [] (Some "charts/widgets") FAIL (Some "web")
      Fixture.no_opts = Ok report /\
    forall d, In d (crds report) ->
      (cd_status d = "changed" -> changes d <> []) /\
      cd_status d <> "unchanged".
Proof.
  assert (exists report,
            widget_pipeline [] (Some "charts/widgets") FAIL (Some "web")
              Fixture.no_opts = Ok report) as (report & H)
    by (eexists; vm_compute; reflexivity).
  exists report. split; [exact H|].
  apply (proj1 (report_details_changed_or_absent _ _ _ _ _ _ _ _ _ _ _ _ _
                  _ _ _ _ _ H)).
Defined.

Lemma chars_app a b : chars (a ++ b) = chars a ++ chars b.
Proof. induction a as [|c a IH]; simpl; [reflexivity | now rewrite IH]. Qed.

Lemma slash_in_prefixed namespace rest :
  In "/"%char (chars (fstr [namespace; "/"; rest])).
Proof.
  unfold fstr. cbn [String.concat].
  rewrite chars_app. apply in_or_app. right. simpl. now left.
Qed.

Local Abbreviation undecodable_diff :=
  (diff Fixture.repr Fixture.literal_match Fixture.parse_multi_doc
     Fixture.yaml_safe_load Fixture.yaml_dump Fixture.detect_ownership
     Fixture.strip_noise Fixture.normalize_body Fixture.is_semantically_equal
     Fixture.extract_changes Fixture._kube_flags Fixture.run
     Fixture.undecodable_dir Fixture.json_dumps Fixture.console
     Fixture.get_manifest Fixture.dry_run_upgrade Fixture.server_side_dry_run
     Fixture.pair_resources Fixture.diff_all Fixture.assess_risk).

Local Abbreviation undecodable_blocked :=
  (blocked_by_policy Fixture.repr Fixture.literal_match Fixture.parse_multi_doc
     Fixture.yaml_safe_load Fixture.yaml_dump Fixture.detect_ownership
     Fixture.strip_noise Fixture.normalize_body Fixture.is_semantically_equal
     Fixture.extract_changes Fixture._kube_flags Fixture.run
     Fixture.undecodable_dir
     Fixture.get_manifest Fixture.dry_run_upgrade Fixture.server_side_dry_run
     Fixture.pair_resources).


(** C6 as stated fails on two counts.  An object without a namespace is
    reported under its bare name: the error has no [namespace/name] in
    front, whatever the namespace.  And a schema node that lists [color]
    as required without being of type [object] lets an object without
    [color] pass: the walker reads [required] at nodes of type [object]
    only. *)
Lemma bare_name_prefix_and_untyped_required :
  validate_crs_against_schema Fixture.repr Fixture.literal_match
    (Seq [Fixture.cluster_widget]) Fixture.widget_schema
  = Ok [Fixture.required_color_missing] /\
  (forall namespace rest,
     Fixture.required_color_missing <> fstr [namespace; "/"; rest]) /\
  required_of Fixture.untyped_schema = Seq [Str "color"] /\
  dict_contains (Str "color") Fixture.plain_widget = Ok false /\
  validate_crs_against_schema Fixture.repr Fixture.literal_match
    (Seq [Map Fixture.plain_widget]) (Map Fixture.untyped_schema)
  = Ok [].
Proof.
  split; [vm_compute; reflexivity|]. split.
  - intros namespace rest E.
    pose proof (slash_in_prefixed namespace rest) as H.
    rewrite <- E in H. simpl in H.
    repeat (destruct H as [H|H]; [discriminate H|]). exact H.
  - split; [reflexivity|]. split; [reflexivity|]. vm_compute. reflexivity.
Qed.

(** C8 as stated fails: [broken.yaml] cannot be read, the CRD of the
    folder is analysed all the same, and the warnings of the report are
    empty. *)
Lemma unreadable_crd_file_leaves_no_warning :
  (exists entries,
     Fixture.crds_dir "charts/widgets" = Some entries /\
     In ("broken.yaml", Raise OSError) entries) /\
  exists report,
    widget_pipeline [] (Some "charts/widgets") WARN (Some "web")
      Fixture.no_opts = Ok report /\
    map cd_name (crds report) = ["widgets.example.com"] /\
    warnings report = [].
Proof.
  split.
  - eexists. split; [reflexivity|]. right. now left.
  - eexists. split; [vm_compute; reflexivity|]. split; reflexivity.
Qed.

(* ================================================================== *)
(** * The widget scenario, further *)
(* ================================================================== *)

Local Abbreviation offline_pipeline :=
  (run_crd_pipeline Fixture.repr Fixture.literal_match Fixture.parse_multi_doc
     Fixture.yaml_safe_load Fixture.yaml_dump Fixture.detect_ownership
     Fixture.strip_noise Fixture.normalize_body Fixture.is_semantically_equal
     Fixture.extract_changes Fixture._kube_flags Fixture.unreachable
     Fixture.crds_dir).

Local Abbreviation widget_analyse :=
  (analyse Fixture.repr Fixture.literal_match Fixture.parse_multi_doc
     Fixture.yaml_safe_load Fixture.yaml_dump Fixture.detect_ownership
     Fixture.strip_noise Fixture.normalize_body Fixture.is_semantically_equal
     Fixture.extract_changes Fixture._kube_flags Fixture.run Fixture.crds_dir
     Fixture.get_manifest Fixture.dry_run_upgrade Fixture.server_side_dry_run
     Fixture.pair_resources).

Local Abbreviation widget_proposed :=
  (proposed_crds_of Fixture.parse_multi_doc Fixture.crds_dir []
     (Some "charts/widgets")).

(** The report of the scenario has its one detail under the name of the
    proposed CRD. *)
Lemma report_details_status_witness :
  exists report,
    widget_pipeline [] (Some "charts/widgets") FAIL (Some "web")
      Fixture.no_opts = Ok report /\
    widget_proposed = Ok [Fixture.proposed_widgets] /\
    NoDup (map cd_name (crds report)).
Proof.
  assert (exists report,
            widget_pipeline [] (Some "charts/widgets") FAIL (Some "web")
              Fixture.no_opts = Ok report) as (report & H)
    by (eexists; vm_compute; reflexivity).
  assert (widget_proposed = Ok [Fixture.proposed_widgets]) as Hp
    by (vm_compute; reflexivity).
  exists report. split; [exact H|]. split; [exact Hp|].
  apply (proj1 (@report_details_are_added_or_changed _ _ _ _ _ _ _ _ _ _ _ _ _
                  _ _ _ _ _ _ _ H Hp)).
Defined.

(** The same chart against a cluster that cannot be reached, in mode
    [fail]: one warning, and nothing blocks. *)
Lemma empty_discovery_witness :
  exists report,
    offline_pipeline [] (Some "charts/widgets") FAIL (Some "web")
      Fixture.no_opts = Ok report /\
    widget_proposed = Ok [Fixture.proposed_widgets] /\
    [Fixture.proposed_widgets] <> [] /\
    warnings report = [could_not_retrieve] /\
    policy_blocks (Some report) = false.
Proof.
  assert (exists report,
            offline_pipeline [] (Some "charts/widgets") FAIL (Some "web")
              Fixture.no_opts = Ok report) as (report & H)
    by (eexists; vm_compute; reflexivity).
  assert (widget_proposed = Ok [Fixture.proposed_widgets]) as Hp
    by (vm_compute; reflexivity).
  assert ([Fixture.proposed_widgets] <> []) as Hne by discriminate.
  exists report. split; [exact H|]. split; [exact Hp|]. split; [exact Hne|].
  destruct (proj1 (@empty_discovery_reports_every_crd_as_added
                     _ _ _ _ _ _ _ _ _ _ _ _ _ _ _ _ _ _ _ _ H Hp Hne)
              eq_refl) as (Hw & _ & _ & _ & Hb).
  split; [exact Hw | exact Hb].
Defined.

(** The report of the scenario carries the policy evaluated on it. *)
Lemma report_policy_witness :
  exists report,
    widget_pipeline [] (Some "charts/widgets") FAIL (Some "web")
      Fixture.no_opts = Ok report /\
    policy_result report = Some (evaluate_policy report FAIL).
Proof.
  assert (exists report,
            widget_pipeline [] (Some "charts/widgets") FAIL (Some "web")
              Fixture.no_opts = Ok report) as (report & H)
    by (eexists; vm_compute; reflexivity).
  exists report. split; [exact H|].
  apply (proj1 (@report_policy_is_policy_of_report _ _ _ _ _ _ _ _ _ _ _ _ _
                  _ _ _ _ _ _ H)).
Defined.

(** With [--crd-policy warn] the removed version does not block. *)
Lemma only_fail_policy_blocks_witness :
  (a_check_crds (Fixture.args "warn") = false
   \/ a_crd_policy (Fixture.args "warn") <> "fail") /\
  ~ widget_blocked (Fixture.args "warn").
Proof.
  assert (a_check_crds (Fixture.args "warn") = false
          \/ a_crd_policy (Fixture.args "warn") <> "fail") as H
    by (right; simpl; discriminate).
  split; [exact H|].
  apply (proj1 (@only_fail_policy_blocks Fixture.repr Fixture.literal_match
                  Fixture.parse_multi_doc Fixture.yaml_safe_load
                  Fixture.yaml_dump Fixture.detect_ownership
                  Fixture.strip_noise Fixture.normalize_body
                  Fixture.is_semantically_equal Fixture.extract_changes
                  Fixture._kube_flags Fixture.run Fixture.crds_dir
                  Fixture.json_dumps Fixture.console
                  Fixture.get_manifest Fixture.dry_run_upgrade
                  Fixture.server_side_dry_run Fixture.pair_resources
                  Fixture.diff_all Fixture.assess_risk
                  (Fixture.args "warn") H)).
Defined.

(** The proposed CRDs of the scenario come from the chart folder. *)
Lemma proposed_crds_witness :
  widget_proposed = Ok [Fixture.proposed_widgets] /\
  Forall (fun r => kind r = "CustomResourceDefinition")
    [Fixture.proposed_widgets].
Proof.
  assert (widget_proposed = Ok [Fixture.proposed_widgets]) as Hp
    by (vm_compute; reflexivity).
  split; [exact Hp|].
  apply (proj1 (@proposed_crds_manifest_first _ _ _ _ _ Hp)).
Defined.

(** A number where the schema wants a string. *)
Lemma type_mismatch_witness :
  py_truthy (schema_type_of [("type", Str "string"); ("enum", Seq [])]) = true /\
  _check_type (Int 3) (schema_type_of [("type", Str "string"); ("enum", Seq [])])
  = Ok false /\
  _validate_object Fixture.repr Fixture.literal_match (Int 3)
    (Map [("type", Str "string"); ("enum", Seq [])]) "spec.color"
  = Ok ["At 'spec.color': expected type 'string', got 'int'"].
Proof.
  split; [reflexivity|]. split; [reflexivity|].
  apply (proj1 (@type_mismatch_short_circuits Fixture.repr
                  Fixture.literal_match (Int 3)
                  [("type", Str "string"); ("enum", Seq [])] "spec.color"
                  eq_refl eq_refl)).
Defined.

(** A null where the schema wants an object with a required field. *)
Lemma null_passes_witness :
  lookup "enum" [("type", Str "object"); ("required", Seq [Str "color"])]
  = None /\
  _validate_object Fixture.repr Fixture.literal_match Null
    (Map [("type", Str "object"); ("required", Seq [Str "color"])]) "spec"
  = Ok [].
Proof.
  split; [reflexivity|].
  apply (@null_passes_without_enum Fixture.repr Fixture.literal_match
           [("type", Str "object"); ("required", Seq [Str "color"])] "spec"
           eq_refl).
Defined.

(** [colour] is unknown to the closed schema, [kind] is let through. *)
Lemma unknown_fields_witness :
  schema_ok (Map Fixture.closed_schema) = true /\
  schema_type_of Fixture.closed_schema = Str "object" /\
  properties_of Fixture.closed_schema = Map Fixture.color_props /\
  additional_of Fixture.closed_schema = Bool false /\
  exists errs,
    _validate_object Fixture.repr Fixture.literal_match
      (Map Fixture.misspelt_widget) (Map Fixture.closed_schema) "spec"
    = Ok errs /\
    In "At 'spec': unknown field 'colour'" errs.
Proof.
  split; [reflexivity|]. split; [reflexivity|]. split; [reflexivity|].
  split; [reflexivity|].
  destruct (proj2 (@unknown_fields_are_reported Fixture.repr
                     Fixture.literal_match Fixture.misspelt_widget
                     Fixture.closed_schema Fixture.color_props "spec"
                     eq_refl eq_refl eq_refl eq_refl)) as (errs & H & Hin).
  exists errs. split; [exact H|].
  apply (Hin ("colour", Str "red")); [right; now left | reflexivity].
Defined.

(** An installed CRD with a null status. *)
Lemma stored_version_null_status_witness :
  res_body Fixture.null_status_widgets = Map [("status", Null)] /\
  check_stored_version_safety Fixture.repr Fixture.null_status_widgets
    Fixture.proposed_widgets = Raise AttributeError.
Proof.
  split; [reflexivity|].
  apply (proj1 (proj2 (@stored_version_check_absent_or_null Fixture.repr
                         Fixture.null_status_widgets Fixture.proposed_widgets
                         [("status", Null)] eq_refl)) Null);
    reflexivity.
Defined.

(** Against a cluster that cannot be reached the proposed CRD is new. *)
Lemma new_crds_witness :
  exists report,
    offline_pipeline [] (Some "charts/widgets") WARN (Some "web")
      Fixture.no_opts = Ok report /\
    (In "widgets.example.com" (map nc_name (new_crds report)) <->
     exists d, In d (crds report) /\ cd_name d = "widgets.example.com" /\
               cd_status d = "added").
Proof.
  assert (exists report,
            offline_pipeline [] (Some "charts/widgets") WARN (Some "web")
              Fixture.no_opts = Ok report) as (report & H)
    by (eexists; vm_compute; reflexivity).
  exists report. split; [exact H|].
  apply (@new_crds_are_the_added_details _ _ _ _ _ _ _ _ _ _ _ _ _
           _ _ _ _ _ _ H "widgets.example.com").
Defined.

(** The removal of the first version, whatever the values are. *)
Lemma classification_ignores_values_witness :
  path Fixture.version_removed = path Fixture.version_removed_blank /\
  change_type Fixture.version_removed
  = change_type Fixture.version_removed_blank /\
  rule (_classify_single Fixture.repr Fixture.version_removed)
  = rule (_classify_single Fixture.repr Fixture.version_removed_blank).
Proof.
  split; [reflexivity|]. split; [reflexivity|].
  apply (proj1 (@classification_ignores_values Fixture.repr
                  Fixture.version_removed Fixture.version_removed_blank
                  eq_refl eq_refl)).
Defined.

(** The removed version is a danger, and its change type is one of the
    three. *)
Lemma danger_change_type_witness :
  level (_classify_single Fixture.repr Fixture.version_removed) = DANGER /\
  In (change_type Fixture.version_removed)
    ["item_added"; "item_removed"; "value_changed"].
Proof.
  assert (level (_classify_single Fixture.repr Fixture.version_removed)
          = DANGER) as H by (vm_compute; reflexivity).
  split; [exact H|].
  apply (@danger_needs_a_known_change_type Fixture.repr
           Fixture.version_removed H).
Defined.

(** The detail of the scenario has the verdicts of its changes. *)
Lemma report_annotations_witness :
  exists report,
    widget_pipeline [] (Some "charts/widgets") FAIL (Some "web")
      Fixture.no_opts = Ok report /\
    forall d, In d (crds report) ->
      risk_annotations d = map (_classify_single Fixture.repr) (changes d).
Proof.
  assert (exists report,
            widget_pipeline [] (Some "charts/widgets") FAIL (Some "web")
              Fixture.no_opts = Ok report) as (report & H)
    by (eexists; vm_compute; reflexivity).
  exists report. split; [exact H|].
  intros d Hd.
  apply (proj1 (@report_annotations_follow_the_changes _ _ _ _ _ _ _ _ _ _ _
                  _ _ _ _ _ _ _ _ H d Hd)).
Defined.

(** The run of the scenario has a CRD report. *)
Lemma crd_pairs_witness :
  exists an,
    widget_analyse (Fixture.args "fail") = Go an /\
    a_check_crds (Fixture.args "fail") = true /\
    crd_report an <> None.
Proof.
  assert (exists an, widget_analyse (Fixture.args "fail") = Go an)
    as (an & H) by (eexists; vm_compute; reflexivity).
  exists an. split; [exact H|]. split; [reflexivity|].
  apply (proj1 (@crd_pairs_leave_the_general_diff _ _ _ _ _ _ _ _ _ _ _ _ _
                  _ _ _ _ _ _ H) eq_refl).
Defined.

(** Scenario 6 through the pipeline's step 8: the live widget fails the
    schema of the storage version v2. *)
Lemma live_validation_witness :
  exists errs,
    _validate_live_crs Fixture.repr Fixture.literal_match
      Fixture.yaml_safe_load Fixture._kube_flags Fixture.run
      Fixture.proposed_widgets Fixture.no_opts = Ok errs /\
    errs <> [] /\
    exists crs schema,
      validate_crs_against_schema Fixture.repr Fixture.literal_match crs schema
      = Ok errs.
Proof.
  assert (exists errs,
            _validate_live_crs Fixture.repr Fixture.literal_match
              Fixture.yaml_safe_load Fixture._kube_flags Fixture.run
              Fixture.proposed_widgets Fixture.no_opts = Ok errs /\
            errs <> []) as (errs & H & Hne)
    by (eexists; split; [vm_compute; reflexivity | discriminate]).
  exists errs. split; [exact H|]. split; [exact Hne|].
  destruct (@live_validation_uses_the_storage_schema _ _ _ _ _ _ _ _ H Hne)
    as (spec & versions & vs & se & sv & e & holder & schema & names & plural
        & group & crs & Hall).
  exists crs, schema.
  apply (proj2 (proj2 (proj2 (proj2 (proj2 (proj2 (proj2 (proj2 (proj2
           (proj2 (proj2 (proj2 Hall)))))))))))).
Defined.
